(** * mne-rsa, [rsa/dsm.py]: dissimilarity matrices and searchlight generators

    A shallow embedding of [src/rsa/dsm.py] and the properties of it that
    the specification states.

    Numbers.  NumPy computes on IEEE doubles; this development computes on
    the canonical rationals [Qc] (exact arithmetic, Leibniz equality).
    Division is total in [Qc] ([x / 0 = 0]) where NumPy gives [nan] or
    [inf]; a statement below about values has a non-zero divisor or
    compares two results of the same division, the others speak of shapes
    and of success.

    Arrays.  An [ndarray] is a shape and a row-major buffer, as in NumPy.

    Errors.  A Python call either returns a value or raises an exception:
    [result A = exception + A].

    Generators.  A generator is described by its trace: the values it
    yields, in order, and how it stops.

    Mutation.  [Module Store] gives the same functions on a store of
    arrays, with views and updates in place, to state which arrays a call
    may write.

    SciPy's metric catalog, joblib's [Parallel] and the fold builder of
    [rsa/folds.py] are outside [rsa/dsm.py]; they enter as parameters.  The
    catalog is given the observations too, for the options that SciPy
    estimates from them. *)

From Stdlib Require Import String Ascii.
From Stdlib Require Import QArith Qcanon Field.
From Stdlib Require Import List Sorted Permutation Arith ZArith Lia Bool.
Import ListNotations.

Close Scope Q_scope.
Close Scope Qc_scope.
Open Scope string_scope.
Open Scope list_scope.
Open Scope nat_scope.

(* ================================================================== *)
(** * Python: exceptions, results, ranges, strings *)
(* ================================================================== *)

Inductive exception : Type :=
| ValueError (msg : string)
| TypeError (msg : string)
| IndexError (msg : string)
| RuntimeError (msg : string).

Definition result (A : Type) : Type := (exception + A)%type.

Definition ret {A} (a : A) : result A := inr a.
Definition raise {A} (e : exception) : result A := inl e.
Definition bind {A B} (m : result A) (f : A -> result B) : result B :=
  match m with
  | inl e => inl e
  | inr a => f a
  end.

Declare Scope py_scope.
Delimit Scope py_scope with py.
Notation "x <- m ;; k" := (bind m (fun x => k))
  (at level 61, m at next level, right associativity) : py_scope.
Open Scope py_scope.

(** [range(a, b)] on Python integers. *)
Definition range (a b : Z) : list Z :=
  map (fun i => (a + Z.of_nat i)%Z) (seq 0 (Z.to_nat (b - a))).

(** [needle in haystack] on strings. *)
Definition contains (needle haystack : string) : bool :=
  match String.index 0 needle haystack with
  | Some _ => true
  | None => false
  end.

(** [x in [a, b, ...]] for a list of strings. *)
Definition str_in (x : string) (l : list string) : bool :=
  existsb (String.eqb x) l.

(* ================================================================== *)
(** * [_get_time_patch_centers] *)
(* ================================================================== *)

(** [return list(range(temporal_radius, n_samples - temporal_radius + 1))] *)
Definition _get_time_patch_centers (n_samples temporal_radius : Z) : list Z :=
  range temporal_radius (n_samples - temporal_radius + 1).

(* ================================================================== *)
(** * NumPy: arrays over the rationals *)
(* ================================================================== *)

Definition of_nat (n : nat) : Qc := Q2Qc (inject_Z (Z.of_nat n)).

(** [x < y] on scalars. *)
Definition Qc_ltb (x y : Qc) : bool := negb (Qle_bool y x).

Record ndarray : Type := mk_ndarray { shape : list nat; buf : list Qc }.

Definition prod (dims : list nat) : nat := fold_right Nat.mul 1 dims.
Definition size (a : ndarray) : nat := length (buf a).
Definition ndim (a : ndarray) : nat := length (shape a).

(** The buffer holds exactly the elements the shape announces. *)
Definition wf (a : ndarray) : Prop := length (buf a) = prod (shape a).

(** [len(a)] *)
Definition len (a : ndarray) : result nat :=
  match shape a with
  | [] => raise (TypeError "len() of unsized object")
  | n :: _ => ret n
  end.

(** [a.shape[i]] *)
Definition shape_at (a : ndarray) (i : nat) : result nat :=
  match nth_error (shape a) i with
  | Some n => ret n
  | None => raise (IndexError "tuple index out of range")
  end.

(** The [i]-th block of [m] consecutive elements of a buffer. *)
Definition block {A} (m i : nat) (l : list A) : list A :=
  firstn m (skipn (i * m) l).

(** [a[i]] along the first axis. *)
Definition item (a : ndarray) (i : nat) : ndarray :=
  mk_ndarray (tl (shape a)) (block (prod (tl (shape a))) i (buf a)).

(** [for x in a] ([a] has at least one axis). *)
Definition items (a : ndarray) : list ndarray :=
  map (item a) (seq 0 (hd 0 (shape a))).

(** The rows of a 2-D array, as vectors. *)
Definition rows (a : ndarray) : list (list Qc) := map buf (items a).

(** [np.reshape(a, known + (-1,))]: the last dimension is inferred.  NumPy
    refuses when the known dimensions multiply to zero or do not divide
    the size. *)
Definition reshape (a : ndarray) (known : list nat) : result ndarray :=
  let k := prod known in
  if (k =? 0) || negb (size a mod k =? 0)
  then raise (ValueError "cannot reshape array into the requested shape")
  else ret (mk_ndarray (known ++ [size a / k]) (buf a)).

Fixpoint map2 {A B C} (f : A -> B -> C) (l1 : list A) (l2 : list B) : list C :=
  match l1, l2 with
  | x :: l1', y :: l2' => f x y :: map2 f l1' l2'
  | _, _ => []
  end.

Definition vadd : list Qc -> list Qc -> list Qc := map2 Qcplus.
Definition vsub : list Qc -> list Qc -> list Qc := map2 Qcminus.
Definition vdivs (v : list Qc) (c : Qc) : list Qc := map (fun x => (x / c)%Qc) v.

(** [a + b], [a - b] for arrays of one shape, [a / c] for a scalar [c]. *)
Definition add (a b : ndarray) : ndarray :=
  mk_ndarray (shape a) (vadd (buf a) (buf b)).
Definition sub (a b : ndarray) : ndarray :=
  mk_ndarray (shape a) (vsub (buf a) (buf b)).
(** In [divs] a zero divisor gives zeros (division is total on the
    rationals) where NumPy gives [nan] or [inf]: a statement about values
    below has a divisor that is not zero, or compares two results of the
    same division. *)
Definition divs (a : ndarray) (c : Qc) : ndarray :=
  mk_ndarray (shape a) (vdivs (buf a) c).

(** [np.zeros(n)] *)
Definition zeros (n : nat) : ndarray := mk_ndarray [n] (repeat 0%Qc n).

(** [np.add.reduce] over a non-empty list of buffers. *)
Definition vsum (bs : list (list Qc)) : list Qc :=
  match bs with
  | [] => []
  | b :: bs' => fold_left vadd bs' b
  end.

(** [a.mean(axis=0)] *)
Definition mean_axis0 (a : ndarray) : ndarray :=
  mk_ndarray (tl (shape a))
             (vdivs (vsum (map buf (items a))) (of_nat (hd 0 (shape a)))).

(** [np.delete(a, k, axis=0)] *)
Definition delete_nth {A} (k : nat) (l : list A) : list A :=
  firstn k l ++ skipn (S k) l.
Definition delete_axis0 (a : ndarray) (k : nat) : ndarray :=
  mk_ndarray (length (delete_nth k (items a)) :: tl (shape a))
             (concat (delete_nth k (map buf (items a)))).

(** [np.flatnonzero(mask)] *)
Definition flatnonzero (mask : list bool) : list nat :=
  filter (fun j => nth j mask false) (seq 0 (length mask)).

(** [np.triu_indices(n, k, m)]: the positions [(i, j)] of an [n] x [m]
    matrix with [j >= i + k], row by row. *)
Definition triu_indices (n k m : nat) : list (nat * nat) :=
  flat_map (fun i => map (pair i) (seq (i + k) (m - (i + k)))) (seq 0 n).

(** [np.triu_indices_from(a, k)] for a 2-D array. *)
Definition triu_indices_from (a : ndarray) (k : nat) : list (nat * nat) :=
  triu_indices (nth 0 (shape a) 0) k (nth 1 (shape a) 0).

(** [a[i, j]] on a 2-D array. *)
Definition entry (a : ndarray) (i j : nat) : Qc :=
  nth (i * nth 1 (shape a) 0 + j) (buf a) 0%Qc.

(** [a[(is, js)]] on a 2-D array: one element per index pair. *)
Definition take_pairs (a : ndarray) (idx : list (nat * nat)) : ndarray :=
  mk_ndarray [length idx] (map (fun ij => entry a (fst ij) (snd ij)) idx).

(** [a[:, :, idx]]: integer-array indexing of the third axis (a copy). *)
Definition take_axis2 (a : ndarray) (idx : list nat) : result ndarray :=
  match shape a with
  | n0 :: n1 :: n2 :: rest =>
      if forallb (fun j => j <? n2) idx then
        let m := prod rest in
        ret (mk_ndarray (n0 :: n1 :: length idx :: rest)
               (flat_map
                  (fun b => flat_map (fun j => block m (b * n2 + j) (buf a)) idx)
                  (seq 0 (n0 * n1))))
      else raise (IndexError "index is out of bounds for axis 2")
  | _ => raise (IndexError "too many indices for array")
  end.

(** A slice bound [i] on an axis of length [n], as Python clips it. *)
Definition slice_bound (n : nat) (i : Z) : nat :=
  if (i <? 0)%Z then Z.to_nat (Z.max (i + Z.of_nat n) 0)
  else Z.to_nat (Z.min i (Z.of_nat n)).

(** [a[..., lo:hi]]: a slice of the last axis. *)
Definition slice_last (a : ndarray) (lo hi : Z) : result ndarray :=
  match shape a with
  | [] => raise (IndexError "too many indices for array")
  | _ =>
      let t := last (shape a) 0 in
      let l := slice_bound t lo in
      let w := slice_bound t hi - l in
      ret (mk_ndarray (removelast (shape a) ++ [w])
             (flat_map (fun c => firstn w (skipn (c * t + l) (buf a)))
                       (seq 0 (prod (removelast (shape a))))))
  end.

(* ================================================================== *)
(** * Python: keyword arguments *)
(* ================================================================== *)

(** A keyword-argument dict: option names and their values. *)
Definition kwargs : Type := list (string * ndarray).

(** The message of [**None] in a call of [callee]: CPython (3.9 and
    later) names the function that was to be called, with its module. *)
Definition not_a_mapping_msg (callee : string) : string :=
  (callee ++ "() argument after ** must be a mapping, not NoneType")%string.

(** [**dist_params] at a call site of [callee]: [None] is not a
    mapping. *)
Definition expand_kwargs (callee : string) (dist_params : option kwargs)
  : result kwargs :=
  match dist_params with
  | None => raise (TypeError (not_a_mapping_msg callee))
  | Some d => ret d
  end.

(** A loop over the results of its steps, stopping at the first error. *)
Fixpoint fold_result {A B} (f : A -> B -> result A) (l : list B) (a : A)
  : result A :=
  match l with
  | [] => ret a
  | x :: l' => a' <- f a x ;; fold_result f l' a'
  end.

Fixpoint map_result {A B} (f : A -> result B) (l : list A) : result (list B) :=
  match l with
  | [] => ret []
  | x :: l' => y <- f x ;; ys <- map_result f l' ;; ret (y :: ys)
  end.

(* ================================================================== *)
(** * [scipy.spatial.distance]: [pdist] and [cdist] *)
(* ================================================================== *)

(** The double quote character, for messages that quote a name. *)
Definition dquote : string :=
  String (Ascii false true false false false true false false) EmptyString.

(** The message of the single-feature check: adjacent literals joined. *)
Definition single_feature_msg : string :=
  ("There is only a single feature, so " ++
   "'correlataion' and 'cosine' can not be " ++
   "used as DSM metric. Consider using 'sqeuclidean' " ++
   "instead.")%string.

(** Squared Euclidean distance between two vectors. *)
Definition sqeuclidean (u v : list Qc) : Qc :=
  fold_right Qcplus 0%Qc (map (fun d => (d * d)%Qc) (vsub u v)).

(** [np.vstack([a, b])] of two 2-D arrays with rows of one length. *)
Definition vstack (a b : ndarray) : ndarray :=
  mk_ndarray (nth 0 (shape a) 0 + nth 0 (shape b) 0 :: tl (shape a))
             (buf a ++ buf b).

Section Distance.

(** The metric catalog of SciPy: a metric name, its options and the
    observations select a function on pairs of vectors, or are rejected.
    The observations are there for the options that SciPy estimates from
    them when they are left out (the variances [V] of [seuclidean], the
    inverse covariance [VI] of [mahalanobis]); the other metrics do not
    look at them. *)
Variable metric_fn :
  string -> kwargs -> ndarray -> option (list Qc -> list Qc -> Qc).

(** [distance.pdist(X, metric, **kwargs)]: the distances of the rows
    [i < j] of [X], row by row, in condensed form. *)
Definition pdist (X : ndarray) (metric : string) (kw : kwargs)
  : result ndarray :=
  match metric_fn metric kw X with
  | None => raise (ValueError "Unknown Distance Metric")
  | Some d =>
      let n := nth 0 (shape X) 0 in
      let idx := triu_indices n 1 n in
      ret (mk_ndarray [length idx]
             (map (fun ij => d (nth (fst ij) (rows X) [])
                               (nth (snd ij) (rows X) [])) idx))
  end.

(** [distance.cdist(XA, XB, metric, **kwargs)]: the matrix of the
    distances from each row of [XA] to each row of [XB].  The options left
    out are estimated from [XA] and [XB] together. *)
Definition cdist (XA XB : ndarray) (metric : string) (kw : kwargs)
  : result ndarray :=
  match metric_fn metric kw (vstack XA XB) with
  | None => raise (ValueError "Unknown Distance Metric")
  | Some d =>
      ret (mk_ndarray [nth 0 (shape XA) 0; nth 0 (shape XB) 0]
             (flat_map (fun u => map (fun v => d u v) (rows XB)) (rows XA)))
  end.

(* ================================================================ *)
(** * [compute_dsm] and [compute_dsm_cv] *)
(* ================================================================ *)

Definition compute_dsm (data : ndarray) (metric : string) (kw : kwargs)
  : result ndarray :=
  n <- len data ;;
  X <- reshape data [n] ;;
  match shape X with
  | [n_items; n_features] =>
      (* Be careful with certain metrics *)
      if (n_features =? 1) && str_in metric ["correlation"; "cosine"]
      then raise (ValueError single_feature_msg)
      else pdist X metric kw
  | _ => raise (ValueError "not enough values to unpack")
  end.

(** [X_mean - (X_mean - X_test) / (n_folds - 1)] *)
Definition x_train (X_mean X_test : ndarray) (n_folds : nat) : ndarray :=
  sub X_mean (divs (sub X_mean X_test) (of_nat (n_folds - 1))).

(** One round of the cross-validation loop: the distances from the
    train estimate to the test fold are added to [dsm]. *)
Definition cv_step (X X_mean : ndarray) (n_folds : nat)
           (metric : string) (kw : kwargs)
           (dsm : ndarray) (test_fold : nat) : result ndarray :=
  let X_test := item X test_fold in
  let X_train := x_train X_mean X_test n_folds in
  dist <- cdist X_train X_test metric kw ;;
  ret (add dsm (take_pairs dist (triu_indices_from dist 1))).

Definition compute_dsm_cv (folds : ndarray) (metric : string) (kw : kwargs)
  : result ndarray :=
  s0 <- shape_at folds 0 ;;
  s1 <- shape_at folds 1 ;;
  X <- reshape folds [s0; s1] ;;
  match shape X with
  | [n_folds; n_items; n_features] =>
      (* Be careful with certain metrics *)
      if (n_features =? 1) && str_in metric ["correlation"; "cosine"]
      then raise (ValueError single_feature_msg)
      else
        let dsm := zeros ((n_items * (n_items - 1)) / 2) in
        let X_mean := mean_axis0 X in
        (* Do cross-validation *)
        dsm <- fold_result (cv_step X X_mean n_folds metric kw)
                           (seq 0 n_folds) dsm ;;
        ret (divs dsm (of_nat n_folds))
  | _ => raise (ValueError "not enough values to unpack")
  end.

End Distance.

(* ================================================================== *)
(** * Decidable equality of arrays, and small arrays to compute on *)
(* ================================================================== *)

Definition Qc_eqb (x y : Qc) : bool := Qeq_bool x y.

Fixpoint list_eqb {A} (eqb : A -> A -> bool) (l1 l2 : list A) : bool :=
  match l1, l2 with
  | [], [] => true
  | x :: l1', y :: l2' => eqb x y && list_eqb eqb l1' l2'
  | _, _ => false
  end.

Definition nd_eqb (a b : ndarray) : bool :=
  list_eqb Nat.eqb (shape a) (shape b) && list_eqb Qc_eqb (buf a) (buf b).

(** An array of integers, given by its shape and its elements. *)
Definition array_of (dims : list nat) (elems : list Z) : ndarray :=
  mk_ndarray dims (map (fun z => Q2Qc (inject_Z z)) elems).

(** Two folds, one item, two features: fold 0 is [[1, 2]], fold 1 is
    [[3, 6]]. *)
Definition two_folds : ndarray := array_of [2; 1; 2] [1; 2; 3; 6]%Z.

(** The buffer of [pdist(Y)] under the metric function [d]. *)
Definition pdist_buf (d : list Qc -> list Qc -> Qc) (Y : ndarray) : list Qc :=
  map (fun ij => d (nth (fst ij) (rows Y) []) (nth (snd ij) (rows Y) []))
      (triu_indices (nth 0 (shape Y) 0) 1 (nth 0 (shape Y) 0)).

(** The result is the error of the single-feature check. *)
Definition is_single_feature_error {A} (r : result A) : bool :=
  match r with
  | inl (ValueError msg) => String.eqb msg single_feature_msg
  | _ => false
  end.

(** A catalog that knows the squared Euclidean distance only. *)
Definition sqeuclidean_only (metric : string) (kw : kwargs)
           (observations : ndarray)
  : option (list Qc -> list Qc -> Qc) :=
  if String.eqb metric "sqeuclidean" then Some sqeuclidean else None.





(** Three items of one feature each, and two folds of them. *)
Definition three_scalars : ndarray := array_of [3; 1] [1; 2; 4]%Z.
Definition two_folds_of_scalars : ndarray :=
  array_of [2; 3; 1] [1; 2; 4; 2; 3; 5]%Z.

(** Modelled from the spec: [_create_folds] lives in [rsa/folds.py],
    outside [rsa/dsm.py].  Without duplicates to average it gives one
    fold that wraps the original data, with a new leading axis of
    length 1. *)
Definition wrap_single_fold (data : ndarray) (y : option ndarray)
           (n_folds : Z) (n_jobs : option Z) : result ndarray :=
  ret (mk_ndarray (1 :: shape data) (buf data)).

(** Two items on two series and three samples, and the distances of the
    two series. *)
Definition two_series_data : ndarray :=
  array_of [2; 2; 3] [1; 2; 3; 4; 5; 6; 2; 3; 4; 10; 9; 8]%Z.
Definition two_series_dist : ndarray := array_of [2; 2] [0; 1; 1; 0]%Z.

(** A matrix of distances without any row: no series. *)
Definition no_series_dist : ndarray := mk_ndarray [0; 2] [].


(** Two identical folds of three items with two features each. *)
Definition identical_folds : ndarray :=
  array_of [2; 3; 2] [1; 2; 2; 3; 10; 9; 1; 2; 2; 3; 10; 9]%Z.

(** The result is the array [expected]. *)
Definition returns (r : result ndarray) (expected : ndarray) : bool :=
  match r with
  | inr a => nd_eqb a expected
  | inl _ => false
  end.

(** A 2 x 3 array (not square) and a 1 x 1 x 1 array (neither a matrix
    nor a vector). *)
Definition not_square : ndarray := array_of [2; 3] [0; 1; 2; 1; 0; 3]%Z.
Definition three_axes : ndarray := array_of [1; 1; 1] [0]%Z.

(** One series at distance 0 from itself. *)
Definition one_series_dist : ndarray := array_of [1; 1] [0]%Z.


(* ================================================================== *)
(** * [_ensure_condensed] *)
(* ================================================================== *)

(** The argument of [_ensure_condensed]: an array, or a Python list of
    such arguments. *)
#[warnings="-register-all"]
Inductive dsm_arg : Type :=
| PyArray (a : ndarray)
| PyList (l : list dsm_arg).

(** The two messages, as the literals of the source: adjacent literals
    joined, the placeholder [%s] left as it is written. *)
Definition invalid_dimensions_msg : string :=
  ("Invalid dimensions for " ++ dquote ++ "%s" ++ dquote ++ ". The DSM should " ++
   "either be a square matrix, or a one dimensional " ++
   "array when in condensed form.")%string.

Definition invalid_ndim_msg : string :=
  ("Invalid number of dimensions for " ++ dquote ++ "%s" ++ dquote ++ ". The DSM " ++
   "should either be a square matrix, or a one " ++
   "dimensional array when in condensed form.")%string.

Section Condensed.

(** [distance.squareform] of SciPy, which checks its argument itself. *)
Variable squareform : ndarray -> result ndarray.

Fixpoint _ensure_condensed (dsm : dsm_arg) (var_name : string)
  : result dsm_arg :=
  match dsm with
  | PyList ds =>
      cs <- (fix each (l : list dsm_arg) : result (list dsm_arg) :=
               match l with
               | [] => ret []
               | d :: l' =>
                   c <- _ensure_condensed d var_name ;;
                   cs <- each l' ;;
                   ret (c :: cs)
               end) ds ;;
      ret (PyList cs)
  | PyArray a =>
      if ndim a =? 2 then
        if negb (nth 0 (shape a) 0 =? nth 1 (shape a) 0)
        then raise (ValueError invalid_dimensions_msg)
        else c <- squareform a ;; ret (PyArray c)
      else if negb (ndim a =? 1)
      then raise (ValueError invalid_ndim_msg)
      else ret (PyArray a)
  end.

End Condensed.

(* ================================================================== *)
(** * Generators *)
(* ================================================================== *)

(** How a generator stops: it returns, or an exception leaves it. *)
Inductive stop : Type :=
| StopIteration
| Raised (e : exception).

(** What a consumer sees when it exhausts a generator. *)
Record trace (A : Type) : Type := mk_trace { yielded : list A; stopped : stop }.
Arguments mk_trace {A}.
Arguments yielded {A}.
Arguments stopped {A}.

(** What the first [next(gen)] gives: a value, or how the generator
    stopped before yielding one. *)
Definition first_next {A} (t : trace A) : stop + A :=
  match yielded t with
  | x :: _ => inr x
  | [] => inl (stopped t)
  end.

(** [for x in xs: yield step(x)]: the values of the steps up to the first
    one that raises. *)
Fixpoint yield_each {A} (steps : list (result A)) : trace A :=
  match steps with
  | [] => mk_trace [] StopIteration
  | inl e :: _ => mk_trace [] (Raised e)
  | inr v :: steps' =>
      let t := yield_each steps' in
      mk_trace (v :: yielded t) (stopped t)
  end.

(** A generator whose body raises before its first [yield]. *)
Definition yield_after {A B} (setup : result A) (body : A -> trace B) : trace B :=
  match setup with
  | inl e => mk_trace [] (Raised e)
  | inr a => body a
  end.

(** What [joblib.Parallel(...)(tasks)] hands back: a list (the default of
    joblib, and what the call sites of this module get), or an iterator
    over the results. *)
Inductive parallel_output : Type :=
| AsList
| AsGenerator.

(** [next(obj)] on the object that [Parallel] returned, inside a
    generator: a list is not an iterator, and a [StopIteration] that
    escapes a generator body becomes a [RuntimeError]. *)
Definition next_of_parallel {A} (kind : parallel_output) (results : list A)
  : result A :=
  match kind with
  | AsList => raise (TypeError "'list' object is not an iterator")
  | AsGenerator =>
      match results with
      | [] => raise (RuntimeError "generator raised StopIteration")
      | x :: _ => ret x
      end
  end.

(** The series within [spatial_radius] of a center, given the center's row
    of the distance matrix:
    [np.flatnonzero(series_dist < spatial_radius)]. *)
Definition neighborhood (series_dist : ndarray) (spatial_radius : Qc)
  : list nat :=
  flatnonzero (map (fun d => Qc_ltb d spatial_radius) (buf series_dist)).

(** [data.shape[-1]] *)
Definition last_dim (a : ndarray) : result nat :=
  match shape a with
  | [] => raise (IndexError "tuple index out of range")
  | _ => ret (last (shape a) 0)
  end.

(** [dist[series]] *)
Definition getitem (a : ndarray) (i : nat) : result ndarray :=
  n <- match shape a with
       | [] => raise (IndexError "too many indices for array")
       | n :: _ => ret n
       end ;;
  if i <? n then ret (item a i)
  else raise (IndexError "index is out of bounds for axis 0").

(** [for x in a] *)
Definition iter (a : ndarray) : result (list ndarray) :=
  match shape a with
  | [] => raise (TypeError "iteration over a 0-d array")
  | _ => ret (items a)
  end.

(** The name under which the function chosen by
    [dsm_func = compute_dsm if len(folds) == 1 else compute_dsm_cv]
    appears in error messages.  The wrapper that joblib's [delayed] puts
    around it keeps that name. *)
Definition dsm_func_name (n : nat) : string :=
  if n =? 1 then "rsa.dsm.compute_dsm" else "rsa.dsm.compute_dsm_cv".

Section Searchlight.

Variable metric_fn :
  string -> kwargs -> ndarray -> option (list Qc -> list Qc -> Qc).

(** The fold builder of [rsa/folds.py]:
    [_create_folds(data, y, n_folds, n_jobs)], the last argument
    optional.  It returns an array of folds x items x ... . *)
Variable _create_folds :
  ndarray -> option ndarray -> Z -> option Z -> result ndarray.

(** What [Parallel(n_jobs)(...)] returns. *)
Variable parallel_returns : parallel_output.

(** [dsm_func = compute_dsm if len(folds) == 1 else compute_dsm_cv] *)
Definition select_dsm_func (n : nat)
  : ndarray -> string -> kwargs -> result ndarray :=
  if n =? 1 then compute_dsm metric_fn else compute_dsm_cv metric_fn.

(** [dsm_func(patch, dist_metric, **dist_params)] *)
Definition call_dsm_func (n : nat) (patch : ndarray) (dist_metric : string)
           (dist_params : option kwargs) : result ndarray :=
  kw <- expand_kwargs (dsm_func_name n) dist_params ;;
  select_dsm_func n patch dist_metric kw.

(** The progress bar ([verbose]) is not part of the model. *)
Definition dsm_spat (data dist : ndarray) (spatial_radius : Qc)
           (dist_metric : string) (dist_params : option kwargs)
           (y : option ndarray) (n_folds : Z) : trace ndarray :=
  yield_after
    ((* Create folds for cross-validated DSM metrics *)
     folds <- _create_folds data y n_folds None ;;
     n <- len folds ;;
     series <- iter dist ;;
     ret (folds, n, series))
    (fun '(folds, n, series) =>
       (* Iterate over space *)
       yield_each
         (map (fun series_dist =>
                 (* Construct a searchlight patch of the given radius *)
                 patch <- take_axis2 folds
                            (neighborhood series_dist spatial_radius) ;;
                 call_dsm_func n patch dist_metric dist_params)
              series)).

Definition dsm_temp (data : ndarray) (temporal_radius : Z)
           (dist_metric : string) (dist_params : option kwargs)
           (y : option ndarray) (n_folds : Z) : trace ndarray :=
  yield_after
    (n_samples <- last_dim data ;;
     (* Iterate over time *)
     let centers :=
       _get_time_patch_centers (Z.of_nat n_samples) temporal_radius in
     (* Create folds for cross-validated DSM metrics *)
     folds <- _create_folds data y n_folds None ;;
     n <- len folds ;;
     ret (centers, folds, n))
    (fun '(centers, folds, n) =>
       yield_each
         (map (fun center =>
                 (* Construct a searchlight patch of the given radius *)
                 patch <- slice_last folds (center - temporal_radius)
                                           (center + temporal_radius) ;;
                 call_dsm_func n patch dist_metric dist_params)
              centers)).

(** The patches of [patch_iterator], in the order it yields them: for
    each series, for each center. *)
Definition patch_iterator (folds dist : ndarray) (spatial_radius : Qc)
           (temporal_radius : Z) (n_series : nat) (centers : list Z)
  : list (result ndarray) :=
  flat_map
    (fun series =>
       map (fun sample =>
              row <- getitem dist series ;;
              if ndim folds <? 4
              then raise (IndexError "too many indices for array")
              else
                windowed <- slice_last folds (sample - temporal_radius)
                                             (sample + temporal_radius) ;;
                take_axis2 windowed (neighborhood row spatial_radius))
           centers)
    (seq 0 n_series).

(** [Parallel(n_jobs)(delayed(f)(...) for ...)]: every task is run and
    the results are collected in order; the first failure is raised. *)
Definition Parallel {A} (tasks : list (result A)) : result (list A) :=
  map_result (fun t => t) tasks.

Definition dsm_spattemp (data dist : ndarray) (spatial_radius : Qc)
           (temporal_radius : Z) (dist_metric : string)
           (dist_params : option kwargs) (y : option ndarray)
           (n_folds n_jobs : Z) : trace ndarray :=
  yield_after
    (dims <- match shape data with
             | [_; n_series; n_samples] => ret (n_series, n_samples)
             | _ => raise (ValueError "wrong number of values to unpack")
             end ;;
     let '(n_series, n_samples) := dims in
     (* Create folds for cross-validated DSM metrics *)
     folds <- _create_folds data y n_folds (Some n_jobs) ;;
     let centers :=
       _get_time_patch_centers (Z.of_nat n_samples) temporal_radius in
     n <- len folds ;;
     (* Compute a DSM for each searchlight patch, use multiple cores. *)
     dsm_gen <- Parallel
                  (map (fun p =>
                          patch <- p ;;
                          call_dsm_func n patch dist_metric dist_params)
                       (patch_iterator folds dist spatial_radius
                                       temporal_radius n_series centers)) ;;
     next_of_parallel parallel_returns dsm_gen)
    (fun first => mk_trace [first] StopIteration).

End Searchlight.

(* ================================================================== *)
(** * Arrays in a store: who may write where *)
(* ================================================================== *)

(** The functions above compute values.  To say that an array of the
    caller is left as it was, the arrays live in a store: the arrays of the
    caller, the arrays that the code updates in place ([dsm += ...]), and
    the arrays it hands back.  Temporaries that are never written after
    they are made ([X_mean], [X_train], [dist]) stay values.  An array
    object is the cell it reads and the way it reads it: a base array reads
    its cell as it is, a view ([np.reshape], basic indexing) reads a part
    of the cell of another array. *)
Module Store.

Definition heap : Type := list ndarray.

Record ref : Type := mk_ref { base : nat; view : ndarray -> ndarray }.

Definition empty_array : ndarray := mk_ndarray [] [].

(** What the array object [r] holds in the store [h]. *)
Definition read (h : heap) (r : ref) : ndarray :=
  view r (nth (base r) h empty_array).

(** A computation on the store: a result, or an exception, and the store
    it leaves. *)
Definition M (A : Type) : Type := heap -> result A * heap.

Definition ret {A} (a : A) : M A := fun h => (inr a, h).
Definition bind {A B} (m : M A) (f : A -> M B) : M B :=
  fun h => match m h with
           | (inl e, h') => (inl e, h')
           | (inr a, h') => f a h'
           end.
Definition lift {A} (r : result A) : M A := fun h => (r, h).

Notation "x <~ m ;; k" := (bind m (fun x => k))
  (at level 61, m at next level, right associativity).

(** Reading an array object. *)
Definition get (r : ref) : M ndarray := fun h => (inr (read h r), h).

Definition get_opt (r : option ref) : M (option ndarray) :=
  match r with
  | None => ret None
  | Some r => a <~ get r ;; ret (Some a)
  end.

(** A new base array. *)
Definition new (a : ndarray) : M ref :=
  fun h => (inr (mk_ref (length h) (fun x => x)), h ++ [a]).

Definition update (l : nat) (a : ndarray) (h : heap) : heap :=
  if l <? length h then firstn l h ++ a :: skipn (S l) h else h.

(** [dst += v] on a base array [dst]: the cell of [dst] is overwritten. *)
Definition iadd (dst : ref) (v : ndarray) : M unit :=
  fun h => (inr tt, update (base dst) (add (nth (base dst) h empty_array) v) h).

(** [for x in xs: body(x)] *)
Fixpoint for_each {A} (xs : list A) (body : A -> M unit) : M unit :=
  match xs with
  | [] => ret tt
  | x :: xs' => _ <~ body x ;; for_each xs' body
  end.

(** [np.reshape(a, known + (-1,))]: a view of [a]. *)
Definition np_reshape (a : ref) (known : list nat) : M ref :=
  x <~ get a ;;
  _ <~ lift (reshape x known) ;;
  ret (mk_ref (base a)
              (fun cell => match reshape (view a cell) known with
                           | inr y => y
                           | inl _ => view a cell
                           end)).

(** [a[i]]: a view of [a]. *)
Definition item_view (a : ref) (i : nat) : ref :=
  mk_ref (base a) (fun cell => item (view a cell) i).

(** [a[..., lo:hi]]: a view of [a]. *)
Definition slice_last_view (a : ref) (lo hi : Z) : M ref :=
  x <~ get a ;;
  _ <~ lift (slice_last x lo hi) ;;
  ret (mk_ref (base a)
              (fun cell => match slice_last (view a cell) lo hi with
                           | inr y => y
                           | inl _ => view a cell
                           end)).

Section Computers.

Variable metric_fn :
  string -> kwargs -> ndarray -> option (list Qc -> list Qc -> Qc).

(** The options are values: a call that hands SciPy a buffer of the caller
    to write the distances to ([out=]) is not in this model.  Without
    one, what [pdist] returns is a new array. *)
Definition compute_dsm (data : ref) (metric : string) (kw : kwargs) : M ref :=
  d <~ get data ;;
  n <~ lift (len d) ;;
  X <~ np_reshape data [n] ;;
  x <~ get X ;;
  match shape x with
  | [n_items; n_features] =>
      if (n_features =? 1) && str_in metric ["correlation"; "cosine"]
      then lift (raise (ValueError single_feature_msg))
      else
        dsm <~ lift (pdist metric_fn x metric kw) ;;
        new dsm
  | _ => lift (raise (ValueError "not enough values to unpack"))
  end.

(** One round of the loop: [dsm += dist[np.triu_indices_from(dist, 1)]]. *)
Definition cv_round (X : ref) (X_mean : ndarray) (n_folds : nat)
           (metric : string) (kw : kwargs) (dsm : ref) (test_fold : nat)
  : M unit :=
  X_test <~ get (item_view X test_fold) ;;
  let X_train := x_train X_mean X_test n_folds in
  dist <~ lift (cdist metric_fn X_train X_test metric kw) ;;
  iadd dsm (take_pairs dist (triu_indices_from dist 1)).

Definition compute_dsm_cv (folds : ref) (metric : string) (kw : kwargs)
  : M ref :=
  f <~ get folds ;;
  s0 <~ lift (shape_at f 0) ;;
  s1 <~ lift (shape_at f 1) ;;
  X <~ np_reshape folds [s0; s1] ;;
  x <~ get X ;;
  match shape x with
  | [n_folds; n_items; n_features] =>
      if (n_features =? 1) && str_in metric ["correlation"; "cosine"]
      then lift (raise (ValueError single_feature_msg))
      else
        dsm <~ new (zeros ((n_items * (n_items - 1)) / 2)) ;;
        X_mean <~ (x <~ get X ;; ret (mean_axis0 x)) ;;
        _ <~ for_each (seq 0 n_folds)
                      (cv_round X X_mean n_folds metric kw dsm) ;;
        total <~ get dsm ;;
        new (divs total (of_nat n_folds))
  | _ => lift (raise (ValueError "not enough values to unpack"))
  end.

(** [dsm_func(patch, dist_metric, **dist_params)] *)
Definition call_dsm_func (n : nat) (patch : ref) (dist_metric : string)
           (dist_params : option kwargs) : M ref :=
  kw <~ lift (expand_kwargs (dsm_func_name n) dist_params) ;;
  if n =? 1 then compute_dsm patch dist_metric kw
  else compute_dsm_cv patch dist_metric kw.

(** The fold builder reads the data and the labels.  What it hands back
    is an array of its own, or a view of the data (without duplicates the
    folds wrap the original data). *)
Variable _create_folds :
  ndarray -> option ndarray -> Z -> option Z -> result ndarray.
Variable folds_share_data : bool.

Definition create_folds (data : ref) (y : option ref) (n_folds : Z)
           (n_jobs : option Z) : M ref :=
  d <~ get data ;;
  labels <~ get_opt y ;;
  folds <~ lift (_create_folds d labels n_folds n_jobs) ;;
  if folds_share_data
  then ret (mk_ref (base data)
                   (fun cell =>
                      match _create_folds (view data cell) labels
                                          n_folds n_jobs with
                      | inr f => f
                      | inl _ => view data cell
                      end))
  else new folds.

Variable parallel_returns : parallel_output.

(** A generator run to its end: its trace and the store it leaves. *)
Definition G (A : Type) : Type := heap -> trace A * heap.

Fixpoint yield_each {A} (steps : list (M A)) : G A :=
  match steps with
  | [] => fun h => (mk_trace [] StopIteration, h)
  | step :: steps' =>
      fun h => match step h with
               | (inl e, h') => (mk_trace [] (Raised e), h')
               | (inr v, h') =>
                   let '(t, h'') := yield_each steps' h' in
                   (mk_trace (v :: yielded t) (stopped t), h'')
               end
  end.

Definition yield_after {A B} (setup : M A) (body : A -> G B) : G B :=
  fun h => match setup h with
           | (inl e, h') => (mk_trace [] (Raised e), h')
           | (inr a, h') => body a h'
           end.

(** One round of the loop of [dsm_spat], for the [i]-th row of [dist]:
    the patch is a copy, the DSM function gets it. *)
Definition spat_step (folds dist : ref) (spatial_radius : Qc) (n : nat)
           (dist_metric : string) (dist_params : option kwargs) (i : nat)
  : M ref :=
  series_dist <~ get (item_view dist i) ;;
  f <~ get folds ;;
  patch <~ lift (take_axis2 f (neighborhood series_dist spatial_radius)) ;;
  patch <~ new patch ;;
  call_dsm_func n patch dist_metric dist_params.

Definition dsm_spat (data dist : ref) (spatial_radius : Qc)
           (dist_metric : string) (dist_params : option kwargs)
           (y : option ref) (n_folds : Z) : G ref :=
  yield_after
    (folds <~ create_folds data y n_folds None ;;
     f <~ get folds ;;
     n <~ lift (len f) ;;
     d <~ get dist ;;
     series <~ lift (iter d) ;;
     ret (folds, n, length series))
    (fun '(folds, n, n_series) =>
       yield_each
         (map (spat_step folds dist spatial_radius n dist_metric dist_params)
              (seq 0 n_series))).

(** One round of the loop of [dsm_temp]: the patch is a view of the
    folds. *)
Definition temp_step (folds : ref) (temporal_radius : Z) (n : nat)
           (dist_metric : string) (dist_params : option kwargs) (center : Z)
  : M ref :=
  patch <~ slice_last_view folds (center - temporal_radius)
                                 (center + temporal_radius) ;;
  call_dsm_func n patch dist_metric dist_params.

Definition dsm_temp (data : ref) (temporal_radius : Z)
           (dist_metric : string) (dist_params : option kwargs)
           (y : option ref) (n_folds : Z) : G ref :=
  yield_after
    (d <~ get data ;;
     n_samples <~ lift (last_dim d) ;;
     let centers :=
       _get_time_patch_centers (Z.of_nat n_samples) temporal_radius in
     folds <~ create_folds data y n_folds None ;;
     f <~ get folds ;;
     n <~ lift (len f) ;;
     ret (centers, folds, n))
    (fun '(centers, folds, n) =>
       yield_each
         (map (temp_step folds temporal_radius n dist_metric dist_params)
              centers)).

(** One task of [Parallel]: the patch of a (series, center) pair is cut
    out of the folds (a copy) and handed to the DSM function. *)
Definition patch_task (folds dist : ref) (spatial_radius : Qc)
           (temporal_radius : Z) (n : nat) (dist_metric : string)
           (dist_params : option kwargs) (series : nat) (sample : Z)
  : M ref :=
  d <~ get dist ;;
  row <~ lift (getitem d series) ;;
  f <~ get folds ;;
  patch <~ lift (if ndim f <? 4
                 then raise (IndexError "too many indices for array")
                 else
                   windowed <- slice_last f (sample - temporal_radius)
                                            (sample + temporal_radius) ;;
                   take_axis2 windowed (neighborhood row spatial_radius)) ;;
  patch <~ new patch ;;
  call_dsm_func n patch dist_metric dist_params.

Fixpoint run_all {A} (tasks : list (M A)) : M (list A) :=
  match tasks with
  | [] => ret []
  | t :: tasks' => x <~ t ;; xs <~ run_all tasks' ;; ret (x :: xs)
  end.

Definition dsm_spattemp (data dist : ref) (spatial_radius : Qc)
           (temporal_radius : Z) (dist_metric : string)
           (dist_params : option kwargs) (y : option ref)
           (n_folds n_jobs : Z) : G ref :=
  yield_after
    (d <~ get data ;;
     dims <~ lift (match shape d with
                   | [_; n_series; n_samples] => inr (n_series, n_samples)
                   | _ => raise (ValueError "wrong number of values to unpack")
                   end) ;;
     let '(n_series, n_samples) := dims in
     folds <~ create_folds data y n_folds (Some n_jobs) ;;
     let centers :=
       _get_time_patch_centers (Z.of_nat n_samples) temporal_radius in
     f <~ get folds ;;
     n <~ lift (len f) ;;
     dsm_gen <~ run_all
                  (flat_map
                     (fun series =>
                        map (patch_task folds dist spatial_radius
                                        temporal_radius n dist_metric
                                        dist_params series)
                            centers)
                     (seq 0 n_series)) ;;
     lift (next_of_parallel parallel_returns dsm_gen))
    (fun first => fun h => (mk_trace [first] StopIteration, h)).

End Computers.

(** A computation leaves the first [n] cells of the store as they are and
    frees none. *)
Definition frames {X} (n : nat) (c : heap -> X * heap) : Prop :=
  forall h, n <= length h ->
            length h <= length (snd (c h)) /\
            firstn n (snd (c h)) = firstn n h.

(** It does so, and its value satisfies [Q]. *)
Definition keeps {A} (n : nat) (m : M A) (Q : A -> Prop) : Prop :=
  frames n m /\
  forall h a, n <= length h -> fst (m h) = inr a -> Q a.

(** Run on the store [h], the computation [m] returns an array object
    that is alive and holds the value [v], or raises what [v] raises. *)
Definition computes (m : M ref) (v : result ndarray) (h : heap) : Prop :=
  match m h with
  | (inr out, h') => v = inr (read h' out) /\ base out < length h'
  | (inl e, _) => v = inl e
  end.

(** A store with three scalars as its only array, and that array. *)
Definition one_array : heap := [three_scalars].
Definition the_array : ref := mk_ref 0 (fun x => x).

End Store.

(* ================================================================== *)
(** * Condensed form: where a pair of items sits *)
(* ================================================================== *)

(** The position of the pair [(i, j)], [i < j], in the condensed form of
    [n] items: the rows [0 .. i-1] of the strict upper triangle come
    first. *)
Definition condensed_index (n i j : nat) : nat :=
  (i * (2 * n - i - 1)) / 2 + (j - i - 1).

(** Every array of the argument is one-dimensional. *)
Fixpoint is_condensed (dsm : dsm_arg) : bool :=
  match dsm with
  | PyArray a => ndim a =? 1
  | PyList l => forallb is_condensed l
  end.

(** The strict upper triangle of a matrix, row by row, as a vector. *)
Definition upper_triangle (a : ndarray) : result ndarray :=
  ret (take_pairs a (triu_indices_from a 1)).

(** Three folds of two items on two series and two samples. *)
Definition three_folds : ndarray :=
  array_of [3; 2; 2; 2]
           [1; 2; 3; 4; 5; 6; 7; 9;
            2; 1; 4; 3; 6; 5; 9; 7;
            0; 3; 2; 5; 4; 7; 8; 8]%Z.

(** A fold builder that returns [three_folds] whatever it is given. *)
Definition give_three_folds (data : ndarray) (y : option ndarray)
           (n_folds : Z) (n_jobs : option Z) : result ndarray :=
  ret three_folds.

(** A square DSM of two items, and a list of it and a condensed DSM. *)
Definition square_dsm : ndarray := array_of [2; 2] [0; 3; 3; 0]%Z.
Definition mixed_dsms : dsm_arg :=
  PyList [PyArray square_dsm; PyList [PyArray (array_of [1] [3]%Z)]].

(** A computation that hands back an array made during its run: the
    array's cell lies beyond the store it was started on, and within the
    store it leaves. *)
Definition allocates_its_result (m : Store.M Store.ref) : Prop :=
  forall h, match m h with
            | (inr out, h') => length h <= Store.base out < length h'
            | (inl _, h') => length h <= length h'
            end.


(** The folds of [three_folds], the first two exchanged. *)
Definition three_folds_reordered : ndarray :=
  array_of [3; 2; 2; 2]
           [2; 1; 4; 3; 6; 5; 9; 7;
            1; 2; 3; 4; 5; 6; 7; 9;
            0; 3; 2; 5; 4; 7; 8; 8]%Z.

(* ================================================================== *)
(** * Facts about [range] *)
(* ================================================================== *)

Lemma range_length a b : length (range a b) = Z.to_nat (b - a).
Proof. unfold range. now rewrite length_map, length_seq. Qed.

Lemma range_empty a b : (b <= a)%Z -> range a b = [].
Proof.
  intros H. unfold range.
  replace (Z.to_nat (b - a)) with 0%nat by lia. reflexivity.
Qed.

Lemma range_In a b c : In c (range a b) <-> (a <= c < b)%Z.
Proof.
  unfold range. rewrite in_map_iff. split.
  - intros (i & <- & Hi). apply in_seq in Hi. lia.
  - intros H. exists (Z.to_nat (c - a)). split; [lia|].
    apply in_seq. lia.
Qed.

Lemma range_nth a b i :
  (i < Z.to_nat (b - a))%nat -> nth i (range a b) 0%Z = (a + Z.of_nat i)%Z.
Proof.
  intros H. unfold range.
  rewrite (nth_indep _ 0%Z (a + Z.of_nat 0)%Z)
    by now rewrite length_map, length_seq.
  rewrite (map_nth (fun j => (a + Z.of_nat j)%Z)).
  now rewrite seq_nth.
Qed.

Lemma seq_map_sorted (a : Z) start len :
  StronglySorted Z.lt
    (map (fun i => (a + Z.of_nat i)%Z) (seq start len)).
Proof.
  revert start. induction len as [|len IH]; intros start; cbn.
  - constructor.
  - constructor; [apply IH|].
    apply Forall_forall. intros x Hx.
    apply in_map_iff in Hx. destruct Hx as (i & <- & Hi).
    apply in_seq in Hi. lia.
Qed.

Lemma range_sorted a b : StronglySorted Z.lt (range a b).
Proof. apply seq_map_sorted. Qed.

(* ================================================================== *)
(** * Temporal patch centers *)
(* ================================================================== *)

(** C4, as the code has it: the upper end [n_samples - temporal_radius] is
    itself a center, so the sequence is empty only when
    [2 * temporal_radius > n_samples]. *)
Theorem centers_empty_when_window_too_wide (n_samples temporal_radius : Z) :
  (n_samples < 2 * temporal_radius)%Z ->
  _get_time_patch_centers n_samples temporal_radius = [].
Proof.
  intros H. unfold _get_time_patch_centers. apply range_empty. lia.
Qed.

Lemma centers_empty_when_window_too_wide_witness :
  (10 < 2 * 6)%Z /\ _get_time_patch_centers 10 6 = [].
Proof.
  split; [lia|].
  apply (centers_empty_when_window_too_wide 10 6). lia.
Defined.

(** At [2 * temporal_radius = n_samples] one window fits exactly. *)
Lemma centers_single_when_window_fits_exactly (r : Z) :
  (0 <= r)%Z -> _get_time_patch_centers (2 * r) r = [r].
Proof.
  intros H. unfold _get_time_patch_centers, range.
  replace (2 * r - r + 1 - r)%Z with 1%Z by lia.
  change (Z.to_nat 1) with 1%nat. cbn. now rewrite Z.add_0_r.
Qed.

(** C4, as the specification states it, fails at its own example:
    [n_samples = 10], [temporal_radius = 5] has [2 * 5 >= 10] and the
    center list is [[5]]. *)
Lemma centers_10_5_not_empty :
  ~ (forall n_samples temporal_radius : Z,
        (2 * temporal_radius >= n_samples)%Z ->
        _get_time_patch_centers n_samples temporal_radius = []).
Proof.
  intros H. specialize (H 10%Z 5%Z ltac:(lia)). discriminate H.
Qed.

(** C8: for [2 * temporal_radius < n_samples] the centers are exactly the
    integers [temporal_radius .. n_samples - temporal_radius], ascending;
    for [n_samples = 10], [temporal_radius = 2] they are [[2..8]]. *)
Theorem centers_are_the_inclusive_interval (n_samples temporal_radius : Z) :
  (2 * temporal_radius < n_samples)%Z ->
  let centers := _get_time_patch_centers n_samples temporal_radius in
  (forall c, In c centers <->
             (temporal_radius <= c <= n_samples - temporal_radius)%Z)
  /\ StronglySorted Z.lt centers
  /\ Z.of_nat (length centers) = (n_samples - 2 * temporal_radius + 1)%Z
  /\ (forall i, (i < length centers)%nat ->
                nth i centers 0%Z = (temporal_radius + Z.of_nat i)%Z)
  /\ _get_time_patch_centers 10 2 = [2; 3; 4; 5; 6; 7; 8]%Z.
Proof.
  intros H centers. subst centers. unfold _get_time_patch_centers.
  split; [|split; [|split; [|split]]].
  - intros c. rewrite range_In. lia.
  - apply range_sorted.
  - rewrite range_length. lia.
  - intros i Hi. rewrite range_length in Hi. now apply range_nth.
  - reflexivity.
Qed.

Lemma centers_are_the_inclusive_interval_witness :
  (2 * 2 < 10)%Z /\
  (forall c, In c (_get_time_patch_centers 10 2) <-> (2 <= c <= 10 - 2)%Z).
Proof.
  split; [lia|].
  apply (centers_are_the_inclusive_interval 10 2). lia.
Defined.

(* ================================================================== *)
(** * Rational scalars *)
(* ================================================================== *)

Lemma Qc_eqb_eq (x y : Qc) : Qc_eqb x y = true <-> x = y.
Proof.
  unfold Qc_eqb. rewrite Qeq_bool_iff. split.
  - apply Qc_is_canon.
  - now intros ->.
Qed.

Lemma list_eqb_eq {A} (eqb : A -> A -> bool) :
  (forall x y, eqb x y = true <-> x = y) ->
  forall l1 l2, list_eqb eqb l1 l2 = true <-> l1 = l2.
Proof.
  intros Heq. induction l1 as [|x l1 IH]; intros [|y l2]; cbn;
    try (split; (reflexivity || discriminate)).
  rewrite andb_true_iff, Heq, IH. split.
  - now intros [-> ->].
  - intros [= -> ->]. now split.
Qed.

Lemma nd_eqb_eq (a b : ndarray) : nd_eqb a b = true <-> a = b.
Proof.
  unfold nd_eqb. rewrite andb_true_iff.
  rewrite (list_eqb_eq Nat.eqb Nat.eqb_eq), (list_eqb_eq Qc_eqb Qc_eqb_eq).
  destruct a, b; cbn. split.
  - now intros [-> ->].
  - intros [= -> ->]. now split.
Qed.

Lemma nd_eqb_neq (a b : ndarray) : nd_eqb a b = false -> a <> b.
Proof.
  intros H E. apply nd_eqb_eq in E. congruence.
Qed.

Lemma of_nat_S (n : nat) : of_nat (S n) = (of_nat n + 1)%Qc.
Proof.
  unfold of_nat. apply Qc_is_canon.
  unfold Qcplus. cbn [this Q2Qc].
  rewrite !Qred_correct.
  rewrite Nat2Z.inj_succ. unfold Z.succ.
  rewrite inject_Z_plus. reflexivity.
Qed.


Lemma of_nat_nonzero (n : nat) : 0 < n -> of_nat n <> 0%Qc.
Proof.
  intros Hn E. unfold of_nat in E.
  change 0%Qc with (Q2Qc 0) in E.
  apply Q2Qc_eq_iff in E.
  unfold Qeq in E. cbn in E. lia.
Qed.

Lemma of_nat_pred (n : nat) : 0 < n -> of_nat (n - 1) = (of_nat n - 1)%Qc.
Proof.
  intros Hn. destruct n as [|n]; [lia|].
  replace (S n - 1) with n by lia. rewrite of_nat_S. ring.
Qed.

(* ================================================================== *)
(** * Vectors: element-wise operations *)
(* ================================================================== *)

Lemma map2_length {A B C} (f : A -> B -> C) l1 l2 :
  length (map2 f l1 l2) = Nat.min (length l1) (length l2).
Proof.
  revert l2. induction l1 as [|x l1 IH]; intros [|y l2]; cbn; auto.
Qed.

Lemma vadd_comm u v : vadd u v = vadd v u.
Proof.
  unfold vadd. revert v. induction u as [|x u IH]; intros [|y v]; cbn; auto.
  now rewrite IH, Qcplus_comm.
Qed.

Lemma vadd_assoc u v w : vadd (vadd u v) w = vadd u (vadd v w).
Proof.
  unfold vadd. revert v w.
  induction u as [|x u IH]; intros [|y v] [|z w]; cbn; auto.
  now rewrite IH, Qcplus_assoc.
Qed.

Lemma fold_left_vadd_acc l a b :
  fold_left vadd l (vadd a b) = vadd a (fold_left vadd l b).
Proof.
  revert a b. induction l as [|c l IH]; intros a b; cbn; auto.
  now rewrite vadd_assoc, IH.
Qed.

Lemma vsum_cons a l : l <> [] -> vsum (a :: l) = vadd a (vsum l).
Proof.
  destruct l as [|b l]; [congruence|]. intros _. cbn.
  apply fold_left_vadd_acc.
Qed.

Lemma delete_nth_cons {A} k (a : A) l :
  delete_nth (S k) (a :: l) = a :: delete_nth k l.
Proof. reflexivity. Qed.

Lemma delete_nth_length {A} k (l : list A) :
  k < length l -> length (delete_nth k l) = length l - 1.
Proof.
  intros H. unfold delete_nth.
  rewrite length_app, length_firstn, length_skipn. lia.
Qed.

(** The sum of the folds is the fold left out plus the sum of the rest. *)
Lemma vsum_delete k bs :
  k < length bs -> 2 <= length bs ->
  vsum bs = vadd (nth k bs []) (vsum (delete_nth k bs)).
Proof.
  revert bs. induction k as [|k IH]; intros [|a l] Hk Hlen; cbn in Hk, Hlen;
    try lia.
  - unfold delete_nth. cbn [firstn skipn app nth].
    apply vsum_cons. destruct l; cbn in Hlen; [lia|congruence].
  - rewrite delete_nth_cons. cbn [nth].
    destruct l as [|b [|c l]]; cbn in Hk, Hlen; try lia.
    + assert (k = 0) as -> by lia. cbn. apply vadd_comm.
    + rewrite vsum_cons by congruence.
      rewrite (IH (b :: c :: l)) by (cbn; lia).
      rewrite vsum_cons.
      * rewrite <- !vadd_assoc. f_equal. apply vadd_comm.
      * intros E. apply (f_equal (@length _)) in E.
        rewrite delete_nth_length in E by (cbn; lia). cbn in E. lia.
Qed.

Lemma Forall_length_nth {A m} {L : list (list A)} i :
  Forall (fun b => length b = m) L -> i < length L -> length (nth i L []) = m.
Proof.
  intros H Hi. rewrite Forall_forall in H. apply H. now apply nth_In.
Qed.

Lemma block_concat {A} m (L : list (list A)) i :
  Forall (fun b => length b = m) L -> i < length L ->
  block m i (concat L) = nth i L [].
Proof.
  unfold block. revert i. induction L as [|b L IH]; intros i HL Hi;
    cbn in Hi; [lia|].
  inversion HL as [|? ? Hb HL']; subst.
  destruct i as [|i]; cbn [concat nth].
  - cbn [Nat.mul skipn]. rewrite firstn_app, Nat.sub_diag, firstn_all.
    cbn. apply app_nil_r.
  - replace (S i * length b) with (i * length b + length b) by lia.
    rewrite <- skipn_skipn.
    rewrite skipn_app, skipn_all, Nat.sub_diag. cbn [app skipn].
    apply IH; [assumption|lia].
Qed.

Lemma block_length {A} m i (l : list A) :
  (S i) * m <= length l -> length (block m i l) = m.
Proof.
  intros H. unfold block. rewrite length_firstn, length_skipn. lia.
Qed.

(** The blocks of a buffer, put back together. *)
Lemma concat_blocks {A} m n (l : list A) :
  length l = n * m ->
  concat (map (fun i => block m i l) (seq 0 n)) = l.
Proof.
  revert l. induction n as [|n IH]; intros l Hl.
  - destruct l; [reflexivity|discriminate].
  - rewrite seq_S, map_app, concat_app. cbn [map concat Nat.add].
    rewrite app_nil_r.
    transitivity (firstn (n * m) l ++ skipn (n * m) l);
      [|apply firstn_skipn].
    f_equal.
    + rewrite <- (IH (firstn (n * m) l)).
      * f_equal. apply map_ext_in. intros i Hi. apply in_seq in Hi.
        unfold block. rewrite skipn_firstn_comm, firstn_firstn.
        f_equal. assert ((S i) * m <= n * m) by (apply Nat.mul_le_mono_r; lia).
        lia.
      * rewrite length_firstn. lia.
    + unfold block. apply firstn_all2. rewrite length_skipn. lia.
Qed.

Lemma map_nth_seq {A} (L : list A) d :
  map (fun i => nth i L d) (seq 0 (length L)) = L.
Proof.
  induction L as [|a L IH]; [reflexivity|].
  cbn [length seq map nth]. f_equal.
  rewrite <- seq_shift, map_map. exact IH.
Qed.

Lemma blocks_of_concat {A} m (L : list (list A)) :
  Forall (fun b => length b = m) L ->
  map (fun i => block m i (concat L)) (seq 0 (length L)) = L.
Proof.
  intros HL. rewrite <- (map_nth_seq L []) at 2.
  apply map_ext_in. intros i Hi. apply in_seq in Hi.
  apply block_concat; [assumption|lia].
Qed.

Lemma delete_nth_map {A B} (f : A -> B) k l :
  delete_nth k (map f l) = map f (delete_nth k l).
Proof.
  unfold delete_nth. now rewrite map_app, firstn_map, skipn_map.
Qed.

Lemma delete_nth_Forall {A} (P : A -> Prop) k l :
  Forall P l -> Forall P (delete_nth k l).
Proof.
  intros H. unfold delete_nth. apply Forall_app. split.
  - rewrite <- (firstn_skipn k l) in H. now apply Forall_app in H.
  - rewrite <- (firstn_skipn (S k) l) in H. now apply Forall_app in H.
Qed.

Lemma fold_left_vadd_length m l b :
  Forall (fun c => length c = m) l -> length b = m ->
  length (fold_left vadd l b) = m.
Proof.
  revert b. induction l as [|c l IH]; intros b Hl Hb; cbn; [assumption|].
  inversion Hl; subst. apply IH; [assumption|].
  unfold vadd. rewrite map2_length. lia.
Qed.

Lemma vsum_length m L :
  Forall (fun c => length c = m) L -> L <> [] -> length (vsum L) = m.
Proof.
  intros HL Hne. destruct L as [|b L]; [congruence|].
  inversion HL; subst. now apply fold_left_vadd_length.
Qed.

(* ================================================================== *)
(** * Arrays: folds along the first axis *)
(* ================================================================== *)

(** The buffers of the folds of a well-formed array. *)
Lemma folds_buf (X : ndarray) {n rest} :
  shape X = n :: rest ->
  map buf (items X) = map (fun i => block (prod rest) i (buf X)) (seq 0 n).
Proof.
  intros Hs. unfold items, item. rewrite Hs, map_map. reflexivity.
Qed.

Lemma folds_buf_length {X : ndarray} {n rest} :
  wf X -> shape X = n :: rest ->
  Forall (fun b => length b = prod rest) (map buf (items X)).
Proof.
  intros Hwf Hs. rewrite (folds_buf X Hs).
  apply Forall_forall. intros b Hb.
  apply in_map_iff in Hb. destruct Hb as (i & <- & Hi).
  apply in_seq in Hi. apply block_length.
  unfold wf in Hwf. rewrite Hwf, Hs. cbn [prod fold_right].
  apply Nat.mul_le_mono_r. lia.
Qed.

Lemma items_length (X : ndarray) {n rest} :
  shape X = n :: rest -> length (items X) = n.
Proof.
  intros Hs. unfold items. now rewrite length_map, length_seq, Hs.
Qed.

Lemma nth_fold_buf (X : ndarray) {n rest k} :
  shape X = n :: rest -> k < n ->
  nth k (map buf (items X)) [] = buf (item X k).
Proof.
  intros Hs Hk. unfold items.
  rewrite map_map, Hs. cbn [hd].
  rewrite (nth_indep _ [] (buf (item X 0)))
    by now rewrite length_map, length_seq.
  rewrite (map_nth (fun i => buf (item X i))).
  now rewrite seq_nth.
Qed.

(** [np.delete(X, k, axis=0)] keeps the other folds. *)
Lemma delete_axis0_folds {X : ndarray} {n rest} k :
  wf X -> shape X = n :: rest ->
  map buf (items (delete_axis0 X k)) = delete_nth k (map buf (items X)).
Proof.
  intros Hwf Hs.
  unfold items at 1. unfold item. rewrite map_map.
  cbn [delete_axis0 shape hd tl buf]. rewrite Hs. cbn [tl].
  rewrite <- (length_map buf), <- delete_nth_map.
  apply blocks_of_concat.
  apply delete_nth_Forall. exact (folds_buf_length Hwf Hs).
Qed.

(** The scalar identity behind the leave-one-out mean: with [s = b + r]
    the sum of [f] folds, [s/f + (s/f - b)/(f - 1) = r/(f - 1)]. *)
Lemma loo_scalar (b r f : Qc) :
  f <> 0%Qc -> (f - 1)%Qc <> 0%Qc ->
  ((b + r) / f + ((b + r) / f - b) / (f - 1) = r / (f - 1))%Qc.
Proof. intros Hf Hf1. field. split; assumption. Qed.

Lemma loo_vector (b r : list Qc) (f : Qc) :
  f <> 0%Qc -> (f - 1)%Qc <> 0%Qc -> length b = length r ->
  vadd (vdivs (vadd b r) f)
       (vdivs (vsub (vdivs (vadd b r) f) b) (f - 1)%Qc)
  = vdivs r (f - 1)%Qc.
Proof.
  intros Hf Hf1. revert r.
  induction b as [|x b IH]; intros [|y r] Hlen; cbn in *; try discriminate;
    [reflexivity|].
  injection Hlen as Hlen. f_equal.
  - now apply loo_scalar.
  - now apply IH.
Qed.

(** The closed form of the leave-one-out mean: the mean of the folds
    other than [k] is [mean + (mean - fold_k) / (F - 1)]. *)
Lemma loo_mean_closed_form (X : ndarray) n_folds rest k :
  wf X -> shape X = n_folds :: rest -> 2 <= n_folds -> k < n_folds ->
  add (mean_axis0 X)
      (divs (sub (mean_axis0 X) (item X k)) (of_nat (n_folds - 1)))
  = mean_axis0 (delete_axis0 X k).
Proof.
  intros Hwf Hs HF Hk.
  pose proof (folds_buf_length Hwf Hs) as Hlen.
  assert (Hn : length (map buf (items X)) = n_folds)
    by now rewrite length_map, (items_length X Hs).
  unfold add, sub, divs, mean_axis0. cbn [shape buf].
  rewrite (delete_axis0_folds k Hwf Hs).
  cbn [delete_axis0 shape tl hd].
  rewrite <- (length_map buf), <- delete_nth_map.
  rewrite delete_nth_length by lia. rewrite Hn, Hs. cbn [tl hd].
  f_equal.
  rewrite (vsum_delete k (map buf (items X))) by lia.
  rewrite (nth_fold_buf X Hs Hk).
  rewrite of_nat_pred by lia.
  apply loo_vector.
  - apply of_nat_nonzero. lia.
  - rewrite <- of_nat_pred by lia. apply of_nat_nonzero. lia.
  - rewrite <- (nth_fold_buf X Hs Hk).
    rewrite (Forall_length_nth k Hlen) by lia.
    symmetry. apply vsum_length.
    + now apply delete_nth_Forall.
    + intros E. apply (f_equal (@length _)) in E.
      rewrite delete_nth_length in E by lia. cbn in E. lia.
Qed.

(* ================================================================== *)
(** * The train estimate of [compute_dsm_cv] *)
(* ================================================================== *)



Lemma Qc_double_zero (d : Qc) : (d + d = 0)%Qc -> d = 0%Qc.
Proof.
  intros H.
  assert (H2 : ((1 + 1) * d = 0)%Qc) by (rewrite <- H; ring).
  apply Qcmult_integral in H2. destruct H2 as [H2|H2]; [|exact H2].
  apply (f_equal (fun q : Qc => Qnum q)) in H2. discriminate H2.
Qed.

Lemma train_vector_is_loo_only_at_the_mean (m t : list Qc) (c : Qc) :
  c <> 0%Qc -> length m = length t ->
  vsub m (vdivs (vsub m t) c) = vadd m (vdivs (vsub m t) c) -> t = m.
Proof.
  intros Hc. revert t.
  induction m as [|x m IH]; intros [|y t] Hlen H; cbn in Hlen |- *;
    try discriminate; [reflexivity|].
  injection Hlen as Hlen.
  unfold vsub, vadd, vdivs in H. cbn [map2 map] in H.
  pose proof (f_equal (hd 0%Qc) H) as Hhead.
  pose proof (f_equal (@tl Qc) H) as Htail.
  cbn [hd tl] in Hhead, Htail.
  f_equal; [|now apply IH].
  assert (Hd : ((x - y) / c = 0)%Qc).
  { apply Qc_double_zero.
    transitivity ((x + (x - y) / c) - (x - (x - y) / c))%Qc; [ring|].
    rewrite Hhead. ring. }
  assert (Hxy : (x - y = 0)%Qc).
  { transitivity ((x - y) / c * c)%Qc; [now field|]. rewrite Hd. ring. }
  transitivity (x - (x - y))%Qc; [ring|]. rewrite Hxy. ring.
Qed.

(** The train estimate of the code is the leave-one-out mean only for a
    test fold that equals the mean of all the folds. *)
Lemma x_train_is_loo_mean_only_at_the_mean (X : ndarray) n_folds rest k :
  wf X -> shape X = n_folds :: rest -> 2 <= n_folds -> k < n_folds ->
  x_train (mean_axis0 X) (item X k) n_folds = mean_axis0 (delete_axis0 X k) ->
  item X k = mean_axis0 X.
Proof.
  intros Hwf Hs HF Hk H.
  rewrite <- (loo_mean_closed_form X n_folds rest k Hwf Hs HF Hk) in H.
  unfold x_train, add, sub, divs in H. cbn [shape buf] in H.
  injection H as H.
  apply train_vector_is_loo_only_at_the_mean in H.
  - unfold item, mean_axis0 in *. cbn [buf] in H. rewrite Hs in *.
    cbn [tl hd] in *. now f_equal.
  - apply of_nat_nonzero. lia.
  - pose proof (folds_buf_length Hwf Hs) as Hlen.
    assert (Hn : length (map buf (items X)) = n_folds)
      by now rewrite length_map, (items_length X Hs).
    unfold mean_axis0, vdivs. cbn [buf]. rewrite length_map.
    rewrite (vsum_length (prod rest)).
    + change (block (prod (tl (shape X))) k (buf X)) with (buf (item X k)).
      rewrite <- (nth_fold_buf X Hs Hk).
      symmetry. apply (Forall_length_nth k Hlen). lia.
    + exact Hlen.
    + intros E. rewrite E in Hn. cbn in Hn. lia.
Qed.

(** C1, at the folds [[1, 2]] and [[3, 6]] with fold 0 as the test fold:
    the train estimate [mean - (mean - test) / (F - 1)] of the code is
    [[1, 2]], the test fold; the mean of the folds other than fold 0 is
    [[3, 6]]. *)
Theorem x_train_differs_from_the_leave_one_out_mean :
  wf two_folds /\ shape two_folds = [2; 1; 2] /\
  x_train (mean_axis0 two_folds) (item two_folds 0) 2
    = array_of [1; 2] [1; 2]%Z /\
  mean_axis0 (delete_axis0 two_folds 0) = array_of [1; 2] [3; 6]%Z /\
  x_train (mean_axis0 two_folds) (item two_folds 0) 2
    <> mean_axis0 (delete_axis0 two_folds 0).
Proof.
  split; [reflexivity|]. split; [reflexivity|].
  split; [|split].
  - apply nd_eqb_eq. vm_compute. reflexivity.
  - apply nd_eqb_eq. vm_compute. reflexivity.
  - apply nd_eqb_neq. vm_compute. reflexivity.
Qed.

(* ================================================================== *)
(** * Spatial neighborhoods *)
(* ================================================================== *)

Lemma Qc_ltb_lt (x y : Qc) : Qc_ltb x y = true <-> (x < y)%Qc.
Proof.
  unfold Qc_ltb. rewrite negb_true_iff, <- not_true_iff_false, Qle_bool_iff.
  unfold Qclt. split.
  - apply Qnot_le_lt.
  - apply Qlt_not_le.
Qed.

Lemma flatnonzero_In (mask : list bool) j :
  In j (flatnonzero mask) <-> j < length mask /\ nth j mask false = true.
Proof.
  unfold flatnonzero. rewrite filter_In, in_seq. intuition lia.
Qed.

Lemma flatnonzero_sorted (mask : list bool) :
  StronglySorted lt (flatnonzero mask).
Proof.
  unfold flatnonzero. generalize 0 as start.
  induction (length mask) as [|n IH]; intros start; cbn.
  - constructor.
  - destruct (nth start mask false).
    + constructor; [apply IH|].
      apply Forall_forall. intros x Hx.
      apply filter_In in Hx. destruct Hx as [Hx _].
      apply in_seq in Hx. lia.
    + apply IH.
Qed.

Lemma neighborhood_In (series_dist : ndarray) (spatial_radius : Qc) j :
  In j (neighborhood series_dist spatial_radius) <->
  j < length (buf series_dist) /\
  (nth j (buf series_dist) 0 < spatial_radius)%Qc.
Proof.
  unfold neighborhood. rewrite flatnonzero_In, length_map.
  split; intros [Hj H]; split; try assumption.
  - apply Qc_ltb_lt.
    rewrite <- H.
    rewrite (nth_indep _ false (Qc_ltb 0 spatial_radius))
      by now rewrite length_map.
    now rewrite (map_nth (fun d => Qc_ltb d spatial_radius)).
  - rewrite (nth_indep _ false (Qc_ltb 0 spatial_radius))
      by now rewrite length_map.
    rewrite (map_nth (fun d => Qc_ltb d spatial_radius)).
    now apply Qc_ltb_lt.
Qed.

Lemma nth_block {A} m i j (l : list A) d :
  j < m -> nth j (block m i l) d = nth (i * m + j) l d.
Proof.
  intros Hj. unfold block.
  rewrite nth_firstn.
  assert ((j <? m) = true) as -> by now apply Nat.ltb_lt.
  rewrite nth_skipn. reflexivity.
Qed.

(** The row of a center in a square distance matrix. *)
Lemma dist_row (dist : ndarray) {n_series s} :
  wf dist -> shape dist = [n_series; n_series] -> s < n_series ->
  length (buf (item dist s)) = n_series /\
  forall j, j < n_series -> nth j (buf (item dist s)) 0%Qc = entry dist s j.
Proof.
  intros Hwf Hs Hlt. unfold item, entry. rewrite Hs.
  cbn [tl prod fold_right buf nth]. rewrite Nat.mul_1_r. split.
  - apply block_length. unfold wf in Hwf. rewrite Hwf, Hs.
    cbn [prod fold_right]. rewrite Nat.mul_1_r.
    apply Nat.mul_le_mono_r. lia.
  - intros j Hj. now apply nth_block.
Qed.

(** C5, as the code has it: the neighborhood of a center [s] is exactly
    the series at a distance strictly below [spatial_radius], in ascending
    order; [s] itself belongs to it exactly when [dist[s, s]] is below the
    radius, hence for a zero diagonal whenever the radius is positive. *)
Theorem neighborhood_is_the_open_ball
        (dist : ndarray) (n_series s : nat) (spatial_radius : Qc) :
  wf dist -> shape dist = [n_series; n_series] -> s < n_series ->
  let nb := neighborhood (item dist s) spatial_radius in
  (forall j, In j nb <->
             j < n_series /\ (entry dist s j < spatial_radius)%Qc)
  /\ StronglySorted lt nb
  /\ (In s nb <-> (entry dist s s < spatial_radius)%Qc)
  /\ (entry dist s s = 0%Qc -> (0 < spatial_radius)%Qc -> In s nb).
Proof.
  intros Hwf Hs Hlt nb.
  destruct (dist_row dist Hwf Hs Hlt) as [Hlen Hrow].
  assert (Hin : forall j, In j nb <->
                j < n_series /\ (entry dist s j < spatial_radius)%Qc).
  { intros j. subst nb. rewrite neighborhood_In, Hlen. split.
    - intros [Hj H]. split; [assumption|]. now rewrite <- Hrow.
    - intros [Hj H]. split; [assumption|]. now rewrite Hrow. }
  split; [exact Hin|]. split; [apply flatnonzero_sorted|]. split.
  - rewrite Hin. intuition.
  - intros Hzero Hpos. apply Hin. split; [assumption|]. now rewrite Hzero.
Qed.

Lemma neighborhood_is_the_open_ball_witness :
  In 0 (neighborhood (item one_series_dist 0) 1%Qc).
Proof.
  apply (neighborhood_is_the_open_ball one_series_dist 1 0 1%Qc).
  - reflexivity.
  - reflexivity.
  - lia.
  - apply Qc_is_canon. reflexivity.
  - reflexivity.
Defined.

(** C5, as the specification states it, fails at radius 0: a series at
    distance 0 from itself is not strictly closer than 0, and its
    neighborhood is empty. *)
Lemma center_not_in_neighborhood_at_radius_0 :
  ~ (forall (dist : ndarray) (n_series s : nat) (spatial_radius : Qc),
        wf dist -> shape dist = [n_series; n_series] -> s < n_series ->
        (0 <= spatial_radius)%Qc ->
        In s (neighborhood (item dist s) spatial_radius)).
Proof.
  intros H.
  specialize (H one_series_dist 1 0 0%Qc).
  assert (Hnb : neighborhood (item one_series_dist 0) 0%Qc = [])
    by (vm_compute; reflexivity).
  rewrite Hnb in H. apply H.
  - reflexivity.
  - reflexivity.
  - lia.
  - discriminate.
Qed.

(* ================================================================== *)
(** * [_ensure_condensed] *)
(* ================================================================== *)

(** Induction on the arguments of [_ensure_condensed], lists included. *)
Lemma dsm_arg_induction (P : dsm_arg -> Prop) :
  (forall a, P (PyArray a)) ->
  (forall l, Forall P l -> P (PyList l)) ->
  forall d, P d.
Proof.
  intros Harr Hlist.
  fix IH 1. intros [a|l].
  - apply Harr.
  - apply Hlist. induction l as [|d l IHl]; constructor.
    + apply IH.
    + exact IHl.
Qed.

(** X19: [var_name] takes no part in the result of [_ensure_condensed],
    be it a DSM, a list of DSMs or an exception: the messages are not
    formatted with it. *)
Lemma ensure_condensed_ignores_var_name
      (squareform : ndarray -> result ndarray) (dsm : dsm_arg)
      (name1 name2 : string) :
  _ensure_condensed squareform dsm name1
  = _ensure_condensed squareform dsm name2.
Proof.
  induction dsm as [a|l IH] using dsm_arg_induction.
  - reflexivity.
  - cbn [_ensure_condensed]. f_equal.
    induction IH as [|d l Hd _ IHl]; [reflexivity|].
    rewrite Hd.
    destruct (_ensure_condensed squareform d name2) as [e|c];
      [reflexivity|].
    cbn [bind]. now rewrite IHl.
Qed.

(** Every rejection of an array by [_ensure_condensed] itself carries one
    of the two literal messages. *)
Lemma ensure_condensed_rejections
      (squareform : ndarray -> result ndarray) (a : ndarray)
      (var_name : string) :
  (ndim a = 2 -> nth 0 (shape a) 0 <> nth 1 (shape a) 0 ->
   _ensure_condensed squareform (PyArray a) var_name
   = raise (ValueError invalid_dimensions_msg))
  /\ (ndim a <> 1 -> ndim a <> 2 ->
      _ensure_condensed squareform (PyArray a) var_name
      = raise (ValueError invalid_ndim_msg)).
Proof.
  split.
  - intros H2 Hne. cbn [_ensure_condensed]. rewrite H2. cbn [Nat.eqb].
    apply Nat.eqb_neq in Hne. rewrite Hne. reflexivity.
  - intros H1 H2. cbn [_ensure_condensed].
    apply Nat.eqb_neq in H1, H2. rewrite H2, H1. reflexivity.
Qed.

(** C9, at a 2 x 3 array and at a 1 x 1 x 1 array passed under the name
    [model_dsm]: both are rejected with a [ValueError] whose message holds
    the unformatted placeholder [%s] and not the name. *)
Theorem ensure_condensed_message_omits_the_name
        (squareform : ndarray -> result ndarray) :
  _ensure_condensed squareform (PyArray not_square) "model_dsm"
    = raise (ValueError invalid_dimensions_msg)
  /\ _ensure_condensed squareform (PyArray three_axes) "model_dsm"
     = raise (ValueError invalid_ndim_msg)
  /\ contains "model_dsm" invalid_dimensions_msg = false
  /\ contains "model_dsm" invalid_ndim_msg = false
  /\ contains "%s" invalid_dimensions_msg = true
  /\ contains "%s" invalid_ndim_msg = true.
Proof.
  repeat split; vm_compute; reflexivity.
Qed.

(* ================================================================== *)
(** * The single-feature check of [compute_dsm] and [compute_dsm_cv] *)
(* ================================================================== *)

Lemma reshape_items (data : ndarray) {n rest} :
  wf data -> shape data = n :: rest -> 0 < n ->
  reshape data [n] = ret (mk_ndarray [n; prod rest] (buf data)).
Proof.
  intros Hwf Hs Hn. unfold reshape, size. rewrite Hwf, Hs.
  change (prod [n]) with (n * 1).
  change (prod (n :: rest)) with (n * prod rest).
  rewrite Nat.mul_1_r.
  replace (n * prod rest) with (prod rest * n) by lia.
  rewrite Nat.Div0.mod_mul, Nat.div_mul by lia.
  destruct n; [lia|]. reflexivity.
Qed.

Lemma reshape_folds (folds : ndarray) {n_folds n_items rest} :
  wf folds -> shape folds = n_folds :: n_items :: rest ->
  0 < n_folds -> 0 < n_items ->
  reshape folds [n_folds; n_items]
  = ret (mk_ndarray [n_folds; n_items; prod rest] (buf folds)).
Proof.
  intros Hwf Hs HF HI. unfold reshape, size. rewrite Hwf, Hs.
  change (prod [n_folds; n_items]) with (n_folds * (n_items * 1)).
  change (prod (n_folds :: n_items :: rest))
    with (n_folds * (n_items * prod rest)).
  rewrite Nat.mul_1_r.
  replace (n_folds * (n_items * prod rest))
    with (prod rest * (n_folds * n_items)) by lia.
  assert (Hk : n_folds * n_items <> 0) by nia.
  rewrite Nat.Div0.mod_mul, Nat.div_mul by assumption.
  apply Nat.eqb_neq in Hk. rewrite Hk. reflexivity.
Qed.

Section SingleFeature.

Variable metric_fn :
  string -> kwargs -> ndarray -> option (list Qc -> list Qc -> Qc).

Lemma compute_dsm_single_feature data n rest metric kw :
  wf data -> shape data = n :: rest -> 0 < n -> prod rest = 1 ->
  metric = "correlation" \/ metric = "cosine" ->
  compute_dsm metric_fn data metric kw
  = raise (ValueError single_feature_msg).
Proof.
  intros Hwf Hs Hn H1 Hm. unfold compute_dsm, len. rewrite Hs.
  cbn [bind ret]. rewrite (reshape_items data Hwf Hs Hn), H1.
  cbn [bind ret shape Nat.eqb andb].
  destruct Hm as [-> | ->]; reflexivity.
Qed.

Lemma compute_dsm_cv_single_feature folds n_folds n_items rest metric kw :
  wf folds -> shape folds = n_folds :: n_items :: rest ->
  0 < n_folds -> 0 < n_items -> prod rest = 1 ->
  metric = "correlation" \/ metric = "cosine" ->
  compute_dsm_cv metric_fn folds metric kw
  = raise (ValueError single_feature_msg).
Proof.
  intros Hwf Hs HF HI H1 Hm. unfold compute_dsm_cv, shape_at. rewrite Hs.
  cbn [nth_error bind ret].
  rewrite (reshape_folds folds Hwf Hs HF HI), H1.
  cbn [bind ret shape Nat.eqb andb].
  destruct Hm as [-> | ->]; reflexivity.
Qed.

Lemma pdist_not_single_feature_error X metric kw :
  is_single_feature_error (pdist metric_fn X metric kw) = false.
Proof. unfold pdist. destruct (metric_fn metric kw); reflexivity. Qed.

Lemma cdist_cases XA XB metric kw :
  (exists dist, cdist metric_fn XA XB metric kw = ret dist) \/
  cdist metric_fn XA XB metric kw
  = raise (ValueError "Unknown Distance Metric").
Proof.
  unfold cdist. destruct (metric_fn metric kw); [left|right]; eauto.
Qed.

Lemma cv_loop_cases X X_mean n_folds metric kw tests dsm :
  (exists out,
      fold_result (cv_step metric_fn X X_mean n_folds metric kw) tests dsm
      = ret out) \/
  fold_result (cv_step metric_fn X X_mean n_folds metric kw) tests dsm
  = raise (ValueError "Unknown Distance Metric").
Proof.
  revert dsm. induction tests as [|t tests IH]; intros dsm;
    cbn [fold_result]; [left; eauto|].
  unfold cv_step at 1 3.
  destruct (cdist_cases (x_train X_mean (item X t) n_folds) (item X t)
                        metric kw) as [[dist ->] | ->];
    cbn [bind ret]; [apply IH|now right].
Qed.

Lemma compute_dsm_sqeuclidean_passes_the_check data kw :
  is_single_feature_error (compute_dsm metric_fn data "sqeuclidean" kw)
  = false.
Proof.
  unfold compute_dsm.
  destruct (len data) as [e|n] eqn:Hlen.
  - unfold len in Hlen. destruct (shape data); inversion Hlen. reflexivity.
  - cbn [bind]. unfold reshape.
    destruct (_ || _); [reflexivity|]. cbn [bind ret shape app].
    replace (str_in "sqeuclidean" ["correlation"; "cosine"]) with false
      by reflexivity.
    rewrite andb_false_r. apply pdist_not_single_feature_error.
Qed.

Lemma compute_dsm_cv_sqeuclidean_passes_the_check folds kw :
  is_single_feature_error (compute_dsm_cv metric_fn folds "sqeuclidean" kw)
  = false.
Proof.
  unfold compute_dsm_cv, shape_at.
  destruct (nth_error (shape folds) 0) as [s0|]; [|reflexivity].
  destruct (nth_error (shape folds) 1) as [s1|]; [|reflexivity].
  cbn [bind ret]. unfold reshape.
  destruct (_ || _); [reflexivity|]. cbn [bind ret shape app].
  replace (str_in "sqeuclidean" ["correlation"; "cosine"]) with false
    by reflexivity.
  rewrite andb_false_r.
  match goal with
  | |- context [fold_result (cv_step _ ?X ?M ?n ?m ?k) ?t ?d] =>
      destruct (cv_loop_cases X M n m k t d) as [[out ->] | ->]
  end; reflexivity.
Qed.

Lemma compute_dsm_sqeuclidean_succeeds data n rest kw :
  wf data -> shape data = n :: rest -> 0 < n ->
  (forall observations, metric_fn "sqeuclidean" kw observations <> None) ->
  exists dsm, compute_dsm metric_fn data "sqeuclidean" kw = ret dsm.
Proof.
  intros Hwf Hs Hn Hd. unfold compute_dsm, len. rewrite Hs.
  cbn [bind ret]. rewrite (reshape_items data Hwf Hs Hn).
  cbn [bind ret shape].
  replace (str_in "sqeuclidean" ["correlation"; "cosine"]) with false
    by reflexivity.
  rewrite andb_false_r. unfold pdist.
  destruct (metric_fn "sqeuclidean" kw _) as [d|] eqn:E; [eauto|].
  now apply Hd in E.
Qed.

Lemma compute_dsm_cv_sqeuclidean_succeeds folds n_folds n_items rest kw :
  wf folds -> shape folds = n_folds :: n_items :: rest ->
  0 < n_folds -> 0 < n_items ->
  (forall observations, metric_fn "sqeuclidean" kw observations <> None) ->
  exists dsm, compute_dsm_cv metric_fn folds "sqeuclidean" kw = ret dsm.
Proof.
  intros Hwf Hs HF HI Hd. unfold compute_dsm_cv, shape_at. rewrite Hs.
  cbn [nth_error bind ret].
  rewrite (reshape_folds folds Hwf Hs HF HI).
  cbn [bind ret shape].
  replace (str_in "sqeuclidean" ["correlation"; "cosine"]) with false
    by reflexivity.
  rewrite andb_false_r.
  match goal with
  | |- context [fold_result (cv_step _ ?X ?M ?n ?m ?k) ?t ?z] =>
      destruct (cv_loop_cases X M n m k t z) as [[out ->] | E]
  end.
  - cbn [bind ret]. eauto.
  - exfalso. revert E.
    generalize (zeros (n_items * (n_items - 1) / 2)).
    induction (seq 0 n_folds) as [|t tests IH]; intros z; cbn [fold_result].
    + discriminate.
    + unfold cv_step at 1, cdist.
      destruct (metric_fn "sqeuclidean" kw _) as [d|] eqn:Ed;
        [|now apply Hd in Ed].
      cbn [bind ret]. apply IH.
Qed.

End SingleFeature.

(** C6: with exactly one flattened feature per item and the metric
    [correlation] or [cosine], [compute_dsm] and [compute_dsm_cv] raise a
    [ValueError] whose message names [sqeuclidean] as the alternative; with
    the metric [sqeuclidean] neither ever raises that error, and both
    return a DSM on every well-formed non-empty input once SciPy accepts
    the metric and its options. *)
Theorem single_feature_check
        (metric_fn :
           string -> kwargs -> ndarray -> option (list Qc -> list Qc -> Qc)) :
  (forall data n rest metric kw,
      wf data -> shape data = n :: rest -> 0 < n -> prod rest = 1 ->
      metric = "correlation" \/ metric = "cosine" ->
      compute_dsm metric_fn data metric kw
      = raise (ValueError single_feature_msg))
  /\ (forall folds n_folds n_items rest metric kw,
         wf folds -> shape folds = n_folds :: n_items :: rest ->
         0 < n_folds -> 0 < n_items -> prod rest = 1 ->
         metric = "correlation" \/ metric = "cosine" ->
         compute_dsm_cv metric_fn folds metric kw
         = raise (ValueError single_feature_msg))
  /\ contains "sqeuclidean" single_feature_msg = true
  /\ (forall data kw,
         is_single_feature_error
           (compute_dsm metric_fn data "sqeuclidean" kw) = false)
  /\ (forall folds kw,
         is_single_feature_error
           (compute_dsm_cv metric_fn folds "sqeuclidean" kw) = false)
  /\ (forall data n rest kw,
         wf data -> shape data = n :: rest -> 0 < n ->
         (forall observations,
             metric_fn "sqeuclidean" kw observations <> None) ->
         exists dsm, compute_dsm metric_fn data "sqeuclidean" kw = ret dsm)
  /\ (forall folds n_folds n_items rest kw,
         wf folds -> shape folds = n_folds :: n_items :: rest ->
         0 < n_folds -> 0 < n_items ->
         (forall observations,
             metric_fn "sqeuclidean" kw observations <> None) ->
         exists dsm,
           compute_dsm_cv metric_fn folds "sqeuclidean" kw = ret dsm).
Proof.
  split; [apply compute_dsm_single_feature|].
  split; [apply compute_dsm_cv_single_feature|].
  split; [vm_compute; reflexivity|].
  split; [apply compute_dsm_sqeuclidean_passes_the_check|].
  split; [apply compute_dsm_cv_sqeuclidean_passes_the_check|].
  split; [apply compute_dsm_sqeuclidean_succeeds|].
  apply compute_dsm_cv_sqeuclidean_succeeds.
Qed.

Lemma single_feature_check_witness :
  compute_dsm sqeuclidean_only three_scalars "correlation" []
    = raise (ValueError single_feature_msg)
  /\ compute_dsm_cv sqeuclidean_only two_folds_of_scalars "cosine" []
     = raise (ValueError single_feature_msg)
  /\ (exists dsm,
         compute_dsm sqeuclidean_only three_scalars "sqeuclidean" []
         = ret dsm)
  /\ (exists dsm,
         compute_dsm_cv sqeuclidean_only two_folds_of_scalars "sqeuclidean" []
         = ret dsm).
Proof.
  destruct (single_feature_check sqeuclidean_only)
    as (H1 & H2 & _ & _ & _ & H3 & H4).
  split; [|split; [|split]].
  - apply (H1 three_scalars 3 [1]);
      [reflexivity | reflexivity | lia | reflexivity | now left].
  - apply (H2 two_folds_of_scalars 2 3 [1]);
      [reflexivity | reflexivity | lia | lia | reflexivity | now right].
  - apply (H3 three_scalars 3 [1] []);
      [reflexivity | reflexivity | lia | discriminate].
  - apply (H4 two_folds_of_scalars 2 3 [1] []);
      [reflexivity | reflexivity | lia | lia | discriminate].
Defined.

(* ================================================================== *)
(** * Identical folds *)
(* ================================================================== *)







Lemma vsub_self_train (b : list Qc) (c : Qc) :
  vsub b (vdivs (vsub b b) c) = b.
Proof.
  induction b as [|x b IH]; cbn; [reflexivity|].
  f_equal; [|exact IH]. unfold Qcdiv. ring.
Qed.

(** From identical folds the train estimate is the fold itself. *)
Lemma x_train_of_identical (Y : ndarray) n_folds : x_train Y Y n_folds = Y.
Proof.
  unfold x_train, sub, divs. cbn [shape buf].
  rewrite vsub_self_train. now destruct Y.
Qed.

(* ================================================================== *)
(** * The upper triangle of a matrix of distances *)
(* ================================================================== *)


Lemma triu_indices_length_upto n k :
  k <= n -> 2 * length (triu_indices k 1 n) + k * (k + 1) = 2 * k * n.
Proof.
  unfold triu_indices. induction k as [|k IH]; intros Hk; [reflexivity|].
  rewrite seq_S, flat_map_app, length_app. cbn [flat_map Nat.add].
  rewrite app_nil_r, length_map, length_seq.
  specialize (IH ltac:(lia)). nia.
Qed.

(** The condensed form of [n] items has [n (n - 1) / 2] entries. *)
Lemma triu_indices_length n :
  length (triu_indices n 1 n) = (n * (n - 1)) / 2.
Proof.
  pose proof (triu_indices_length_upto n n (le_n n)) as H.
  assert (E : n * (n - 1) = length (triu_indices n 1 n) * 2) by nia.
  rewrite E. now rewrite Nat.div_mul.
Qed.

Lemma nth_grid {A B C} (f : A -> B -> C) (R : list A) (R' : list B)
      i j da db dc :
  i < length R -> j < length R' ->
  nth (i * length R' + j) (flat_map (fun u => map (f u) R') R) dc
  = f (nth i R da) (nth j R' db).
Proof.
  revert i. induction R as [|u R IH]; intros i Hi Hj; cbn in Hi; [lia|].
  cbn [flat_map]. destruct i as [|i].
  - cbn [Nat.mul Nat.add nth]. rewrite app_nth1 by now rewrite length_map.
    rewrite (nth_indep _ dc (f u db)) by now rewrite length_map.
    apply (map_nth (f u)).
  - rewrite app_nth2 by (rewrite length_map; lia).
    rewrite length_map.
    replace (S i * length R' + j - length R') with (i * length R' + j) by lia.
    cbn [nth]. apply IH; [lia|assumption].
Qed.

Section IdenticalFolds.

Variable metric_fn :
  string -> kwargs -> ndarray -> option (list Qc -> list Qc -> Qc).

Lemma pdist_buf_length d Y :
  length (pdist_buf d Y)
  = (nth 0 (shape Y) 0 * (nth 0 (shape Y) 0 - 1)) / 2.
Proof. unfold pdist_buf. now rewrite length_map, triu_indices_length. Qed.







End IdenticalFolds.


Lemma item_wf (X : ndarray) n rest k :
  wf X -> shape X = n :: rest -> k < n -> wf (item X k).
Proof.
  intros Hwf Hs Hk. unfold wf, item. rewrite Hs. cbn [shape buf tl].
  apply block_length. unfold wf in Hwf. rewrite Hwf, Hs.
  change (prod (n :: rest)) with (n * prod rest).
  apply Nat.mul_le_mono_r. lia.
Qed.






(** The value on that input: the squared distances of the item pairs
    (0,1), (0,2), (1,2). *)
Lemma cv_on_identical_folds_value :
  returns (compute_dsm_cv sqeuclidean_only identical_folds "sqeuclidean" [])
          (array_of [3] [2; 130; 100]%Z) = true.
Proof. vm_compute. reflexivity. Qed.

(* ================================================================== *)
(** * Generators: traces *)
(* ================================================================== *)

Lemma yield_each_all_raise {A} (steps : list (result A)) :
  (forall r, In r steps -> exists e, r = inl e) ->
  yielded (yield_each steps) = [].
Proof.
  intros H. destruct steps as [|r steps]; [reflexivity|].
  destruct (H r (or_introl eq_refl)) as [e ->]. reflexivity.
Qed.

Lemma yield_after_nothing {A B} (setup : result A) (body : A -> trace B) :
  (forall a, yielded (body a) = []) ->
  yielded (yield_after setup body) = [].
Proof. intros H. destruct setup as [e|a]; [reflexivity|apply H]. Qed.

Lemma call_dsm_func_none metric_fn n patch dist_metric :
  call_dsm_func metric_fn n patch dist_metric None
  = raise (TypeError (not_a_mapping_msg (dsm_func_name n))).
Proof. reflexivity. Qed.

Lemma call_dsm_func_none_ext metric_fn n dist_metric :
  (fun patch => call_dsm_func metric_fn n patch dist_metric None)
  = (fun _ => raise (TypeError (not_a_mapping_msg (dsm_func_name n)))).
Proof. reflexivity. Qed.

Lemma bind_raises {A B} (m : result A) (e : exception) :
  exists e', (x <- m ;; (raise e : result B)) = inl e'.
Proof. destruct m as [e0|a]; cbn; eauto. Qed.

Lemma flat_map_length_const {A B} (f : A -> list B) (l : list A) c :
  (forall x, length (f x) = c) -> length (flat_map f l) = length l * c.
Proof.
  intros H. induction l as [|x l IH]; cbn; [reflexivity|].
  now rewrite length_app, H, IH.
Qed.

(** [patch_iterator] visits every (series, center) pair, series first. *)
Lemma patch_iterator_length folds dist spatial_radius temporal_radius
      n_series centers :
  length (patch_iterator folds dist spatial_radius temporal_radius
                         n_series centers)
  = n_series * length centers.
Proof.
  unfold patch_iterator.
  rewrite (flat_map_length_const _ _ (length centers)).
  - now rewrite length_seq.
  - intros series. apply length_map.
Qed.

(** The patches come in the order of the pairs (series, center), all the
    centers of a series before the next series. *)
Lemma patch_iterator_order folds dist spatial_radius temporal_radius
      n_series centers :
  patch_iterator folds dist spatial_radius temporal_radius n_series centers
  = map (fun sc =>
           row <- getitem dist (fst sc) ;;
           if ndim folds <? 4
           then raise (IndexError "too many indices for array")
           else
             windowed <- slice_last folds (snd sc - temporal_radius)
                                          (snd sc + temporal_radius) ;;
             take_axis2 windowed (neighborhood row spatial_radius))
        (list_prod (seq 0 n_series) centers).
Proof.
  unfold patch_iterator. induction (seq 0 n_series) as [|s l IH];
    [reflexivity|].
  cbn [flat_map list_prod]. rewrite map_app, map_map, IH. reflexivity.
Qed.

(* ================================================================== *)
(** * [dsm_spattemp]: what reaches the consumer *)
(* ================================================================== *)

(** Whatever the input, [dsm_spattemp] yields at most one DSM: its body
    has a single [yield], outside any loop. *)
Lemma dsm_spattemp_yields_at_most_once
      metric_fn create_folds parallel_returns data dist spatial_radius
      temporal_radius dist_metric dist_params y n_folds n_jobs :
  length (yielded (dsm_spattemp metric_fn create_folds parallel_returns
                                data dist spatial_radius temporal_radius
                                dist_metric dist_params y n_folds n_jobs))
  <= 1.
Proof.
  unfold dsm_spattemp, yield_after.
  match goal with
  | |- context [match ?s with inl _ => _ | inr _ => _ end] => destruct s
  end; cbn; lia.
Qed.

(** C2, at two items on two series and three samples with temporal radius
    1 (centers 1 and 2, hence four patches): the consumer of
    [dsm_spattemp] gets no DSM and a [TypeError] from [next] on the list
    that [Parallel] returned; were that object an iterator, the consumer
    would get the DSM of the first patch and nothing more.  Four DSMs are
    never yielded, on this input or any other. *)
Theorem dsm_spattemp_does_not_stream_every_patch :
  let run kind :=
    dsm_spattemp sqeuclidean_only wrap_single_fold kind
                 two_series_data two_series_dist (of_nat 2) 1%Z
                 "sqeuclidean" (Some []) None 1%Z 1%Z in
  _get_time_patch_centers 3 1 = [1; 2]%Z
  /\ length (patch_iterator (mk_ndarray [1; 2; 2; 3] (buf two_series_data))
                            two_series_dist (of_nat 2) 1%Z 2 [1; 2]%Z) = 4
  /\ run AsList
     = mk_trace [] (Raised (TypeError "'list' object is not an iterator"))
  /\ length (yielded (run AsGenerator)) = 1
  /\ stopped (run AsGenerator) = StopIteration
  /\ (forall metric_fn create_folds kind data dist spatial_radius
             temporal_radius dist_metric dist_params y n_folds n_jobs,
         length (yielded (dsm_spattemp metric_fn create_folds kind
                                       data dist spatial_radius
                                       temporal_radius dist_metric
                                       dist_params y n_folds n_jobs)) <= 1).
Proof.
  intros run. subst run. cbv beta.
  split; [reflexivity|].
  split; [apply patch_iterator_length|].
  split; [vm_compute; reflexivity|].
  split; [vm_compute; reflexivity|].
  split; [vm_compute; reflexivity|].
  intros. apply dsm_spattemp_yields_at_most_once.
Qed.

(* ================================================================== *)
(** * The generators under [dist_params=None] *)
(* ================================================================== *)

Lemma range_cons a b : (a < b)%Z -> range a b = a :: range (a + 1) b.
Proof.
  intros H. unfold range.
  replace (Z.to_nat (b - a)) with (S (Z.to_nat (b - (a + 1)))) by lia.
  cbn [seq map]. f_equal; [lia|].
  rewrite <- seq_shift, map_map. apply map_ext. intros i. lia.
Qed.

Section DefaultOptions.

Variable metric_fn :
  string -> kwargs -> ndarray -> option (list Qc -> list Qc -> Qc).
Variable create_folds :
  ndarray -> option ndarray -> Z -> option Z -> result ndarray.
Variable kind : parallel_output.

Lemma dsm_spat_none_yields_nothing
      data dist spatial_radius dist_metric y n_folds :
  yielded (dsm_spat metric_fn create_folds data dist spatial_radius
                    dist_metric None y n_folds) = [].
Proof.
  unfold dsm_spat. apply yield_after_nothing. intros [[folds n] series].
  apply yield_each_all_raise. intros r Hr.
  apply in_map_iff in Hr. destruct Hr as (series_dist & <- & _).
  rewrite call_dsm_func_none_ext. apply bind_raises.
Qed.

Lemma dsm_temp_none_yields_nothing
      data temporal_radius dist_metric y n_folds :
  yielded (dsm_temp metric_fn create_folds data temporal_radius
                    dist_metric None y n_folds) = [].
Proof.
  unfold dsm_temp. apply yield_after_nothing. intros [[centers folds] n].
  apply yield_each_all_raise. intros r Hr.
  apply in_map_iff in Hr. destruct Hr as (center & <- & _).
  rewrite call_dsm_func_none_ext. apply bind_raises.
Qed.

Lemma parallel_none_raises n dist_metric patches :
  patches <> [] ->
  exists e,
    Parallel (map (fun p => patch <- p ;;
                            call_dsm_func metric_fn n patch dist_metric None)
                  patches) = inl e.
Proof.
  destruct patches as [|p patches]; [congruence|]. intros _.
  unfold Parallel. cbn [map map_result].
  rewrite call_dsm_func_none_ext.
  destruct (bind_raises (B := ndarray) p
                        (TypeError (not_a_mapping_msg (dsm_func_name n))))
    as [e ->].
  now exists e.
Qed.

Lemma dsm_spattemp_none_yields_nothing
      data dist spatial_radius temporal_radius dist_metric y n_folds n_jobs :
  yielded (dsm_spattemp metric_fn create_folds kind data dist
                        spatial_radius temporal_radius dist_metric None
                        y n_folds n_jobs) = [].
Proof.
  unfold dsm_spattemp.
  match goal with
  | |- yielded (yield_after ?s _) = [] =>
      assert (H : exists e, s = inl e); [|destruct H as [e ->]; reflexivity]
  end.
  destruct (shape data) as [|n_items [|n_series [|n_samples [|d3 ds]]]];
    try (eexists; reflexivity).
  cbn [bind ret].
  destruct (create_folds data y n_folds (Some n_jobs)) as [e|folds];
    [eexists; reflexivity|].
  cbn [bind]. destruct (len folds) as [e|m]; [eexists; reflexivity|].
  cbn [bind].
  match goal with
  | |- context [patch_iterator ?f ?d ?sr ?tr ?ns ?cs] =>
      destruct (patch_iterator f d sr tr ns cs) as [|p ps] eqn:Hp
  end.
  - cbn. destruct kind; eexists; reflexivity.
  - destruct (parallel_none_raises m dist_metric (p :: ps)) as [e He];
      [congruence|].
    rewrite He. eexists. reflexivity.
Qed.

Lemma dsm_spat_none_raises
      data dist spatial_radius dist_metric y n_folds
      folds n n_series rest patch :
  create_folds data y n_folds None = ret folds ->
  len folds = ret n ->
  shape dist = n_series :: rest -> 0 < n_series ->
  take_axis2 folds (neighborhood (item dist 0) spatial_radius) = ret patch ->
  first_next (dsm_spat metric_fn create_folds data dist spatial_radius
                       dist_metric None y n_folds)
  = inl (Raised (TypeError (not_a_mapping_msg (dsm_func_name n)))).
Proof.
  intros Hfolds Hlen Hs Hn Hpatch. unfold dsm_spat.
  rewrite Hfolds. cbn [bind ret]. rewrite Hlen. cbn [bind ret].
  unfold iter, items. rewrite Hs. cbn [bind ret yield_after hd].
  destruct n_series as [|k]; [lia|].
  cbn [seq map]. rewrite Hpatch. reflexivity.
Qed.

Lemma dsm_temp_none_raises
      data temporal_radius dist_metric y n_folds folds n n_samples :
  last_dim data = ret n_samples ->
  (2 * temporal_radius <= Z.of_nat n_samples)%Z ->
  create_folds data y n_folds None = ret folds ->
  len folds = ret n ->
  first_next (dsm_temp metric_fn create_folds data temporal_radius
                       dist_metric None y n_folds)
  = inl (Raised (TypeError (not_a_mapping_msg (dsm_func_name n)))).
Proof.
  intros Hlast Hfit Hfolds Hlen. unfold dsm_temp.
  rewrite Hlast. cbn [bind ret]. rewrite Hfolds. cbn [bind ret].
  rewrite Hlen. cbn [bind ret yield_after].
  unfold _get_time_patch_centers. rewrite range_cons by lia.
  cbn [map]. unfold slice_last, len in *.
  destruct (shape folds); [discriminate|]. reflexivity.
Qed.

Lemma dsm_spattemp_none_raises
      data dist spatial_radius temporal_radius dist_metric y n_folds n_jobs
      n_items n_series n_samples folds n row windowed patch :
  shape data = [n_items; n_series; n_samples] ->
  0 < n_series ->
  (2 * temporal_radius <= Z.of_nat n_samples)%Z ->
  create_folds data y n_folds (Some n_jobs) = ret folds ->
  len folds = ret n ->
  4 <= ndim folds ->
  getitem dist 0 = ret row ->
  slice_last folds (temporal_radius - temporal_radius)
                   (temporal_radius + temporal_radius) = ret windowed ->
  take_axis2 windowed (neighborhood row spatial_radius) = ret patch ->
  first_next (dsm_spattemp metric_fn create_folds kind data dist
                           spatial_radius temporal_radius dist_metric None
                           y n_folds n_jobs)
  = inl (Raised (TypeError (not_a_mapping_msg (dsm_func_name n)))).
Proof.
  intros Hs Hn Hfit Hfolds Hlen Hdim Hrow Hwin Hpatch. unfold dsm_spattemp.
  rewrite Hs. cbn [bind ret]. rewrite Hfolds. cbn [bind ret].
  rewrite Hlen. cbn [bind ret].
  unfold _get_time_patch_centers. rewrite range_cons by lia.
  destruct n_series as [|k]; [lia|].
  unfold patch_iterator. cbn [seq flat_map map app].
  rewrite Hrow. cbn [bind ret].
  assert ((ndim folds <? 4) = false) as -> by now apply Nat.ltb_ge.
  rewrite Hwin. cbn [bind ret]. rewrite Hpatch.
  unfold Parallel. cbn [map_result bind ret]. reflexivity.
Qed.

Lemma dsm_spat_none_without_series
      data dist spatial_radius dist_metric y n_folds folds n rest :
  create_folds data y n_folds None = ret folds ->
  len folds = ret n ->
  shape dist = 0 :: rest ->
  dsm_spat metric_fn create_folds data dist spatial_radius dist_metric
           None y n_folds
  = mk_trace [] StopIteration.
Proof.
  intros Hfolds Hlen Hs. unfold dsm_spat.
  rewrite Hfolds. cbn [bind ret]. rewrite Hlen. cbn [bind ret].
  unfold iter, items. rewrite Hs. reflexivity.
Qed.

Lemma dsm_temp_none_without_centers
      data temporal_radius dist_metric y n_folds folds n n_samples :
  last_dim data = ret n_samples ->
  (Z.of_nat n_samples < 2 * temporal_radius)%Z ->
  create_folds data y n_folds None = ret folds ->
  len folds = ret n ->
  dsm_temp metric_fn create_folds data temporal_radius dist_metric
           None y n_folds
  = mk_trace [] StopIteration.
Proof.
  intros Hlast Hwide Hfolds Hlen. unfold dsm_temp.
  rewrite Hlast. cbn [bind ret]. rewrite Hfolds. cbn [bind ret].
  rewrite Hlen. cbn [bind ret yield_after].
  unfold _get_time_patch_centers. rewrite range_empty by lia. reflexivity.
Qed.

End DefaultOptions.

(** C3, as the code has it: with [dist_params] left at [None] none of the
    three generators ever yields a DSM; when the folds are built and the
    patch of the first searchlight position exists, the first [next]
    raises the [TypeError] of [**None], whose message names the DSM
    function that was to be called.  When the folds are built and there is
    no searchlight position (no row in [dist], no center for the window),
    [dsm_spat] and [dsm_temp] end the iteration without raising. *)
Theorem no_dsm_under_default_dist_params
        (metric_fn :
           string -> kwargs -> ndarray -> option (list Qc -> list Qc -> Qc))
        (create_folds :
           ndarray -> option ndarray -> Z -> option Z -> result ndarray)
        (kind : parallel_output) :
  (forall data dist spatial_radius dist_metric y n_folds,
      yielded (dsm_spat metric_fn create_folds data dist spatial_radius
                        dist_metric None y n_folds) = [])
  /\ (forall data temporal_radius dist_metric y n_folds,
         yielded (dsm_temp metric_fn create_folds data temporal_radius
                           dist_metric None y n_folds) = [])
  /\ (forall data dist spatial_radius temporal_radius dist_metric y
             n_folds n_jobs,
         yielded (dsm_spattemp metric_fn create_folds kind data dist
                               spatial_radius temporal_radius dist_metric
                               None y n_folds n_jobs) = [])
  /\ (forall data dist spatial_radius dist_metric y n_folds
             folds n n_series rest patch,
         create_folds data y n_folds None = ret folds ->
         len folds = ret n ->
         shape dist = n_series :: rest -> 0 < n_series ->
         take_axis2 folds (neighborhood (item dist 0) spatial_radius)
         = ret patch ->
         first_next (dsm_spat metric_fn create_folds data dist spatial_radius
                              dist_metric None y n_folds)
         = inl (Raised (TypeError (not_a_mapping_msg (dsm_func_name n)))))
  /\ (forall data temporal_radius dist_metric y n_folds folds n n_samples,
         last_dim data = ret n_samples ->
         (2 * temporal_radius <= Z.of_nat n_samples)%Z ->
         create_folds data y n_folds None = ret folds ->
         len folds = ret n ->
         first_next (dsm_temp metric_fn create_folds data temporal_radius
                              dist_metric None y n_folds)
         = inl (Raised (TypeError (not_a_mapping_msg (dsm_func_name n)))))
  /\ (forall data dist spatial_radius temporal_radius dist_metric y
             n_folds n_jobs n_items n_series n_samples folds n row
             windowed patch,
         shape data = [n_items; n_series; n_samples] ->
         0 < n_series ->
         (2 * temporal_radius <= Z.of_nat n_samples)%Z ->
         create_folds data y n_folds (Some n_jobs) = ret folds ->
         len folds = ret n ->
         4 <= ndim folds ->
         getitem dist 0 = ret row ->
         slice_last folds (temporal_radius - temporal_radius)
                          (temporal_radius + temporal_radius) = ret windowed ->
         take_axis2 windowed (neighborhood row spatial_radius) = ret patch ->
         first_next (dsm_spattemp metric_fn create_folds kind data dist
                                  spatial_radius temporal_radius dist_metric
                                  None y n_folds n_jobs)
         = inl (Raised (TypeError (not_a_mapping_msg (dsm_func_name n)))))
  /\ (forall data dist spatial_radius dist_metric y n_folds folds n rest,
         create_folds data y n_folds None = ret folds ->
         len folds = ret n ->
         shape dist = 0 :: rest ->
         dsm_spat metric_fn create_folds data dist spatial_radius
                  dist_metric None y n_folds
         = mk_trace [] StopIteration)
  /\ (forall data temporal_radius dist_metric y n_folds folds n n_samples,
         last_dim data = ret n_samples ->
         (Z.of_nat n_samples < 2 * temporal_radius)%Z ->
         create_folds data y n_folds None = ret folds ->
         len folds = ret n ->
         dsm_temp metric_fn create_folds data temporal_radius dist_metric
                  None y n_folds
         = mk_trace [] StopIteration).
Proof.
  split; [apply dsm_spat_none_yields_nothing|].
  split; [apply dsm_temp_none_yields_nothing|].
  split; [apply dsm_spattemp_none_yields_nothing|].
  split; [apply dsm_spat_none_raises|].
  split; [apply dsm_temp_none_raises|].
  split; [apply dsm_spattemp_none_raises|].
  split; [apply dsm_spat_none_without_series|].
  apply dsm_temp_none_without_centers.
Qed.

Lemma no_dsm_under_default_dist_params_witness :
  first_next (dsm_spat sqeuclidean_only wrap_single_fold
                       two_series_data two_series_dist (of_nat 2)
                       "correlation" None None 1%Z)
    = inl (Raised (TypeError (not_a_mapping_msg "rsa.dsm.compute_dsm")))
  /\ first_next (dsm_temp sqeuclidean_only wrap_single_fold
                          two_series_data 1%Z "correlation" None None 1%Z)
     = inl (Raised (TypeError (not_a_mapping_msg "rsa.dsm.compute_dsm")))
  /\ first_next (dsm_spattemp sqeuclidean_only wrap_single_fold AsList
                              two_series_data two_series_dist (of_nat 2) 1%Z
                              "correlation" None None 1%Z 1%Z)
     = inl (Raised (TypeError (not_a_mapping_msg "rsa.dsm.compute_dsm")))
  /\ dsm_spat sqeuclidean_only wrap_single_fold two_series_data
              no_series_dist (of_nat 2) "correlation" None None 1%Z
     = mk_trace [] StopIteration
  /\ dsm_temp sqeuclidean_only wrap_single_fold two_series_data 2%Z
              "correlation" None None 1%Z
     = mk_trace [] StopIteration.
Proof.
  destruct (no_dsm_under_default_dist_params
              sqeuclidean_only wrap_single_fold AsList)
    as (_ & _ & _ & Hspat & Htemp & Hspattemp & Hnone & Hwide).
  split; [|split; [|split; [|split]]].
  - eapply (Hspat two_series_data two_series_dist (of_nat 2) "correlation"
                  None 1%Z _ 1 2 [2]);
      [reflexivity | reflexivity | reflexivity | lia |].
    vm_compute. reflexivity.
  - eapply (Htemp two_series_data 1%Z "correlation" None 1%Z _ 1 3);
      [reflexivity | lia | reflexivity | reflexivity].
  - eapply (Hspattemp two_series_data two_series_dist (of_nat 2) 1%Z
                      "correlation" None 1%Z 1%Z 2 2 3 _ 1);
      [reflexivity | lia | lia | reflexivity | reflexivity | cbn; lia
       | reflexivity | reflexivity |].
    vm_compute. reflexivity.
  - eapply (Hnone two_series_data no_series_dist (of_nat 2) "correlation"
                  None 1%Z _ 1 [2]);
      reflexivity.
  - eapply (Hwide two_series_data 2%Z "correlation" None 1%Z _ 1 3);
      [reflexivity | lia | reflexivity | reflexivity].
Defined.

(** C3, as it is stated, fails where there is nothing to visit: on three
    samples with temporal radius 2 no window fits, and the first [next] on
    [dsm_temp] ends the iteration without any [TypeError]. *)
Lemma dsm_temp_none_without_centers_stops :
  _get_time_patch_centers 3 2 = []
  /\ first_next (dsm_temp sqeuclidean_only wrap_single_fold
                          two_series_data 2%Z "correlation" None None 1%Z)
     = inl StopIteration
  /\ ~ (forall metric_fn create_folds data temporal_radius dist_metric
               y n_folds,
           exists msg,
             first_next (dsm_temp metric_fn create_folds data temporal_radius
                                  dist_metric None y n_folds)
             = inl (Raised (TypeError msg))).
Proof.
  split; [reflexivity|]. split; [reflexivity|].
  intros H.
  destruct (H sqeuclidean_only wrap_single_fold two_series_data 2%Z
              "correlation" None 1%Z) as [msg Hmsg].
  discriminate Hmsg.
Qed.

(* ================================================================== *)
(** * The store: what a computation leaves untouched *)
(* ================================================================== *)

Lemma update_length l a (h : Store.heap) :
  length (Store.update l a h) = length h.
Proof.
  unfold Store.update. destruct (l <? length h) eqn:E; [|reflexivity].
  apply Nat.ltb_lt in E.
  rewrite length_app, length_firstn. cbn [length]. rewrite length_skipn. lia.
Qed.

Lemma update_firstn n l a (h : Store.heap) :
  n <= l -> firstn n (Store.update l a h) = firstn n h.
Proof.
  intros Hn. unfold Store.update.
  destruct (l <? length h) eqn:E; [|reflexivity].
  apply Nat.ltb_lt in E.
  rewrite firstn_app, length_firstn.
  replace (n - Nat.min l (length h)) with 0 by lia.
  cbn [firstn]. rewrite app_nil_r, firstn_firstn.
  f_equal. lia.
Qed.

Lemma keeps_weaken {A} n (m : Store.M A) (P Q : A -> Prop) :
  Store.keeps n m P -> (forall a, P a -> Q a) -> Store.keeps n m Q.
Proof.
  intros [Hf Hp] HPQ. split; [exact Hf|].
  intros h a Hh Ha. apply HPQ. now apply (Hp h).
Qed.

Lemma keeps_ret {A} n (a : A) (Q : A -> Prop) :
  Q a -> Store.keeps n (Store.ret a) Q.
Proof.
  intros HQ. split.
  - intros h Hh. cbn. split; [lia|reflexivity].
  - intros h a' _ [= <-]. exact HQ.
Qed.

Lemma keeps_lift {A} n (r : result A) :
  Store.keeps n (Store.lift r) (fun _ => True).
Proof.
  split.
  - intros h Hh. cbn. split; [lia|reflexivity].
  - trivial.
Qed.

Lemma keeps_get n (r : Store.ref) :
  Store.keeps n (Store.get r) (fun _ => True).
Proof.
  split.
  - intros h Hh. cbn. split; [lia|reflexivity].
  - trivial.
Qed.

(** A new array lies beyond the cells that are kept. *)
Lemma keeps_new n (a : ndarray) :
  Store.keeps n (Store.new a) (fun r => n <= Store.base r).
Proof.
  split.
  - intros h Hh. cbn. rewrite length_app. cbn [length]. split; [lia|].
    rewrite firstn_app. replace (n - length h) with 0 by lia.
    cbn [firstn]. apply app_nil_r.
  - intros h r Hh [= <-]. exact Hh.
Qed.

(** An update in place is harmless when its target lies beyond them. *)
Lemma keeps_iadd n (dst : Store.ref) (v : ndarray) :
  n <= Store.base dst -> Store.keeps n (Store.iadd dst v) (fun _ => True).
Proof.
  intros Hn. split.
  - intros h Hh. cbn. rewrite update_length. split; [lia|].
    now apply update_firstn.
  - trivial.
Qed.

Lemma keeps_bind {A B} n (m : Store.M A) (f : A -> Store.M B)
      (P : A -> Prop) (Q : B -> Prop) :
  Store.keeps n m P -> (forall a, P a -> Store.keeps n (f a) Q) ->
  Store.keeps n (Store.bind m f) Q.
Proof.
  intros [Hm HP] Hf. split.
  - intros h Hh. unfold Store.bind.
    destruct (Hm h Hh) as [Hlen Hfirst]. specialize (HP h).
    destruct (m h) as [[e|a] h']; cbn [fst snd] in *.
    + now split.
    + destruct (Hf a (HP a Hh eq_refl)) as [Hfa _].
      destruct (Hfa h' ltac:(lia)) as [Hlen' Hfirst'].
      split; [lia|congruence].
  - intros h b Hh Hb. unfold Store.bind in Hb.
    destruct (Hm h Hh) as [Hlen _]. specialize (HP h).
    destruct (m h) as [[e|a] h']; cbn [fst snd] in *; [discriminate|].
    destruct (Hf a (HP a Hh eq_refl)) as [_ HQ].
    apply (HQ h'); [lia|assumption].
Qed.

Lemma keeps_for_each {A} n (xs : list A) (body : A -> Store.M unit) :
  (forall x, Store.keeps n (body x) (fun _ => True)) ->
  Store.keeps n (Store.for_each xs body) (fun _ => True).
Proof.
  intros Hbody. induction xs as [|x xs IH]; cbn [Store.for_each].
  - now apply keeps_ret.
  - apply (keeps_bind n _ _ (fun _ => True)); [apply Hbody|].
    intros _ _. exact IH.
Qed.

Lemma keeps_run_all {A} n (tasks : list (Store.M A)) :
  Forall (fun t => Store.keeps n t (fun _ => True)) tasks ->
  Store.keeps n (Store.run_all tasks) (fun _ => True).
Proof.
  induction 1 as [|t tasks Ht _ IH]; cbn [Store.run_all].
  - now apply keeps_ret.
  - apply (keeps_bind n _ _ (fun _ => True)); [exact Ht|]. intros x _.
    apply (keeps_bind n _ _ (fun _ => True)); [exact IH|]. intros xs _.
    now apply keeps_ret.
Qed.

(** One step of a sequence whose first computation needs no more than to
    be framed. *)
Ltac keeps_seq :=
  apply (keeps_bind _ _ _ (fun _ => True));
  [ first [ apply keeps_get | apply keeps_lift ] | intros ? _ ].

Ltac keeps_seq_as x :=
  apply (keeps_bind _ _ _ (fun _ => True));
  [ first [ apply keeps_get | apply keeps_lift ] | intros x _ ].

Lemma keeps_get_opt n (r : option Store.ref) :
  Store.keeps n (Store.get_opt r) (fun _ => True).
Proof.
  destruct r as [r|]; cbn [Store.get_opt].
  - keeps_seq. now apply keeps_ret.
  - now apply keeps_ret.
Qed.

Lemma keeps_np_reshape n (a : Store.ref) known :
  Store.keeps n (Store.np_reshape a known) (fun _ => True).
Proof. unfold Store.np_reshape. do 2 keeps_seq. now apply keeps_ret. Qed.

Lemma keeps_slice_last_view n (a : Store.ref) lo hi :
  Store.keeps n (Store.slice_last_view a lo hi) (fun _ => True).
Proof. unfold Store.slice_last_view. do 2 keeps_seq. now apply keeps_ret. Qed.

Section Frame.

Variable metric_fn :
  string -> kwargs -> ndarray -> option (list Qc -> list Qc -> Qc).
Variable create_folds :
  ndarray -> option ndarray -> Z -> option Z -> result ndarray.
Variable shares : bool.
Variable kind : parallel_output.

Lemma keeps_compute_dsm n data metric kw :
  Store.keeps n (Store.compute_dsm metric_fn data metric kw) (fun _ => True).
Proof.
  unfold Store.compute_dsm. do 2 keeps_seq.
  apply (keeps_bind _ _ _ (fun _ => True)); [apply keeps_np_reshape|].
  intros X _. keeps_seq_as x.
  destruct (shape x) as [|n_items [|n_features [|? ?]]];
    try apply keeps_lift.
  destruct (_ && _); [apply keeps_lift|].
  keeps_seq. eapply keeps_weaken; [apply keeps_new|trivial].
Qed.

Lemma keeps_cv_round n X X_mean n_folds metric kw dsm test_fold :
  n <= Store.base dsm ->
  Store.keeps n (Store.cv_round metric_fn X X_mean n_folds metric kw
                                dsm test_fold)
              (fun _ => True).
Proof.
  intros Hdsm. unfold Store.cv_round. do 2 keeps_seq.
  now apply keeps_iadd.
Qed.

Lemma keeps_compute_dsm_cv n folds metric kw :
  Store.keeps n (Store.compute_dsm_cv metric_fn folds metric kw)
              (fun _ => True).
Proof.
  unfold Store.compute_dsm_cv. do 3 keeps_seq.
  apply (keeps_bind _ _ _ (fun _ => True)); [apply keeps_np_reshape|].
  intros X _. keeps_seq_as x.
  destruct (shape x) as [|n_folds [|n_items [|n_features [|? ?]]]];
    try apply keeps_lift.
  destruct (_ && _); [apply keeps_lift|].
  (* the accumulator is new: the loop may write to it *)
  eapply keeps_bind; [apply keeps_new|]. intros dsm Hdsm. cbv beta in Hdsm.
  apply (keeps_bind _ _ _ (fun _ => True)).
  { keeps_seq. now apply keeps_ret. }
  intros X_mean _.
  apply (keeps_bind _ _ _ (fun _ => True)).
  { apply keeps_for_each. intros test_fold. now apply keeps_cv_round. }
  intros _ _. keeps_seq.
  eapply keeps_weaken; [apply keeps_new|trivial].
Qed.

Lemma keeps_call_dsm_func n k patch dist_metric dist_params :
  Store.keeps n (Store.call_dsm_func metric_fn k patch dist_metric dist_params)
              (fun _ => True).
Proof.
  unfold Store.call_dsm_func. keeps_seq.
  destruct (k =? 1); [apply keeps_compute_dsm|apply keeps_compute_dsm_cv].
Qed.

Lemma keeps_spat_step n folds dist spatial_radius k dist_metric dist_params
      i :
  Store.keeps n (Store.spat_step metric_fn folds dist spatial_radius k
                                 dist_metric dist_params i)
              (fun _ => True).
Proof.
  unfold Store.spat_step. do 3 keeps_seq.
  apply (keeps_bind _ _ _ (fun _ => True));
    [eapply keeps_weaken; [apply keeps_new|trivial]|].
  intros patch _. apply keeps_call_dsm_func.
Qed.

Lemma keeps_temp_step n folds temporal_radius k dist_metric dist_params
      center :
  Store.keeps n (Store.temp_step metric_fn folds temporal_radius k
                                 dist_metric dist_params center)
              (fun _ => True).
Proof.
  unfold Store.temp_step.
  apply (keeps_bind _ _ _ (fun _ => True)); [apply keeps_slice_last_view|].
  intros patch _. apply keeps_call_dsm_func.
Qed.

Lemma keeps_create_folds n data y n_folds n_jobs :
  Store.keeps n (Store.create_folds create_folds shares data y n_folds n_jobs)
              (fun _ => True).
Proof.
  unfold Store.create_folds. keeps_seq.
  apply (keeps_bind _ _ _ (fun _ => True)); [apply keeps_get_opt|].
  intros labels _. keeps_seq.
  destruct shares; [now apply keeps_ret|].
  eapply keeps_weaken; [apply keeps_new|trivial].
Qed.

Lemma frames_yield_each {A} n (steps : list (Store.M A)) :
  Forall (fun s => Store.keeps n s (fun _ => True)) steps ->
  Store.frames n (Store.yield_each steps).
Proof.
  induction 1 as [|s steps [Hs _] _ IH]; intros h Hh; cbn [Store.yield_each].
  - cbn. split; [lia|reflexivity].
  - destruct (Hs h Hh) as [Hlen Hfirst].
    destruct (s h) as [[e|v] h']; cbn [fst snd] in *; [now split|].
    destruct (IH h' ltac:(lia)) as [Hlen' Hfirst'].
    destruct (Store.yield_each steps h') as [t h'']; cbn [fst snd] in *.
    split; [lia|congruence].
Qed.

Lemma frames_yield_after {A B} n (setup : Store.M A)
      (body : A -> Store.G B) :
  Store.keeps n setup (fun _ => True) ->
  (forall a, Store.frames n (body a)) ->
  Store.frames n (Store.yield_after setup body).
Proof.
  intros [Hs _] Hbody h Hh. unfold Store.yield_after.
  destruct (Hs h Hh) as [Hlen Hfirst].
  destruct (setup h) as [[e|a] h']; cbn [fst snd] in *; [now split|].
  destruct (Hbody a h' ltac:(lia)) as [Hlen' Hfirst'].
  split; [lia|congruence].
Qed.

Lemma frames_dsm_spat n data dist spatial_radius dist_metric dist_params
      y n_folds :
  Store.frames n (Store.dsm_spat metric_fn create_folds shares data dist
                                 spatial_radius dist_metric dist_params
                                 y n_folds).
Proof.
  unfold Store.dsm_spat. apply frames_yield_after.
  - apply (keeps_bind _ _ _ (fun _ => True)); [apply keeps_create_folds|].
    intros folds _. do 4 keeps_seq. now apply keeps_ret.
  - intros [[folds k] n_series]. apply frames_yield_each.
    apply Forall_forall. intros step Hstep.
    apply in_map_iff in Hstep. destruct Hstep as (i & <- & _).
    apply keeps_spat_step.
Qed.

Lemma frames_dsm_temp n data temporal_radius dist_metric dist_params
      y n_folds :
  Store.frames n (Store.dsm_temp metric_fn create_folds shares data
                                 temporal_radius dist_metric dist_params
                                 y n_folds).
Proof.
  unfold Store.dsm_temp. apply frames_yield_after.
  - do 2 keeps_seq.
    apply (keeps_bind _ _ _ (fun _ => True)); [apply keeps_create_folds|].
    intros folds _. do 2 keeps_seq. now apply keeps_ret.
  - intros [[centers folds] k]. apply frames_yield_each.
    apply Forall_forall. intros step Hstep.
    apply in_map_iff in Hstep. destruct Hstep as (center & <- & _).
    apply keeps_temp_step.
Qed.

Lemma keeps_patch_task n folds dist spatial_radius temporal_radius k
      dist_metric dist_params series sample :
  Store.keeps n (Store.patch_task metric_fn folds dist spatial_radius
                                  temporal_radius k dist_metric dist_params
                                  series sample)
              (fun _ => True).
Proof.
  unfold Store.patch_task. do 4 keeps_seq.
  apply (keeps_bind _ _ _ (fun _ => True));
    [eapply keeps_weaken; [apply keeps_new|trivial]|].
  intros patch _. apply keeps_call_dsm_func.
Qed.

Lemma frames_dsm_spattemp n data dist spatial_radius temporal_radius
      dist_metric dist_params y n_folds n_jobs :
  Store.frames n (Store.dsm_spattemp metric_fn create_folds shares kind
                                     data dist
                                     spatial_radius temporal_radius
                                     dist_metric dist_params y n_folds
                                     n_jobs).
Proof.
  unfold Store.dsm_spattemp. apply frames_yield_after.
  - keeps_seq. keeps_seq_as dims. destruct dims as [n_series n_samples].
    apply (keeps_bind _ _ _ (fun _ => True)); [apply keeps_create_folds|].
    intros folds _. do 2 keeps_seq.
    apply (keeps_bind _ _ _ (fun _ => True)); [|intros; apply keeps_lift].
    apply keeps_run_all. apply Forall_forall. intros task Htask.
    apply in_flat_map in Htask. destruct Htask as (series & _ & Htask).
    apply in_map_iff in Htask. destruct Htask as (sample & <- & _).
    apply keeps_patch_task.
  - intros first h Hh. cbn. split; [lia|reflexivity].
Qed.

End Frame.

(* ================================================================== *)
(** * The store: the values are those of the functions above *)
(* ================================================================== *)

Lemma read_new (h : Store.heap) (a : ndarray) ext :
  Store.read (h ++ a :: ext) (Store.mk_ref (length h) (fun x => x)) = a.
Proof. unfold Store.read. cbn [Store.base Store.view]. apply nth_middle. Qed.

Lemma read_alive (h ext : Store.heap) (r : Store.ref) :
  Store.base r < length h -> Store.read (h ++ ext) r = Store.read h r.
Proof. intros H. unfold Store.read. now rewrite app_nth1. Qed.

Lemma update_last (h : Store.heap) (a b : ndarray) :
  Store.update (length h) b (h ++ [a]) = h ++ [b].
Proof.
  unfold Store.update. rewrite length_app. cbn [length].
  assert ((length h <? length h + 1) = true) as -> by (apply Nat.ltb_lt; lia).
  rewrite firstn_app, Nat.sub_diag, firstn_all. cbn [firstn].
  rewrite app_nil_r. f_equal. f_equal.
  rewrite skipn_all2; [reflexivity|]. rewrite length_app. cbn. lia.
Qed.

Lemma read_reshaped (h : Store.heap) (a : Store.ref) known :
  Store.read h (Store.mk_ref (Store.base a)
                  (fun cell => match reshape (Store.view a cell) known with
                               | inr y => y
                               | inl _ => Store.view a cell
                               end))
  = match reshape (Store.read h a) known with
    | inr y => y
    | inl _ => Store.read h a
    end.
Proof. reflexivity. Qed.

Section Values.

Variable metric_fn :
  string -> kwargs -> ndarray -> option (list Qc -> list Qc -> Qc).

(** [Store.compute_dsm] returns a new array that holds the value of
    [compute_dsm] on what the argument held, or raises what it raises. *)
Lemma store_compute_dsm_value (h : Store.heap) data metric kw :
  Store.computes (Store.compute_dsm metric_fn data metric kw)
                 (compute_dsm metric_fn (Store.read h data) metric kw) h.
Proof.
  unfold Store.computes.
  unfold Store.compute_dsm, compute_dsm, Store.np_reshape.
  unfold Store.bind, Store.get, Store.lift, Store.ret, Store.new.
  cbn [fst snd].
  destruct (len (Store.read h data)) as [e|n]; [reflexivity|].
  cbn [bind].
  destruct (reshape (Store.read h data) [n]) as [e|X] eqn:HX;
    [reflexivity|].
  cbn [bind]. rewrite !read_reshaped, !HX.
  destruct (shape X) as [|n_items [|n_features [|? ?]]]; try reflexivity.
  destruct ((n_features =? 1) && str_in metric ["correlation"; "cosine"]);
    [reflexivity|].
  destruct (pdist metric_fn X metric kw) as [e|dsm]; [reflexivity|].
  rewrite read_new, length_app. cbn [Store.base length]. split; [reflexivity|lia].
Qed.

(** The loop of [Store.compute_dsm_cv] keeps in the cell of [dsm] what the
    loop of [compute_dsm_cv] keeps in its accumulator. *)
Lemma store_cv_loop (h : Store.heap) X X_mean n_folds metric kw tests acc :
  Store.base X < length h ->
  let dsm := Store.mk_ref (length h) (fun x => x) in
  match Store.for_each tests
          (Store.cv_round metric_fn X X_mean n_folds metric kw dsm)
          (h ++ [acc]) with
  | (inr _, h') =>
      exists acc',
        h' = h ++ [acc'] /\
        fold_result (cv_step metric_fn (Store.read h X) X_mean n_folds
                             metric kw) tests acc = inr acc'
  | (inl e, h') =>
      (exists acc', h' = h ++ [acc']) /\
      fold_result (cv_step metric_fn (Store.read h X) X_mean n_folds
                           metric kw) tests acc = inl e
  end.
Proof.
  intros HX dsm. revert acc.
  induction tests as [|t tests IH]; intros acc;
    cbn [Store.for_each fold_result].
  - cbn. eauto.
  - unfold Store.bind at 1. unfold Store.cv_round at 1, cv_step at 1 3.
    unfold Store.bind, Store.get, Store.lift, Store.iadd.
    assert (Htest : Store.read (h ++ [acc]) (Store.item_view X t)
                    = item (Store.read h X) t).
    { unfold Store.read. cbn [Store.item_view Store.base Store.view].
      now rewrite app_nth1. }
    rewrite Htest.
    destruct (cdist metric_fn (x_train X_mean (item (Store.read h X) t) n_folds)
                    (item (Store.read h X) t) metric kw) as [e|dist].
    + cbn [bind]. split; [eauto|reflexivity].
    + cbn [bind ret]. subst dsm. cbn [Store.base].
      rewrite nth_middle, update_last. apply IH.
Qed.

(** [Store.compute_dsm_cv] returns a new array that holds the value of
    [compute_dsm_cv] on what the argument held, or raises what it
    raises. *)
Lemma store_compute_dsm_cv_value (h : Store.heap) folds metric kw :
  Store.base folds < length h ->
  Store.computes (Store.compute_dsm_cv metric_fn folds metric kw)
                 (compute_dsm_cv metric_fn (Store.read h folds) metric kw) h.
Proof.
  intros Halive. unfold Store.computes.
  unfold Store.compute_dsm_cv, compute_dsm_cv, Store.np_reshape.
  unfold Store.bind at 1 2 3 4 5 6 7.
  unfold Store.get at 1 2 3 4, Store.lift at 1 2 3, Store.ret at 1.
  cbn [fst snd].
  destruct (shape_at (Store.read h folds) 0) as [e|s0]; [reflexivity|].
  destruct (shape_at (Store.read h folds) 1) as [e|s1]; [reflexivity|].
  cbn [bind].
  destruct (reshape (Store.read h folds) [s0; s1]) as [e|X0] eqn:HX;
    [reflexivity|].
  cbn [bind].
  set (X := Store.mk_ref (Store.base folds) _).
  assert (HreadX : Store.read h X = X0).
  { unfold Store.read, X. cbn [Store.base Store.view].
    fold (Store.read h folds). now rewrite HX. }
  rewrite HreadX.
  destruct (shape X0) as [|n_folds [|n_items [|n_features [|? ?]]]];
    try reflexivity.
  destruct (_ && _); [reflexivity|].
  unfold Store.bind at 1. unfold Store.new at 1.
  unfold Store.bind at 1. unfold Store.bind at 1.
  unfold Store.get at 1, Store.ret at 1.
  rewrite (read_alive h _ X) by exact Halive. rewrite HreadX.
  unfold Store.bind at 1.
  pose proof (store_cv_loop h X (mean_axis0 X0) n_folds metric kw
                            (seq 0 n_folds)
                            (zeros (n_items * (n_items - 1) / 2)) Halive)
    as Hloop.
  cbv zeta in Hloop. rewrite HreadX in Hloop.
  destruct (Store.for_each _ _ _) as [[e|u] h'].
  - destruct Hloop as [_ ->]. reflexivity.
  - destruct Hloop as (acc' & -> & ->). cbn [bind ret].
    unfold Store.bind, Store.get, Store.new.
    rewrite (read_new h acc' []).
    replace (length (h ++ [acc'])) with (length h + 1)
      by (rewrite length_app; reflexivity).
    unfold Store.read. cbn [Store.base Store.view].
    rewrite <- app_assoc. cbn [app].
    rewrite app_nth2 by lia.
    replace (length h + 1 - length h) with 1 by lia.
    rewrite length_app. cbn [length nth]. split; [reflexivity|lia].
Qed.

End Values.

(* ================================================================== *)
(** * The arrays of the caller *)
(* ================================================================== *)

Lemma frames_read {X} (c : Store.heap -> X * Store.heap) (h : Store.heap)
      (r : Store.ref) :
  Store.frames (length h) c -> Store.base r < length h ->
  Store.read (snd (c h)) r = Store.read h r.
Proof.
  intros Hc Hr. destruct (Hc h (le_n _)) as [_ Hfirst].
  unfold Store.read. f_equal.
  rewrite <- (firstn_skipn (length h) (snd (c h))), Hfirst, firstn_all.
  now rewrite app_nth1.
Qed.

(** The store does see a write to an array of the caller: had the code
    updated its argument in place, the argument would read differently. *)
Lemma a_write_in_place_is_seen :
  Store.read (snd (Store.iadd Store.the_array three_scalars Store.one_array))
             Store.the_array
  <> Store.read Store.one_array Store.the_array.
Proof. apply nd_eqb_neq. vm_compute. reflexivity. Qed.

(** C10: every array object [r] that is alive when one of the five
    functions is called (the data, the distance matrix, the fold tensor,
    the labels, and any view of them) holds the same elements after the
    call, and after the generator has been run to its end. *)
Theorem caller_arrays_are_left_unchanged
        (metric_fn :
           string -> kwargs -> ndarray -> option (list Qc -> list Qc -> Qc))
        (create_folds :
           ndarray -> option ndarray -> Z -> option Z -> result ndarray)
        (folds_share_data : bool) (kind : parallel_output)
        (h : Store.heap) (r : Store.ref) :
  Store.base r < length h ->
  (forall data metric kw,
      Store.read (snd (Store.compute_dsm metric_fn data metric kw h)) r
      = Store.read h r)
  /\ (forall folds metric kw,
         Store.read (snd (Store.compute_dsm_cv metric_fn folds metric kw h)) r
         = Store.read h r)
  /\ (forall data dist spatial_radius dist_metric dist_params y n_folds,
         Store.read
           (snd (Store.dsm_spat metric_fn create_folds folds_share_data
                                data dist spatial_radius dist_metric
                                dist_params y n_folds h)) r
         = Store.read h r)
  /\ (forall data temporal_radius dist_metric dist_params y n_folds,
         Store.read
           (snd (Store.dsm_temp metric_fn create_folds folds_share_data
                                data temporal_radius dist_metric dist_params
                                y n_folds h)) r
         = Store.read h r)
  /\ (forall data dist spatial_radius temporal_radius dist_metric
             dist_params y n_folds n_jobs,
         Store.read
           (snd (Store.dsm_spattemp metric_fn create_folds folds_share_data
                                    kind data dist spatial_radius
                                    temporal_radius dist_metric dist_params
                                    y n_folds n_jobs h)) r
         = Store.read h r).
Proof.
  intros Hr. repeat split; intros; apply frames_read; try assumption.
  - apply keeps_compute_dsm.
  - apply keeps_compute_dsm_cv.
  - apply frames_dsm_spat.
  - apply frames_dsm_temp.
  - apply frames_dsm_spattemp.
Qed.

Lemma caller_arrays_are_left_unchanged_witness :
  Store.read
    (snd (Store.compute_dsm sqeuclidean_only Store.the_array
                            "sqeuclidean" [] Store.one_array))
    Store.the_array
  = Store.read Store.one_array Store.the_array.
Proof.
  apply (caller_arrays_are_left_unchanged
           sqeuclidean_only wrap_single_fold true AsList
           Store.one_array Store.the_array).
  cbn. lia.
Defined.

(* ================================================================== *)
(** * The store: the traces are those of the generators above *)
(* ================================================================== *)

Lemma extends_length (h0 h : Store.heap) :
  firstn (length h0) h = h0 -> length h0 <= length h.
Proof.
  intros H. apply (f_equal (@length _)) in H.
  rewrite length_firstn in H. lia.
Qed.

Lemma extends_read (h0 h : Store.heap) (r : Store.ref) :
  firstn (length h0) h = h0 -> Store.base r < length h0 ->
  Store.read h r = Store.read h0 r.
Proof.
  intros H Hr. unfold Store.read. f_equal.
  rewrite <- (firstn_skipn (length h0) h), H. now rewrite app_nth1.
Qed.

Lemma extends_keeps {A} (h0 h : Store.heap) (m : Store.M A) Q :
  Store.keeps (length h0) m Q -> firstn (length h0) h = h0 ->
  firstn (length h0) (snd (m h)) = h0.
Proof.
  intros [Hm _] H. destruct (Hm h (extends_length h0 h H)) as [_ Hfirst].
  congruence.
Qed.

Lemma get_opt_value (h : Store.heap) (y : option Store.ref) :
  Store.get_opt y h = (inr (option_map (Store.read h) y), h).
Proof. destruct y; reflexivity. Qed.

Lemma Forall2_map_both {A B C} (R : B -> C -> Prop) (f : A -> B) (g : A -> C)
      (l : list A) :
  (forall x, In x l -> R (f x) (g x)) -> Forall2 R (map f l) (map g l).
Proof.
  induction l as [|x l IH]; intros H; cbn; constructor.
  - apply H. now left.
  - apply IH. intros y Hy. apply H. now right.
Qed.

(** A loop of yields in the store and the same loop on values, step by
    step: the array objects yielded hold, at the end, the values
    yielded. *)
Lemma yield_each_values (h0 : Store.heap) (steps : list (Store.M Store.ref))
      (vals : list (result ndarray)) :
  Forall2 (fun s v =>
             (forall n, Store.keeps n s (fun _ => True)) /\
             (forall h, firstn (length h0) h = h0 -> Store.computes s v h))
          steps vals ->
  forall h, firstn (length h0) h = h0 ->
  map (Store.read (snd (Store.yield_each steps h)))
      (yielded (fst (Store.yield_each steps h)))
  = yielded (yield_each vals)
  /\ stopped (fst (Store.yield_each steps h)) = stopped (yield_each vals).
Proof.
  induction 1 as [|s v steps vals [Hkeeps Hval] Hrest IH]; intros h Hh.
  - cbn. now split.
  - cbn [Store.yield_each yield_each].
    specialize (Hval h Hh). unfold Store.computes in Hval.
    pose proof (extends_keeps h0 h s _ (Hkeeps (length h0)) Hh) as Hh1.
    destruct (s h) as [[e|out] h1]; cbn [fst snd] in *.
    + subst v. cbn. now split.
    + destruct Hval as [-> Hout].
      destruct (IH h1 Hh1) as [IHy IHs].
      assert (Hframes : Store.frames (length h1) (Store.yield_each steps)).
      { apply frames_yield_each. clear -Hrest.
        induction Hrest as [|s' v' ? ? [Hk _] _ IH']; constructor.
        - apply Hk.
        - exact IH'. }
      pose proof (frames_read (Store.yield_each steps) h1 out Hframes Hout)
        as Hread.
      destruct (Store.yield_each steps h1) as [t h2]; cbn [fst snd] in *.
      split; [|exact IHs]. cbn [map yielded]. now rewrite Hread, IHy.
Qed.

Section Traces.

Variable metric_fn :
  string -> kwargs -> ndarray -> option (list Qc -> list Qc -> Qc).
Variable create_folds :
  ndarray -> option ndarray -> Z -> option Z -> result ndarray.
Variable shares : bool.
Variable kind : parallel_output.

Lemma computes_call_dsm_func (h : Store.heap) n patch dist_metric dist_params :
  Store.base patch < length h ->
  Store.computes
    (Store.call_dsm_func metric_fn n patch dist_metric dist_params)
    (call_dsm_func metric_fn n (Store.read h patch) dist_metric dist_params)
    h.
Proof.
  intros Halive. destruct dist_params as [kw|]; [|reflexivity].
  unfold call_dsm_func, select_dsm_func. cbn [expand_kwargs bind ret].
  unfold Store.computes, Store.call_dsm_func, Store.bind, Store.lift.
  cbn [expand_kwargs ret].
  destruct (n =? 1).
  - apply store_compute_dsm_value.
  - now apply store_compute_dsm_cv_value.
Qed.

Lemma computes_create_folds (h : Store.heap) data y n_folds n_jobs :
  Store.base data < length h ->
  Store.computes
    (Store.create_folds create_folds shares data y n_folds n_jobs)
    (create_folds (Store.read h data) (option_map (Store.read h) y)
                  n_folds n_jobs)
    h.
Proof.
  intros Halive.
  unfold Store.computes, Store.create_folds.
  unfold Store.bind at 1 2 3. unfold Store.get at 1, Store.lift at 1.
  rewrite get_opt_value.
  destruct (create_folds (Store.read h data) (option_map (Store.read h) y)
                         n_folds n_jobs) as [e|f] eqn:Hf; [reflexivity|].
  destruct shares.
  - cbn [Store.ret Store.base]. split; [|exact Halive].
    unfold Store.read at 1. cbn [Store.base Store.view].
    fold (Store.read h data). now rewrite Hf.
  - unfold Store.new. rewrite read_new, length_app.
    cbn [Store.base length]. split; [reflexivity|lia].
Qed.

(** One step of [Store.dsm_spat] computes the step of [dsm_spat]. *)
Lemma computes_spat_step (h0 h : Store.heap) dist folds spatial_radius n
      dist_metric dist_params i :
  firstn (length h0) h = h0 ->
  Store.base dist < length h0 -> Store.base folds < length h0 ->
  Store.computes
    (Store.spat_step metric_fn folds dist spatial_radius n dist_metric
                     dist_params i)
    (patch <- take_axis2 (Store.read h0 folds)
                (neighborhood (item (Store.read h0 dist) i) spatial_radius) ;;
     call_dsm_func metric_fn n patch dist_metric dist_params)
    h.
Proof.
  intros Hh Hdist Hfolds. unfold Store.computes, Store.spat_step.
  unfold Store.bind at 1 2 3 4. unfold Store.get, Store.lift.
  assert (Hrow : Store.read h (Store.item_view dist i)
                 = item (Store.read h0 dist) i).
  { rewrite <- (extends_read h0 h dist Hh Hdist). reflexivity. }
  rewrite Hrow, (extends_read h0 h folds Hh Hfolds).
  destruct (take_axis2 _ _) as [e|patch]; [reflexivity|].
  cbn [bind]. unfold Store.new.
  pose proof (computes_call_dsm_func (h ++ [patch])
                n (Store.mk_ref (length h) (fun x => x))
                dist_metric dist_params) as Hcall.
  rewrite read_new in Hcall. apply Hcall.
  rewrite length_app. cbn. lia.
Qed.

(** One step of [Store.dsm_temp] computes the step of [dsm_temp]. *)
Lemma computes_temp_step (h0 h : Store.heap) folds temporal_radius n
      dist_metric dist_params center :
  firstn (length h0) h = h0 -> Store.base folds < length h0 ->
  Store.computes
    (Store.temp_step metric_fn folds temporal_radius n dist_metric
                     dist_params center)
    (patch <- slice_last (Store.read h0 folds) (center - temporal_radius)
                         (center + temporal_radius) ;;
     call_dsm_func metric_fn n patch dist_metric dist_params)
    h.
Proof.
  intros Hh Hfolds.
  unfold Store.computes, Store.temp_step, Store.slice_last_view.
  unfold Store.bind at 1 2 3. unfold Store.get, Store.lift, Store.ret.
  rewrite (extends_read h0 h folds Hh Hfolds).
  destruct (slice_last (Store.read h0 folds) _ _) as [e|patch] eqn:Hp;
    [reflexivity|].
  cbn [bind].
  set (view := Store.mk_ref (Store.base folds) _).
  assert (Hview : Store.read h view = patch).
  { unfold Store.read, view. cbn [Store.base Store.view].
    fold (Store.read h folds).
    now rewrite (extends_read h0 h folds Hh Hfolds), Hp. }
  rewrite <- Hview. apply computes_call_dsm_func.
  cbn [view Store.base]. pose proof (extends_length h0 h Hh). lia.
Qed.

Lemma store_dsm_spat_unfold (h : Store.heap) data dist spatial_radius
      dist_metric dist_params y n_folds :
  Store.dsm_spat metric_fn create_folds shares data dist spatial_radius
                 dist_metric dist_params y n_folds h
  = match Store.create_folds create_folds shares data y n_folds None h with
    | (inl e, h1) => (mk_trace [] (Raised e), h1)
    | (inr folds, h1) =>
        match len (Store.read h1 folds) with
        | inl e => (mk_trace [] (Raised e), h1)
        | inr n =>
            match iter (Store.read h1 dist) with
            | inl e => (mk_trace [] (Raised e), h1)
            | inr series =>
                Store.yield_each
                  (map (Store.spat_step metric_fn folds dist spatial_radius
                                        n dist_metric dist_params)
                       (seq 0 (length series))) h1
            end
        end
    end.
Proof.
  unfold Store.dsm_spat, Store.yield_after. unfold Store.bind at 1.
  destruct (Store.create_folds _ _ _ _ _ _ h) as [[e|folds] h1];
    [reflexivity|].
  unfold Store.bind, Store.get, Store.lift, Store.ret.
  destruct (len (Store.read h1 folds)) as [e|n]; [reflexivity|].
  destruct (iter (Store.read h1 dist)) as [e|series]; reflexivity.
Qed.

Lemma store_dsm_temp_unfold (h : Store.heap) data temporal_radius
      dist_metric dist_params y n_folds :
  Store.dsm_temp metric_fn create_folds shares data temporal_radius
                 dist_metric dist_params y n_folds h
  = match last_dim (Store.read h data) with
    | inl e => (mk_trace [] (Raised e), h)
    | inr n_samples =>
        match Store.create_folds create_folds shares data y n_folds None h
        with
        | (inl e, h1) => (mk_trace [] (Raised e), h1)
        | (inr folds, h1) =>
            match len (Store.read h1 folds) with
            | inl e => (mk_trace [] (Raised e), h1)
            | inr n =>
                Store.yield_each
                  (map (Store.temp_step metric_fn folds temporal_radius n
                                        dist_metric dist_params)
                       (_get_time_patch_centers (Z.of_nat n_samples)
                                                temporal_radius)) h1
            end
        end
    end.
Proof.
  unfold Store.dsm_temp, Store.yield_after.
  unfold Store.bind at 1. unfold Store.get at 1.
  unfold Store.bind at 1. unfold Store.lift at 1.
  destruct (last_dim (Store.read h data)) as [e|n_samples]; [reflexivity|].
  unfold Store.bind at 1.
  destruct (Store.create_folds _ _ _ _ _ _ h) as [[e|folds] h1];
    [reflexivity|].
  unfold Store.bind, Store.get, Store.lift, Store.ret.
  destruct (len (Store.read h1 folds)) as [e|n]; reflexivity.
Qed.

(** The DSMs that [Store.dsm_spat] yields hold the values that [dsm_spat]
    yields on what the arguments held, and both stop the same way. *)
Lemma store_dsm_spat_trace (h : Store.heap) data dist spatial_radius
      dist_metric dist_params y n_folds :
  Store.base data < length h -> Store.base dist < length h ->
  let run := Store.dsm_spat metric_fn create_folds shares data dist
                            spatial_radius dist_metric dist_params
                            y n_folds h in
  let expected := dsm_spat metric_fn create_folds (Store.read h data)
                           (Store.read h dist) spatial_radius dist_metric
                           dist_params (option_map (Store.read h) y)
                           n_folds in
  map (Store.read (snd run)) (yielded (fst run)) = yielded expected
  /\ stopped (fst run) = stopped expected.
Proof.
  intros Hdata Hdist run expected. subst run expected.
  rewrite store_dsm_spat_unfold. unfold dsm_spat, yield_after.
  pose proof (computes_create_folds h data y n_folds None Hdata) as Hcf.
  pose proof (keeps_create_folds create_folds shares (length h)
                                 data y n_folds None) as [Hframe _].
  specialize (Hframe h (le_n _)). unfold Store.computes in Hcf.
  destruct (Store.create_folds create_folds shares data y n_folds None h)
    as [[e|folds] h1]; cbn [fst snd] in Hframe.
  - rewrite Hcf. cbn. now split.
  - destruct Hcf as [-> Hfolds]. destruct Hframe as [Hlen Hh1].
    rewrite firstn_all in Hh1. cbn [bind].
    destruct (len (Store.read h1 folds)) as [e|n]; [cbn; now split|].
    assert (Hd : Store.read h1 dist = Store.read h dist).
    { apply extends_read; [exact Hh1|exact Hdist]. }
    rewrite Hd. unfold iter. cbn [bind].
    destruct (shape (Store.read h dist)) as [|k rest] eqn:Hs;
      [cbn; now split|].
    cbn [bind ret]. unfold items. rewrite Hs. cbn [hd].
    rewrite length_map, length_seq, map_map.
    apply yield_each_values with (h0 := h1); [|apply firstn_all].
    apply Forall2_map_both. intros i _. split.
    + intros m. apply keeps_spat_step.
    + intros h2 Hh2. rewrite <- Hd.
      apply computes_spat_step; [exact Hh2|lia|exact Hfolds].
Qed.

(** The same for [Store.dsm_temp] and [dsm_temp]. *)
Lemma store_dsm_temp_trace (h : Store.heap) data temporal_radius
      dist_metric dist_params y n_folds :
  Store.base data < length h ->
  let run := Store.dsm_temp metric_fn create_folds shares data
                            temporal_radius dist_metric dist_params
                            y n_folds h in
  let expected := dsm_temp metric_fn create_folds (Store.read h data)
                           temporal_radius dist_metric dist_params
                           (option_map (Store.read h) y) n_folds in
  map (Store.read (snd run)) (yielded (fst run)) = yielded expected
  /\ stopped (fst run) = stopped expected.
Proof.
  intros Hdata run expected. subst run expected.
  rewrite store_dsm_temp_unfold. unfold dsm_temp, yield_after.
  destruct (last_dim (Store.read h data)) as [e|n_samples];
    [cbn; now split|].
  cbn [bind].
  pose proof (computes_create_folds h data y n_folds None Hdata) as Hcf.
  pose proof (keeps_create_folds create_folds shares (length h)
                                 data y n_folds None) as [Hframe _].
  specialize (Hframe h (le_n _)). unfold Store.computes in Hcf.
  destruct (Store.create_folds create_folds shares data y n_folds None h)
    as [[e|folds] h1]; cbn [fst snd] in Hframe.
  - rewrite Hcf. cbn. now split.
  - destruct Hcf as [-> Hfolds]. destruct Hframe as [Hlen Hh1].
    rewrite firstn_all in Hh1. cbn [bind].
    destruct (len (Store.read h1 folds)) as [e|n]; [cbn; now split|].
    cbn [bind ret].
    apply yield_each_values with (h0 := h1); [|apply firstn_all].
    apply Forall2_map_both. intros center _. split.
    + intros m. apply keeps_temp_step.
    + intros h2 Hh2. now apply computes_temp_step.
Qed.

(** The tasks of [Parallel] in the store and on values, task by task. *)
Lemma run_all_values (h0 : Store.heap) (tasks : list (Store.M Store.ref))
      (vals : list (result ndarray)) :
  Forall2 (fun s v =>
             (forall n, Store.keeps n s (fun _ => True)) /\
             (forall h, firstn (length h0) h = h0 -> Store.computes s v h))
          tasks vals ->
  forall h, firstn (length h0) h = h0 ->
  match Store.run_all tasks h with
  | (inr outs, h') => Parallel vals = inr (map (Store.read h') outs)
  | (inl e, _) => Parallel vals = inl e
  end.
Proof.
  unfold Parallel.
  induction 1 as [|s v tasks vals [Hkeeps Hval] Hrest IH]; intros h Hh.
  - reflexivity.
  - cbn [Store.run_all map_result]. unfold Store.bind at 1.
    specialize (Hval h Hh). unfold Store.computes in Hval.
    pose proof (extends_keeps h0 h s _ (Hkeeps (length h0)) Hh) as Hh1.
    destruct (s h) as [[e|out] h1]; cbn [fst snd] in *.
    + now subst v.
    + destruct Hval as [-> Hout]. cbn [bind].
      specialize (IH h1 Hh1).
      assert (Hframes : Store.frames (length h1) (Store.run_all tasks)).
      { apply keeps_run_all. clear -Hrest.
        induction Hrest as [|s' v' ? ? [Hk _] _ IH']; constructor.
        - apply Hk.
        - exact IH'. }
      pose proof (frames_read (Store.run_all tasks) h1 out Hframes Hout)
        as Hread.
      unfold Store.bind at 1.
      destruct (Store.run_all tasks h1) as [[e|outs] h2]; cbn [fst snd] in *.
      * now rewrite IH.
      * rewrite IH. cbn [bind ret Store.ret map]. now rewrite Hread.
Qed.

Lemma next_of_parallel_map {A B} (f : A -> B) (outs : list A) :
  next_of_parallel kind (map f outs)
  = match next_of_parallel kind outs with
    | inr out => inr (f out)
    | inl e => inl e
    end.
Proof. destruct kind; [reflexivity|]. destruct outs; reflexivity. Qed.

(** One task of [Store.dsm_spattemp] computes the task of
    [dsm_spattemp]. *)
Lemma computes_patch_task (h0 h : Store.heap) folds dist spatial_radius
      temporal_radius n dist_metric dist_params series sample :
  firstn (length h0) h = h0 ->
  Store.base dist < length h0 -> Store.base folds < length h0 ->
  Store.computes
    (Store.patch_task metric_fn folds dist spatial_radius temporal_radius n
                      dist_metric dist_params series sample)
    (patch <- (row <- getitem (Store.read h0 dist) series ;;
               if ndim (Store.read h0 folds) <? 4
               then raise (IndexError "too many indices for array")
               else
                 windowed <- slice_last (Store.read h0 folds)
                                        (sample - temporal_radius)
                                        (sample + temporal_radius) ;;
                 take_axis2 windowed (neighborhood row spatial_radius)) ;;
     call_dsm_func metric_fn n patch dist_metric dist_params)
    h.
Proof.
  intros Hh Hdist Hfolds. unfold Store.computes, Store.patch_task.
  unfold Store.bind at 1 2 3 4 5. unfold Store.get, Store.lift.
  rewrite (extends_read h0 h dist Hh Hdist).
  rewrite (extends_read h0 h folds Hh Hfolds).
  destruct (getitem (Store.read h0 dist) series) as [e|row]; [reflexivity|].
  cbn [bind].
  destruct (if ndim (Store.read h0 folds) <? 4 then _ else _) as [e|patch];
    [reflexivity|].
  cbn [bind]. unfold Store.new.
  pose proof (computes_call_dsm_func (h ++ [patch])
                n (Store.mk_ref (length h) (fun x => x))
                dist_metric dist_params) as Hcall.
  rewrite read_new in Hcall. apply Hcall.
  rewrite length_app. cbn. lia.
Qed.

Lemma flat_map_pairs {A B C} (f : A -> B -> C) (l : list A) (l' : list B) :
  flat_map (fun a => map (f a) l') l
  = map (fun ab => f (fst ab) (snd ab)) (list_prod l l').
Proof.
  induction l as [|a l IH]; [reflexivity|].
  cbn [flat_map list_prod]. now rewrite map_app, map_map, IH.
Qed.

Lemma store_dsm_spattemp_unfold (h : Store.heap) data dist spatial_radius
      temporal_radius dist_metric dist_params y n_folds n_jobs :
  Store.dsm_spattemp metric_fn create_folds shares kind data dist
                     spatial_radius temporal_radius dist_metric dist_params
                     y n_folds n_jobs h
  = match shape (Store.read h data) with
    | [_; n_series; n_samples] =>
        match Store.create_folds create_folds shares data y n_folds
                                 (Some n_jobs) h with
        | (inl e, h1) => (mk_trace [] (Raised e), h1)
        | (inr folds, h1) =>
            match len (Store.read h1 folds) with
            | inl e => (mk_trace [] (Raised e), h1)
            | inr n =>
                match Store.run_all
                        (flat_map
                           (fun series =>
                              map (Store.patch_task
                                     metric_fn folds dist spatial_radius
                                     temporal_radius n dist_metric
                                     dist_params series)
                                  (_get_time_patch_centers
                                     (Z.of_nat n_samples) temporal_radius))
                           (seq 0 n_series)) h1 with
                | (inl e, h2) => (mk_trace [] (Raised e), h2)
                | (inr outs, h2) =>
                    match next_of_parallel kind outs with
                    | inl e => (mk_trace [] (Raised e), h2)
                    | inr first => (mk_trace [first] StopIteration, h2)
                    end
                end
            end
        end
    | _ => (mk_trace [] (Raised (ValueError
                                   "wrong number of values to unpack")), h)
    end.
Proof.
  unfold Store.dsm_spattemp, Store.yield_after.
  unfold Store.bind at 1. unfold Store.get at 1.
  unfold Store.bind at 1. unfold Store.lift at 1.
  destruct (shape (Store.read h data))
    as [|n_items [|n_series [|n_samples [|d3 ds]]]]; try reflexivity.
  unfold Store.bind at 1.
  destruct (Store.create_folds _ _ _ _ _ _ h) as [[e|folds] h1];
    [reflexivity|].
  unfold Store.bind at 1. unfold Store.get at 1.
  unfold Store.bind at 1. unfold Store.lift at 1.
  destruct (len (Store.read h1 folds)) as [e|n]; [reflexivity|].
  unfold Store.bind at 1.
  destruct (Store.run_all _ h1) as [[e|outs] h2]; [reflexivity|].
  unfold Store.lift.
  destruct (next_of_parallel kind outs); reflexivity.
Qed.

(** The same for [Store.dsm_spattemp] and [dsm_spattemp]. *)
Lemma store_dsm_spattemp_trace (h : Store.heap) data dist spatial_radius
      temporal_radius dist_metric dist_params y n_folds n_jobs :
  Store.base data < length h -> Store.base dist < length h ->
  let run := Store.dsm_spattemp metric_fn create_folds shares kind data dist
                                spatial_radius temporal_radius dist_metric
                                dist_params y n_folds n_jobs h in
  let expected := dsm_spattemp metric_fn create_folds kind
                               (Store.read h data) (Store.read h dist)
                               spatial_radius temporal_radius dist_metric
                               dist_params (option_map (Store.read h) y)
                               n_folds n_jobs in
  map (Store.read (snd run)) (yielded (fst run)) = yielded expected
  /\ stopped (fst run) = stopped expected.
Proof.
  intros Hdata Hdist run expected. subst run expected.
  rewrite store_dsm_spattemp_unfold. unfold dsm_spattemp, yield_after.
  destruct (shape (Store.read h data))
    as [|n_items [|n_series [|n_samples [|d3 ds]]]];
    try (cbn; now split).
  cbn [bind ret].
  pose proof (computes_create_folds h data y n_folds (Some n_jobs) Hdata)
    as Hcf.
  pose proof (keeps_create_folds create_folds shares (length h)
                                 data y n_folds (Some n_jobs)) as [Hframe _].
  specialize (Hframe h (le_n _)). unfold Store.computes in Hcf.
  destruct (Store.create_folds create_folds shares data y n_folds
                               (Some n_jobs) h)
    as [[e|folds] h1]; cbn [fst snd] in Hframe.
  - rewrite Hcf. cbn. now split.
  - destruct Hcf as [-> Hfolds]. destruct Hframe as [Hlen Hh1].
    rewrite firstn_all in Hh1. cbn [bind].
    destruct (len (Store.read h1 folds)) as [e|n]; [cbn; now split|].
    cbn [bind].
    assert (Hd : Store.read h1 dist = Store.read h dist).
    { apply extends_read; [exact Hh1|exact Hdist]. }
    rewrite patch_iterator_order, map_map, flat_map_pairs.
    match goal with
    | |- context [Parallel ?vals] =>
        pose proof (run_all_values h1
                      (map (fun sc =>
                              Store.patch_task
                                metric_fn folds dist spatial_radius
                                temporal_radius n dist_metric dist_params
                                (fst sc) (snd sc))
                           (list_prod (seq 0 n_series)
                              (_get_time_patch_centers (Z.of_nat n_samples)
                                                       temporal_radius)))
                      vals) as Hrun
    end.
    lapply Hrun.
    + clear Hrun. intros Hrun. specialize (Hrun h1 (firstn_all _)).
      destruct (Store.run_all _ h1) as [[e|outs] h2].
      * rewrite Hrun. cbn. now split.
      * rewrite Hrun. cbn [bind fst snd]. rewrite next_of_parallel_map.
        destruct (next_of_parallel kind outs) as [e|first]; cbn; now split.
    + apply Forall2_map_both. intros [series sample] _. cbn [fst snd]. split.
      * intros m. apply keeps_patch_task.
      * intros h2 Hh2. rewrite <- Hd.
        apply computes_patch_task; [exact Hh2|lia|exact Hfolds].
Qed.

End Traces.

(* ================================================================== *)
(** * Searchlight patches: what they hold *)
(* ================================================================== *)

Lemma flat_map_length_in {A B} (f : A -> list B) (l : list A) c :
  (forall x, In x l -> length (f x) = c) ->
  length (flat_map f l) = length l * c.
Proof.
  induction l as [|x l IH]; intros H; cbn; [reflexivity|].
  rewrite length_app, H, IH; [reflexivity| |now left].
  intros y Hy. apply H. now right.
Qed.

Lemma flat_map_flat_map_concat {A B C} (f : A -> B -> list C)
      (l : list A) (l' : list B) :
  flat_map (fun a => flat_map (f a) l') l
  = concat (flat_map (fun a => map (f a) l') l).
Proof.
  induction l as [|a l IH]; [reflexivity|].
  cbn [flat_map]. rewrite concat_app, IH. f_equal. apply flat_map_concat_map.
Qed.

Lemma prod_app (l l' : list nat) : prod (l ++ l') = prod l * prod l'.
Proof.
  induction l as [|x l IH]; cbn [app prod fold_right].
  - fold (prod l'). lia.
  - fold (prod (l ++ l')). fold (prod l). rewrite IH. lia.
Qed.

Lemma block_fits (m b n2 j B len : nat) :
  b < B -> j < n2 -> len = B * n2 * m -> S (b * n2 + j) * m <= len.
Proof.
  intros Hb Hj ->. apply Nat.mul_le_mono_r.
  assert (S b * n2 <= B * n2) by (apply Nat.mul_le_mono_r; lia). lia.
Qed.

(** [a[:, :, idx]] on a well-formed array with in-range indices: the
    third axis gets the length of [idx], and the block of fold-and-item
    [b] at position [k] is the block of [a] at index [idx[k]]. *)
Lemma take_axis2_blocks (a : ndarray) n0 n1 n2 rest (idx : list nat) :
  wf a -> shape a = n0 :: n1 :: n2 :: rest ->
  Forall (fun j => j < n2) idx ->
  exists p,
    take_axis2 a idx = ret p /\
    shape p = n0 :: n1 :: length idx :: rest /\
    wf p /\
    forall b k, b < n0 * n1 -> k < length idx ->
                block (prod rest) (b * length idx + k) (buf p)
                = block (prod rest) (b * n2 + nth k idx 0) (buf a).
Proof.
  intros Hwf Hs Hidx. unfold take_axis2. rewrite Hs.
  assert (Hin : forallb (fun j => j <? n2) idx = true).
  { apply forallb_forall. intros j Hj. apply Nat.ltb_lt.
    rewrite Forall_forall in Hidx. now apply Hidx. }
  rewrite Hin. eexists. split; [reflexivity|]. cbn [shape buf].
  assert (Hlen : length (buf a) = n0 * n1 * n2 * prod rest).
  { unfold wf in Hwf. rewrite Hwf, Hs.
    change (prod (n0 :: n1 :: n2 :: rest))
      with (n0 * (n1 * (n2 * prod rest))). lia. }
  assert (Hblocks :
            Forall (fun c => length c = prod rest)
                   (flat_map
                      (fun b => map (fun j => block (prod rest) (b * n2 + j)
                                                    (buf a)) idx)
                      (seq 0 (n0 * n1)))).
  { apply Forall_forall. intros c Hc. apply in_flat_map in Hc.
    destruct Hc as (b & Hb & Hc). apply in_seq in Hb.
    apply in_map_iff in Hc. destruct Hc as (j & <- & Hj).
    rewrite Forall_forall in Hidx. apply block_length.
    apply (block_fits _ b n2 j (n0 * n1)); [lia|now apply Hidx|exact Hlen]. }
  split; [reflexivity|]. split.
  - unfold wf. cbn [shape buf].
    change (prod (n0 :: n1 :: length idx :: rest))
      with (n0 * (n1 * (length idx * prod rest))).
    rewrite (flat_map_length_in _ _ (length idx * prod rest)).
    + rewrite length_seq. lia.
    + intros b Hb. apply in_seq in Hb.
      apply flat_map_length_in. intros j Hj.
      rewrite Forall_forall in Hidx. apply block_length.
      apply (block_fits _ b n2 j (n0 * n1)); [lia|now apply Hidx|exact Hlen].
  - intros b k Hb Hk. rewrite flat_map_flat_map_concat.
    rewrite block_concat; [|exact Hblocks|].
    + rewrite (nth_grid (fun b j => block (prod rest) (b * n2 + j) (buf a))
                        (seq 0 (n0 * n1)) idx b k 0 0 [])
        by (rewrite ?length_seq; assumption).
      now rewrite seq_nth.
    + rewrite (flat_map_length_const _ _ (length idx))
        by (intros; apply length_map).
      rewrite length_seq. nia.
Qed.

(** [a[..., lo:hi]] never fails on an array with an axis and keeps it
    well-formed, wherever the bounds fall. *)
Lemma slice_last_wf (a : ndarray) pre t lo hi :
  wf a -> shape a = pre ++ [t] ->
  exists p,
    slice_last a lo hi = ret p /\
    shape p = pre ++ [slice_bound t hi - slice_bound t lo] /\
    wf p.
Proof.
  intros Hwf Hs. unfold slice_last. rewrite Hs.
  destruct (pre ++ [t]) as [|x l] eqn:E; [now destruct pre|]. rewrite <- E.
  rewrite last_last, removelast_last.
  eexists. split; [reflexivity|]. split; [reflexivity|].
  unfold wf. cbn [shape buf]. rewrite prod_app.
  change (prod [slice_bound t hi - slice_bound t lo])
    with ((slice_bound t hi - slice_bound t lo) * 1).
  rewrite Nat.mul_1_r.
  rewrite (flat_map_length_in _ _ (slice_bound t hi - slice_bound t lo)).
  - now rewrite length_seq.
  - intros c Hc. apply in_seq in Hc.
    rewrite length_firstn, length_skipn.
    unfold wf in Hwf. rewrite Hwf, Hs, <- E, prod_app.
    change (prod [t]) with (t * 1). rewrite Nat.mul_1_r.
    assert (slice_bound t hi <= t)
      by (unfold slice_bound; destruct (Z.ltb_spec hi 0); lia).
    assert (S c * t <= prod pre * t) by (apply Nat.mul_le_mono_r; lia).
    lia.
Qed.

Lemma slice_bound_inside t (i : Z) :
  (0 <= i <= Z.of_nat t)%Z -> slice_bound t i = Z.to_nat i.
Proof.
  intros H. unfold slice_bound.
  destruct (i <? 0)%Z eqn:E; [apply Z.ltb_lt in E; lia|]. f_equal. lia.
Qed.

(* ================================================================== *)
(** * [compute_dsm]: the condensed form it returns *)
(* ================================================================== *)

Lemma triu_indices_split n i :
  i < n ->
  triu_indices n 1 n
  = triu_indices i 1 n ++ map (pair i) (seq (i + 1) (n - (i + 1)))
    ++ flat_map (fun i' => map (pair i') (seq (i' + 1) (n - (i' + 1))))
                (seq (S i) (n - S i)).
Proof.
  intros Hi. unfold triu_indices.
  replace n with (i + S (n - S i)) at 1 by lia.
  rewrite seq_app, flat_map_app. cbn [seq flat_map Nat.add]. reflexivity.
Qed.

Lemma triu_indices_prefix_length n i :
  i < n -> length (triu_indices i 1 n) = (i * (2 * n - i - 1)) / 2.
Proof.
  intros Hi. pose proof (triu_indices_length_upto n i ltac:(lia)) as H.
  assert (E : i * (2 * n - i - 1) = length (triu_indices i 1 n) * 2) by nia.
  rewrite E. now rewrite Nat.div_mul.
Qed.

(** The pair [(i, j)] sits at [condensed_index n i j]. *)
Lemma triu_indices_nth n i j :
  i < j -> j < n ->
  nth (condensed_index n i j) (triu_indices n 1 n) (0, 0) = (i, j).
Proof.
  intros Hij Hj. unfold condensed_index.
  rewrite <- (triu_indices_prefix_length n i) by lia.
  rewrite (triu_indices_split n i) by lia.
  rewrite app_nth2 by lia.
  replace (length (triu_indices i 1 n) + (j - i - 1)
           - length (triu_indices i 1 n)) with (j - i - 1) by lia.
  rewrite app_nth1 by (rewrite length_map, length_seq; lia).
  rewrite (nth_indep _ (0, 0) (i, 0)) by (rewrite length_map, length_seq; lia).
  rewrite (map_nth (pair i)), seq_nth by lia. f_equal. lia.
Qed.

Lemma rows_of_matrix n k (b : list Qc) i :
  i < n -> nth i (rows (mk_ndarray [n; k] b)) [] = block k i b.
Proof.
  intros Hi. unfold rows, items, item. cbn [shape hd tl buf].
  rewrite map_map.
  rewrite (nth_indep _ [] (block (prod [k]) 0 b))
    by now rewrite length_map, length_seq.
  rewrite (map_nth (fun i => block (prod [k]) i b)), seq_nth by assumption.
  change (prod [k]) with (k * 1). now rewrite Nat.mul_1_r.
Qed.

Section Condensed_form.

Variable metric_fn :
  string -> kwargs -> ndarray -> option (list Qc -> list Qc -> Qc).

Lemma compute_dsm_value data n rest metric kw d :
  wf data -> shape data = n :: rest -> 0 < n ->
  metric_fn metric kw (mk_ndarray [n; prod rest] (buf data)) = Some d ->
  (prod rest =? 1) && str_in metric ["correlation"; "cosine"] = false ->
  compute_dsm metric_fn data metric kw
  = ret (mk_ndarray [(n * (n - 1)) / 2]
                    (pdist_buf d (mk_ndarray [n; prod rest] (buf data)))).
Proof.
  intros Hwf Hs Hn Hd Hcheck. unfold compute_dsm, len. rewrite Hs.
  cbn [bind ret]. rewrite (reshape_items data Hwf Hs Hn).
  cbn [bind ret shape]. rewrite Hcheck. unfold pdist. rewrite Hd.
  cbn [shape nth]. unfold ret. do 2 f_equal.
  now rewrite triu_indices_length.
Qed.

End Condensed_form.

(** X1: on [n] items [compute_dsm] returns the [n (n - 1) / 2] distances of
    the item pairs in condensed order: the entry at
    [condensed_index n i j] is the distance from item [i] to item [j],
    each item being its features flattened in row-major order, under the
    function [d] that SciPy selects for the metric, its options and the
    [n] flattened items as observations. *)
Theorem compute_dsm_is_the_condensed_form
        (metric_fn :
           string -> kwargs -> ndarray -> option (list Qc -> list Qc -> Qc))
        data n rest metric kw d :
  wf data -> shape data = n :: rest -> 0 < n ->
  metric_fn metric kw (mk_ndarray [n; prod rest] (buf data)) = Some d ->
  (prod rest =? 1) && str_in metric ["correlation"; "cosine"] = false ->
  exists dsm,
    compute_dsm metric_fn data metric kw = ret dsm /\
    shape dsm = [(n * (n - 1)) / 2] /\
    wf dsm /\
    forall i j, i < j -> j < n ->
                nth (condensed_index n i j) (buf dsm) 0%Qc
                = d (block (prod rest) i (buf data))
                    (block (prod rest) j (buf data)).
Proof.
  intros Hwf Hs Hn Hd Hcheck. eexists.
  split; [now apply compute_dsm_value with (d := d) (n := n) (rest := rest)|].
  cbn [shape buf]. split; [reflexivity|]. split.
  - unfold wf. cbn [shape buf prod fold_right].
    rewrite pdist_buf_length. cbn [shape nth]. lia.
  - intros i j Hij Hj. unfold pdist_buf. cbn [shape nth].
    assert (Hpos : condensed_index n i j < length (triu_indices n 1 n)).
    { rewrite triu_indices_length. unfold condensed_index.
      pose proof (triu_indices_prefix_length n i ltac:(lia)) as Hp.
      rewrite <- Hp.
      pose proof (triu_indices_length n) as Hl.
      rewrite (triu_indices_split n i) in Hl by lia.
      rewrite !length_app, length_map, length_seq in Hl. lia. }
    rewrite (nth_indep _ 0%Qc
               ((fun ij => d (nth (fst ij) (rows (mk_ndarray [n; prod rest]
                                                             (buf data))) [])
                             (nth (snd ij) (rows (mk_ndarray [n; prod rest]
                                                             (buf data))) []))
                  (0, 0)))
      by now rewrite length_map.
    rewrite (map_nth (fun ij => d (nth (fst ij) _ []) (nth (snd ij) _ []))).
    rewrite triu_indices_nth by assumption. cbn [fst snd].
    now rewrite !rows_of_matrix by lia.
Qed.

Lemma compute_dsm_is_the_condensed_form_witness :
  exists dsm,
    compute_dsm sqeuclidean_only three_scalars "sqeuclidean" [] = ret dsm /\
    shape dsm = [(3 * (3 - 1)) / 2] /\
    wf dsm /\
    forall i j, i < j -> j < 3 ->
                nth (condensed_index 3 i j) (buf dsm) 0%Qc
                = sqeuclidean (block (prod [1]) i (buf three_scalars))
                              (block (prod [1]) j (buf three_scalars)).
Proof.
  apply (compute_dsm_is_the_condensed_form
           sqeuclidean_only three_scalars 3 [1] "sqeuclidean" [] sqeuclidean);
    [reflexivity | reflexivity | lia | reflexivity | reflexivity].
Defined.

(* ================================================================== *)
(** * [compute_dsm_cv]: what it returns *)
(* ================================================================== *)

Section Cross_validation.

Variable metric_fn :
  string -> kwargs -> ndarray -> option (list Qc -> list Qc -> Qc).

(** A round of the loop keeps the shape of the accumulator. *)
Lemma cv_step_shape X X_mean n_folds n_items k metric kw acc t :
  (forall observations, metric_fn metric kw observations <> None) ->
  shape X = [n_folds; n_items; k] -> shape X_mean = [n_items; k] ->
  shape acc = [(n_items * (n_items - 1)) / 2] ->
  length (buf acc) = (n_items * (n_items - 1)) / 2 ->
  exists acc',
    cv_step metric_fn X X_mean n_folds metric kw acc t = ret acc' /\
    shape acc' = [(n_items * (n_items - 1)) / 2] /\
    length (buf acc') = (n_items * (n_items - 1)) / 2.
Proof.
  intros Hd HX HM Hs Hl. unfold cv_step, cdist.
  destruct (metric_fn metric kw _) as [d|] eqn:Ed; [|now apply Hd in Ed].
  cbn [bind ret]. eexists. split; [reflexivity|].
  unfold add, take_pairs, triu_indices_from, x_train, sub, item.
  cbn [shape buf]. rewrite HM, HX. cbn [tl nth].
  split; [exact Hs|].
  unfold vadd. rewrite map2_length, length_map, triu_indices_length. lia.
Qed.

Lemma cv_loop_shape X X_mean n_folds n_items k metric kw tests acc :
  (forall observations, metric_fn metric kw observations <> None) ->
  shape X = [n_folds; n_items; k] -> shape X_mean = [n_items; k] ->
  shape acc = [(n_items * (n_items - 1)) / 2] ->
  length (buf acc) = (n_items * (n_items - 1)) / 2 ->
  exists acc',
    fold_result (cv_step metric_fn X X_mean n_folds metric kw) tests acc
    = ret acc' /\
    shape acc' = [(n_items * (n_items - 1)) / 2] /\
    length (buf acc') = (n_items * (n_items - 1)) / 2.
Proof.
  intros Hd HX HM. revert acc.
  induction tests as [|t tests IH]; intros acc Hs Hl; cbn [fold_result].
  - eauto.
  - destruct (cv_step_shape X X_mean n_folds n_items k metric kw acc t
                            Hd HX HM Hs Hl) as (acc1 & -> & Hs1 & Hl1).
    cbn [bind]. now apply IH.
Qed.

Lemma compute_dsm_cv_shape folds n_folds n_items rest metric kw :
  wf folds -> shape folds = n_folds :: n_items :: rest ->
  0 < n_folds -> 0 < n_items ->
  (forall observations, metric_fn metric kw observations <> None) ->
  (prod rest =? 1) && str_in metric ["correlation"; "cosine"] = false ->
  exists dsm,
    compute_dsm_cv metric_fn folds metric kw = ret dsm /\
    shape dsm = [(n_items * (n_items - 1)) / 2] /\
    wf dsm.
Proof.
  intros Hwf Hs HF HI Hd Hcheck. unfold compute_dsm_cv, shape_at.
  rewrite Hs. cbn [nth_error bind ret].
  rewrite (reshape_folds folds Hwf Hs HF HI). cbn [bind ret shape].
  rewrite Hcheck.
  destruct (cv_loop_shape
              (mk_ndarray [n_folds; n_items; prod rest] (buf folds))
              (mean_axis0 (mk_ndarray [n_folds; n_items; prod rest]
                                      (buf folds)))
              n_folds n_items (prod rest) metric kw (seq 0 n_folds)
              (zeros ((n_items * (n_items - 1)) / 2)) Hd eq_refl eq_refl
              eq_refl (repeat_length _ _))
    as (acc & -> & Hsa & Hla).
  cbn [bind ret]. eexists. split; [reflexivity|].
  unfold divs. cbn [shape buf]. split; [exact Hsa|].
  unfold wf, vdivs. cbn [shape buf]. rewrite length_map, Hla, Hsa.
  cbn [prod fold_right]. lia.
Qed.

End Cross_validation.

(** X2: on a well-formed fold tensor with at least one fold and one item
    [compute_dsm_cv] returns a condensed DSM of [n_items (n_items - 1) / 2]
    entries, whatever the number of folds and of features, once the metric
    is known and the single-feature check lets it pass. *)
Theorem compute_dsm_cv_returns_a_condensed_dsm
        (metric_fn :
           string -> kwargs -> ndarray -> option (list Qc -> list Qc -> Qc))
        folds n_folds n_items rest metric kw :
  wf folds -> shape folds = n_folds :: n_items :: rest ->
  0 < n_folds -> 0 < n_items ->
  (forall observations, metric_fn metric kw observations <> None) ->
  (prod rest =? 1) && str_in metric ["correlation"; "cosine"] = false ->
  exists dsm,
    compute_dsm_cv metric_fn folds metric kw = ret dsm /\
    shape dsm = [(n_items * (n_items - 1)) / 2] /\
    wf dsm.
Proof. apply compute_dsm_cv_shape. Qed.

Lemma compute_dsm_cv_returns_a_condensed_dsm_witness :
  exists dsm,
    compute_dsm_cv sqeuclidean_only three_folds "sqeuclidean" [] = ret dsm /\
    shape dsm = [(2 * (2 - 1)) / 2] /\
    wf dsm.
Proof.
  apply (compute_dsm_cv_returns_a_condensed_dsm
           sqeuclidean_only three_folds 3 2 [2; 2] "sqeuclidean" []);
    [reflexivity | reflexivity | lia | lia | discriminate | reflexivity].
Defined.




(* ================================================================== *)
(** * The generators: how many DSMs, and of what size *)
(* ================================================================== *)

Lemma yield_each_length_le {A} (steps : list (result A)) :
  length (yielded (yield_each steps)) <= length steps.
Proof.
  induction steps as [|[e|v] steps IH]; cbn; lia.
Qed.

Lemma yield_each_yielded_in {A} (steps : list (result A)) (v : A) :
  In v (yielded (yield_each steps)) -> In (inr v) steps.
Proof.
  induction steps as [|[e|w] steps IH]; cbn; [tauto|tauto|].
  intros [-> | H]; [now left|right; now apply IH].
Qed.

Lemma yield_each_all_succeed {A} (P : A -> Prop) (steps : list (result A)) :
  (forall r, In r steps -> exists v, r = inr v /\ P v) ->
  stopped (yield_each steps) = StopIteration /\
  length (yielded (yield_each steps)) = length steps /\
  Forall P (yielded (yield_each steps)).
Proof.
  induction steps as [|r steps IH]; intros H.
  - cbn. repeat split. constructor.
  - destruct (H r (or_introl eq_refl)) as (v & -> & Hv).
    destruct IH as (Hs & Hl & Hp); [intros r' Hr'; apply H; now right|].
    cbn [yield_each yielded stopped length]. repeat split.
    + exact Hs.
    + now rewrite Hl.
    + now constructor.
Qed.

(** X4: whatever the input, [dsm_spat] yields no more DSMs than the
    distance matrix has rows, and [dsm_temp] no more than there are
    centers for the last axis of the data. *)
Theorem generators_yield_at_most_one_dsm_per_position
        (metric_fn :
           string -> kwargs -> ndarray -> option (list Qc -> list Qc -> Qc))
        (create_folds :
           ndarray -> option ndarray -> Z -> option Z -> result ndarray) :
  (forall data dist spatial_radius dist_metric dist_params y n_folds,
      length (yielded (dsm_spat metric_fn create_folds data dist
                                spatial_radius dist_metric dist_params
                                y n_folds))
      <= hd 0 (shape dist))
  /\ (forall data temporal_radius dist_metric dist_params y n_folds,
         length (yielded (dsm_temp metric_fn create_folds data
                                   temporal_radius dist_metric dist_params
                                   y n_folds))
         <= length (_get_time_patch_centers
                      (Z.of_nat (last (shape data) 0)) temporal_radius)).
Proof.
  split.
  - intros. unfold dsm_spat, yield_after.
    destruct (create_folds data y n_folds None) as [e|folds];
      [cbn; lia|]. cbn [bind].
    destruct (len folds) as [e|n]; [cbn; lia|]. cbn [bind].
    unfold iter. destruct (shape dist) as [|k rest] eqn:Hs; [cbn; lia|].
    cbn [bind ret hd].
    etransitivity; [apply yield_each_length_le|].
    rewrite length_map. unfold items. rewrite length_map, length_seq, Hs.
    reflexivity.
  - intros. unfold dsm_temp, yield_after, last_dim.
    destruct (shape data) as [|k rest] eqn:Hs; [cbn; lia|].
    cbn [bind ret].
    destruct (create_folds data y n_folds None) as [e|folds];
      [cbn; lia|]. cbn [bind].
    destruct (len folds) as [e|n]; [cbn; lia|]. cbn [bind ret].
    etransitivity; [apply yield_each_length_le|].
    now rewrite length_map.
Qed.

Lemma take_axis2_shape (a p : ndarray) idx :
  take_axis2 a idx = ret p ->
  exists n0 n1 n2 rest,
    shape a = n0 :: n1 :: n2 :: rest /\
    shape p = n0 :: n1 :: length idx :: rest.
Proof.
  unfold take_axis2.
  destruct (shape a) as [|n0 [|n1 [|n2 rest]]]; try discriminate.
  destruct (forallb _ idx); [|discriminate].
  intros [= <-]. now exists n0, n1, n2, rest.
Qed.

Lemma slice_last_shape (a p : ndarray) lo hi :
  slice_last a lo hi = ret p ->
  shape a <> [] /\ removelast (shape p) = removelast (shape a).
Proof.
  unfold slice_last.
  destruct (shape a) as [|x l] eqn:Hs; [discriminate|].
  intros [= <-]. split; [discriminate|]. cbn [shape].
  now rewrite removelast_last.
Qed.

(** On a single item [compute_dsm] has no pair to measure. *)
Lemma compute_dsm_of_one_item metric_fn data rest metric kw dsm :
  shape data = 1 :: rest ->
  compute_dsm metric_fn data metric kw = ret dsm ->
  shape dsm = [0] /\ buf dsm = [].
Proof.
  intros Hs. unfold compute_dsm, len. rewrite Hs. cbn [bind ret].
  unfold reshape. destruct (_ || _); [discriminate|].
  cbn [bind ret shape app].
  destruct (_ && _); [discriminate|].
  unfold pdist. destruct (metric_fn metric kw); [|discriminate].
  cbn [shape nth]. intros [= <-]. now split.
Qed.

(** X5: when the fold builder returns a single fold, every DSM that
    [dsm_spat] or [dsm_temp] yields is empty: the patch keeps its leading
    fold axis of length 1, and [compute_dsm] takes that axis for the
    items. *)
Theorem a_single_fold_gives_empty_dsms
        (metric_fn :
           string -> kwargs -> ndarray -> option (list Qc -> list Qc -> Qc))
        (create_folds :
           ndarray -> option ndarray -> Z -> option Z -> result ndarray)
        data y n_folds folds n_items rest :
  create_folds data y n_folds None = ret folds ->
  shape folds = 1 :: n_items :: rest ->
  (forall dist spatial_radius dist_metric dist_params dsm,
      In dsm (yielded (dsm_spat metric_fn create_folds data dist
                                spatial_radius dist_metric dist_params
                                y n_folds)) ->
      shape dsm = [0] /\ buf dsm = [])
  /\ (forall temporal_radius dist_metric dist_params dsm,
         In dsm (yielded (dsm_temp metric_fn create_folds data
                                   temporal_radius dist_metric dist_params
                                   y n_folds)) ->
         shape dsm = [0] /\ buf dsm = []).
Proof.
  intros Hfolds Hs.
  assert (Hlen : len folds = ret 1) by (unfold len; now rewrite Hs).
  assert (Hcall : forall patch more dist_metric dist_params dsm,
             shape patch = 1 :: more ->
             call_dsm_func metric_fn 1 patch dist_metric dist_params
             = inr dsm ->
             shape dsm = [0] /\ buf dsm = []).
  { intros patch more dist_metric dist_params dsm Hp.
    unfold call_dsm_func, select_dsm_func.
    destruct dist_params as [kw|]; [|discriminate]. cbn [expand_kwargs bind ret].
    cbn [Nat.eqb]. now apply compute_dsm_of_one_item with (rest := more). }
  split.
  - intros dist spatial_radius dist_metric dist_params dsm.
    unfold dsm_spat, yield_after. rewrite Hfolds. cbn [bind ret].
    rewrite Hlen. cbn [bind ret].
    destruct (iter dist) as [e|series]; [intros []|]. cbn [bind ret].
    intros Hin. apply yield_each_yielded_in in Hin.
    apply in_map_iff in Hin. destruct Hin as (series_dist & Hstep & _).
    destruct (take_axis2 folds _) as [e|patch] eqn:Hp; [discriminate|].
    cbn [bind] in Hstep.
    destruct (take_axis2_shape _ _ _ Hp) as (n0 & n1 & n2 & more & Ha & Hb).
    rewrite Hs in Ha. injection Ha as <- <- Hrest.
    now apply (Hcall patch _ dist_metric dist_params dsm Hb).
  - intros temporal_radius dist_metric dist_params dsm.
    unfold dsm_temp, yield_after.
    destruct (last_dim data) as [e|n_samples]; [intros []|]. cbn [bind ret].
    rewrite Hfolds. cbn [bind ret]. rewrite Hlen. cbn [bind ret].
    intros Hin. apply yield_each_yielded_in in Hin.
    apply in_map_iff in Hin. destruct Hin as (center & Hstep & _).
    destruct (slice_last folds _ _) as [e|patch] eqn:Hp; [discriminate|].
    cbn [bind] in Hstep.
    destruct (slice_last_shape _ _ _ _ Hp) as [_ Hrm].
    rewrite Hs in Hrm. cbn [removelast] in Hrm.
    destruct (shape patch) as [|p0 ps] eqn:Hsp; [discriminate|].
    destruct ps as [|p1 ps]; [discriminate|].
    cbn [removelast] in Hrm. injection Hrm as -> _.
    now apply (Hcall patch _ dist_metric dist_params dsm Hsp).
Qed.

Lemma a_single_fold_gives_empty_dsms_witness :
  Forall (fun dsm => shape dsm = [0] /\ buf dsm = [])
         (yielded (dsm_temp sqeuclidean_only wrap_single_fold
                            two_series_data 1%Z "sqeuclidean" (Some [])
                            None 1%Z)).
Proof.
  apply Forall_forall. intros dsm.
  apply (a_single_fold_gives_empty_dsms
           sqeuclidean_only wrap_single_fold two_series_data None 1%Z
           (mk_ndarray [1; 2; 2; 3] (buf two_series_data)) 2 [2; 3]);
    reflexivity.
Defined.

Lemma neighborhood_in_range (dist : ndarray) n_rows n_series s radius :
  wf dist -> shape dist = [n_rows; n_series] -> s < n_rows ->
  Forall (fun j => j < n_series) (neighborhood (item dist s) radius).
Proof.
  intros Hwf Hs Hlt. apply Forall_forall. intros j Hj.
  apply neighborhood_In in Hj. destruct Hj as [Hj _].
  pose proof (item_wf dist n_rows [n_series] s Hwf Hs Hlt) as Hrow.
  unfold wf in Hrow. rewrite Hrow in Hj. unfold item in Hj.
  rewrite Hs in Hj. cbn [shape tl prod fold_right] in Hj. lia.
Qed.

(** X6: [dsm_spat] on at least two folds, with a dict for [dist_params], a
    metric that SciPy knows and patches that pass the single-feature
    check, yields exactly one DSM per row of the distance matrix, each of
    [n_items (n_items - 1) / 2] entries, and then stops. *)
Theorem dsm_spat_yields_one_dsm_per_series
        (metric_fn :
           string -> kwargs -> ndarray -> option (list Qc -> list Qc -> Qc))
        (create_folds :
           ndarray -> option ndarray -> Z -> option Z -> result ndarray)
        data y n_folds folds n n_items n_series rest
        dist n_rows spatial_radius dist_metric kw :
  create_folds data y n_folds None = ret folds ->
  wf folds -> shape folds = n :: n_items :: n_series :: rest ->
  2 <= n -> 0 < n_items ->
  wf dist -> shape dist = [n_rows; n_series] ->
  (forall observations, metric_fn dist_metric kw observations <> None) ->
  (str_in dist_metric ["correlation"; "cosine"] = false \/
   forall s, s < n_rows ->
             length (neighborhood (item dist s) spatial_radius) * prod rest
             <> 1) ->
  let run := dsm_spat metric_fn create_folds data dist spatial_radius
                      dist_metric (Some kw) y n_folds in
  stopped run = StopIteration /\
  length (yielded run) = n_rows /\
  Forall (fun dsm => shape dsm = [(n_items * (n_items - 1)) / 2] /\ wf dsm)
         (yielded run).
Proof.
  intros Hfolds Hwf Hs Hn HI Hwfd Hsd Hd Hcheck run. subst run.
  unfold dsm_spat, yield_after. rewrite Hfolds. cbn [bind ret].
  unfold len. rewrite Hs. cbn [bind ret].
  unfold iter. rewrite Hsd. cbn [bind ret].
  match goal with
  | |- context [yield_each ?s] => set (steps := s)
  end.
  assert (Hlen : length steps = n_rows)
    by (unfold steps, items; rewrite !length_map, length_seq, Hsd;
        reflexivity).
  rewrite <- Hlen. apply yield_each_all_succeed. intros r Hr.
  unfold steps in Hr. apply in_map_iff in Hr. destruct Hr as (series_dist & <- & Hin).
  unfold items in Hin. rewrite Hsd in Hin. cbn [hd] in Hin.
  apply in_map_iff in Hin. destruct Hin as (s & <- & Hseq).
  apply in_seq in Hseq.
  destruct (take_axis2_blocks folds n n_items n_series rest
              (neighborhood (item dist s) spatial_radius) Hwf Hs)
    as (patch & -> & Hsp & Hwfp & _).
  { apply (neighborhood_in_range dist n_rows); (assumption || lia). }
  cbn [bind]. unfold call_dsm_func, select_dsm_func.
  cbn [expand_kwargs bind ret].
  assert ((n =? 1) = false) as -> by (apply Nat.eqb_neq; lia).
  destruct (compute_dsm_cv_shape metric_fn patch n n_items
              (length (neighborhood (item dist s) spatial_radius) :: rest)
              dist_metric kw Hwfp Hsp)
    as (dsm & -> & Hshape & Hwfdsm); try assumption; try lia.
  - change (prod (length (neighborhood (item dist s) spatial_radius) :: rest))
      with (length (neighborhood (item dist s) spatial_radius) * prod rest).
    destruct Hcheck as [-> | Hne]; [apply andb_false_r|].
    apply andb_false_intro1. apply Nat.eqb_neq. apply Hne. lia.
  - now exists dsm.
Qed.

Lemma dsm_spat_yields_one_dsm_per_series_witness :
  let run := dsm_spat sqeuclidean_only give_three_folds two_series_data
                      two_series_dist (of_nat 2) "sqeuclidean" (Some [])
                      None 3%Z in
  stopped run = StopIteration /\
  length (yielded run) = 2 /\
  Forall (fun dsm => shape dsm = [(2 * (2 - 1)) / 2] /\ wf dsm) (yielded run).
Proof.
  apply (dsm_spat_yields_one_dsm_per_series
           sqeuclidean_only give_three_folds two_series_data None 3%Z
           three_folds 3 2 2 [2] two_series_dist 2 (of_nat 2)
           "sqeuclidean" []);
    try reflexivity; try lia; try discriminate.
  now left.
Defined.

(** X7: [dsm_temp] on at least two folds whose last axis is the last axis
    of the data, with a dict for [dist_params] and a metric that SciPy
    knows, yields exactly one DSM per center, each of
    [n_items (n_items - 1) / 2] entries, and then stops.  The
    single-feature check never stops it: a window holds an even number of
    samples. *)
Theorem dsm_temp_yields_one_dsm_per_center
        (metric_fn :
           string -> kwargs -> ndarray -> option (list Qc -> list Qc -> Qc))
        (create_folds :
           ndarray -> option ndarray -> Z -> option Z -> result ndarray)
        data y n_folds folds n n_items mid n_samples
        temporal_radius dist_metric kw :
  last_dim data = ret n_samples ->
  (0 <= temporal_radius)%Z ->
  create_folds data y n_folds None = ret folds ->
  wf folds -> shape folds = n :: n_items :: mid ++ [n_samples] ->
  2 <= n -> 0 < n_items ->
  (forall observations, metric_fn dist_metric kw observations <> None) ->
  let run := dsm_temp metric_fn create_folds data temporal_radius
                      dist_metric (Some kw) y n_folds in
  stopped run = StopIteration /\
  length (yielded run)
  = length (_get_time_patch_centers (Z.of_nat n_samples) temporal_radius) /\
  Forall (fun dsm => shape dsm = [(n_items * (n_items - 1)) / 2] /\ wf dsm)
         (yielded run).
Proof.
  intros Hlast Hr Hfolds Hwf Hs Hn HI Hd run. subst run.
  unfold dsm_temp, yield_after. rewrite Hlast. cbn [bind ret].
  rewrite Hfolds. cbn [bind ret]. unfold len. rewrite Hs. cbn [bind ret].
  match goal with
  | |- context [yield_each ?s] => set (steps := s)
  end.
  assert (Hlen : length steps
                 = length (_get_time_patch_centers (Z.of_nat n_samples)
                                                   temporal_radius))
    by (unfold steps; now rewrite length_map).
  rewrite <- Hlen. apply yield_each_all_succeed. intros r Hin.
  unfold steps in Hin. apply in_map_iff in Hin. destruct Hin as (center & <- & Hc).
  unfold _get_time_patch_centers in Hc. apply range_In in Hc.
  destruct (slice_last_wf folds (n :: n_items :: mid) n_samples
              (center - temporal_radius) (center + temporal_radius) Hwf Hs)
    as (patch & -> & Hsp & Hwfp).
  cbn [bind]. unfold call_dsm_func, select_dsm_func.
  cbn [expand_kwargs bind ret].
  assert ((n =? 1) = false) as -> by (apply Nat.eqb_neq; lia).
  rewrite !slice_bound_inside in Hsp by lia.
  destruct (compute_dsm_cv_shape metric_fn patch n n_items
              (mid ++ [Z.to_nat (center + temporal_radius)
                       - Z.to_nat (center - temporal_radius)])
              dist_metric kw Hwfp Hsp)
    as (dsm & -> & Hshape & Hwfdsm); try assumption; try lia.
  - apply andb_false_intro1. apply Nat.eqb_neq. rewrite prod_app.
    change (prod [Z.to_nat (center + temporal_radius)
                  - Z.to_nat (center - temporal_radius)])
      with ((Z.to_nat (center + temporal_radius)
             - Z.to_nat (center - temporal_radius)) * 1).
    replace (Z.to_nat (center + temporal_radius)
             - Z.to_nat (center - temporal_radius))
      with (2 * Z.to_nat temporal_radius) by lia.
    intros E.
    assert (E2 : 2 * (prod mid * Z.to_nat temporal_radius) = 1) by lia.
    lia.
  - now exists dsm.
Qed.

Lemma dsm_temp_yields_one_dsm_per_center_witness :
  let run := dsm_temp sqeuclidean_only give_three_folds three_folds 1%Z
                      "sqeuclidean" (Some []) None 3%Z in
  stopped run = StopIteration /\
  length (yielded run) = length (_get_time_patch_centers (Z.of_nat 2) 1) /\
  Forall (fun dsm => shape dsm = [(2 * (2 - 1)) / 2] /\ wf dsm) (yielded run).
Proof.
  apply (dsm_temp_yields_one_dsm_per_center
           sqeuclidean_only give_three_folds three_folds None 3%Z
           three_folds 3 2 [2] 2 1%Z "sqeuclidean" []);
    try reflexivity; try lia; try discriminate.
Defined.

(* ================================================================== *)
(** * Searchlight patches of the generators *)
(* ================================================================== *)

(** X8: the patch that [dsm_temp] cuts for a center [c] has
    [2 * temporal_radius] samples on its last axis, the samples
    [c - temporal_radius .. c + temporal_radius - 1] of every time course
    of the folds: the sample [c + temporal_radius] is left out. *)
Theorem temporal_patch_is_the_half_open_window
        (folds : ndarray) pre n_samples (temporal_radius center : Z) :
  wf folds -> shape folds = pre ++ [n_samples] ->
  (0 <= temporal_radius)%Z ->
  In center (_get_time_patch_centers (Z.of_nat n_samples) temporal_radius) ->
  let w := 2 * Z.to_nat temporal_radius in
  exists patch,
    slice_last folds (center - temporal_radius) (center + temporal_radius)
    = ret patch /\
    shape patch = pre ++ [w] /\
    wf patch /\
    forall course j,
      course < prod pre -> j < w ->
      nth (course * w + j) (buf patch) 0%Qc
      = nth (course * n_samples + Z.to_nat (center - temporal_radius) + j)
            (buf folds) 0%Qc.
Proof.
  intros Hwf Hs Hr Hc w.
  unfold _get_time_patch_centers in Hc. apply range_In in Hc.
  destruct (slice_last_wf folds pre n_samples (center - temporal_radius)
                          (center + temporal_radius) Hwf Hs)
    as (patch & Hp & Hsp & Hwfp).
  rewrite !slice_bound_inside in Hsp by lia.
  replace (Z.to_nat (center + temporal_radius)
           - Z.to_nat (center - temporal_radius)) with w in Hsp
    by (unfold w; lia).
  exists patch. repeat split; try assumption.
  intros course j Hcourse Hj.
  unfold slice_last in Hp. rewrite Hs in Hp.
  destruct (pre ++ [n_samples]) as [|x l] eqn:E; [now destruct pre|].
  rewrite <- E in Hp. rewrite last_last, removelast_last in Hp.
  rewrite !slice_bound_inside in Hp by lia.
  replace (Z.to_nat (center + temporal_radius)
           - Z.to_nat (center - temporal_radius)) with w in Hp
    by (unfold w; lia).
  injection Hp as <-. cbn [buf].
  rewrite flat_map_concat_map.
  rewrite <- (nth_block w course j) by assumption.
  rewrite block_concat.
  - rewrite (nth_indep _ [] ((fun c => firstn w (skipn (c * n_samples
                + Z.to_nat (center - temporal_radius)) (buf folds))) 0))
      by (rewrite length_map, length_seq; assumption).
    rewrite (map_nth (fun c => firstn w (skipn (c * n_samples
                + Z.to_nat (center - temporal_radius)) (buf folds)))).
    rewrite seq_nth by assumption. cbn [Nat.add].
    rewrite nth_firstn.
    assert ((j <? w) = true) as -> by now apply Nat.ltb_lt.
    rewrite nth_skipn. reflexivity.
  - apply Forall_forall. intros b Hb.
    apply in_map_iff in Hb. destruct Hb as (c & <- & Hin).
    apply in_seq in Hin. rewrite length_firstn, length_skipn.
    unfold wf in Hwf. rewrite Hwf, Hs, <- E, prod_app.
    change (prod [n_samples]) with (n_samples * 1). rewrite Nat.mul_1_r.
    assert (S c * n_samples <= prod pre * n_samples)
      by (apply Nat.mul_le_mono_r; lia).
    unfold w. lia.
  - now rewrite length_map, length_seq.
Qed.

Lemma temporal_patch_is_the_half_open_window_witness :
  exists patch,
    slice_last two_series_data (2 - 1) (2 + 1) = ret patch /\
    shape patch = [2; 2] ++ [2 * Z.to_nat 1] /\
    wf patch /\
    forall course j,
      course < prod [2; 2] -> j < 2 * Z.to_nat 1 ->
      nth (course * (2 * Z.to_nat 1) + j) (buf patch) 0%Qc
      = nth (course * 3 + Z.to_nat (2 - 1) + j) (buf two_series_data) 0%Qc.
Proof.
  apply (temporal_patch_is_the_half_open_window
           two_series_data [2; 2] 3 1%Z 2%Z);
    [reflexivity | reflexivity | lia |].
  unfold _get_time_patch_centers. apply range_In. lia.
Defined.

(** X9: the patch that [dsm_spat] cuts for the series [s] holds, for every
    fold and item, the data of exactly the series of the neighborhood of
    [s], in ascending order of their index, and of no other series. *)
Theorem spatial_patch_holds_the_neighborhood
        (folds dist : ndarray) n n_items n_series rest n_rows s
        (spatial_radius : Qc) :
  wf folds -> shape folds = n :: n_items :: n_series :: rest ->
  wf dist -> shape dist = [n_rows; n_series] -> s < n_rows ->
  let nb := neighborhood (item dist s) spatial_radius in
  exists patch,
    take_axis2 folds nb = ret patch /\
    shape patch = n :: n_items :: length nb :: rest /\
    wf patch /\
    forall b k, b < n * n_items -> k < length nb ->
                block (prod rest) (b * length nb + k) (buf patch)
                = block (prod rest) (b * n_series + nth k nb 0) (buf folds).
Proof.
  intros Hwf Hs Hwfd Hsd Hlt nb.
  apply take_axis2_blocks; try assumption.
  now apply (neighborhood_in_range dist n_rows).
Qed.

Lemma spatial_patch_holds_the_neighborhood_witness :
  let nb := neighborhood (item two_series_dist 0) 1%Qc in
  exists patch,
    take_axis2 three_folds nb = ret patch /\
    shape patch = 3 :: 2 :: length nb :: [2] /\
    wf patch /\
    forall b k, b < 3 * 2 -> k < length nb ->
                block (prod [2]) (b * length nb + k) (buf patch)
                = block (prod [2]) (b * 2 + nth k nb 0) (buf three_folds).
Proof.
  apply (spatial_patch_holds_the_neighborhood
           three_folds two_series_dist 3 2 2 [2] 2 0 1%Qc);
    [reflexivity | reflexivity | reflexivity | reflexivity | lia].
Defined.

(* ================================================================== *)
(** * [_ensure_condensed]: what is already condensed *)
(* ================================================================== *)

Lemma ensure_condensed_keeps_condensed
        (squareform : ndarray -> result ndarray) (dsm : dsm_arg)
        (var_name : string) :
  is_condensed dsm = true ->
  _ensure_condensed squareform dsm var_name = ret dsm.
Proof.
  induction dsm as [a|l IH] using dsm_arg_induction; cbn [is_condensed].
  - intros H. apply Nat.eqb_eq in H. cbn [_ensure_condensed].
    rewrite H. reflexivity.
  - intros H. cbn [_ensure_condensed].
    assert (E : forall l',
               Forall (fun d => is_condensed d = true ->
                                _ensure_condensed squareform d var_name
                                = ret d) l' ->
               forallb is_condensed l' = true ->
               (fix each (l0 : list dsm_arg) : result (list dsm_arg) :=
                  match l0 with
                  | [] => ret []
                  | d :: l1 =>
                      c <- _ensure_condensed squareform d var_name ;;
                      cs <- each l1 ;; ret (c :: cs)
                  end) l' = ret l').
    { induction 1 as [|d l' Hd _ IHl]; intros Hall; [reflexivity|].
      cbn [forallb] in Hall. apply andb_true_iff in Hall.
      destruct Hall as [H1 H2]. rewrite (Hd H1). cbn [bind ret].
      rewrite (IHl H2). reflexivity. }
    rewrite (E l IH H). reflexivity.
Qed.

(** X10: an argument whose arrays are all one-dimensional, however deeply
    they are nested in lists, is returned as it is; [squareform] is not
    called. *)
Theorem ensure_condensed_returns_condensed_input_unchanged
        (squareform : ndarray -> result ndarray) (dsm : dsm_arg)
        (var_name : string) :
  is_condensed dsm = true ->
  _ensure_condensed squareform dsm var_name = ret dsm.
Proof. apply ensure_condensed_keeps_condensed. Qed.

Lemma ensure_condensed_returns_condensed_input_unchanged_witness :
  _ensure_condensed upper_triangle
                    (PyList [PyArray (array_of [1] [3]%Z); PyList []])
                    "model_dsm"
  = ret (PyList [PyArray (array_of [1] [3]%Z); PyList []]).
Proof.
  apply (ensure_condensed_returns_condensed_input_unchanged
           upper_triangle
           (PyList [PyArray (array_of [1] [3]%Z); PyList []]) "model_dsm").
  reflexivity.
Defined.

Lemma ensure_condensed_result_is_condensed
      (squareform : ndarray -> result ndarray) (dsm : dsm_arg)
      (var_name : string) :
  (forall a r, squareform a = ret r -> ndim r = 1) ->
  forall dsm', _ensure_condensed squareform dsm var_name = ret dsm' ->
               is_condensed dsm' = true.
Proof.
  intros Hsq.
  induction dsm as [a|l IH] using dsm_arg_induction; intros dsm'.
  - cbn [_ensure_condensed].
    destruct (ndim a =? 2).
    + destruct (negb _); [discriminate|].
      destruct (squareform a) as [e|c] eqn:Hc; [discriminate|].
      intros [= <-]. cbn [is_condensed]. apply Nat.eqb_eq. now apply (Hsq a).
    + destruct (ndim a =? 1) eqn:H1; [|discriminate].
      intros [= <-]. exact H1.
  - cbn [_ensure_condensed].
    assert (E : forall l',
               Forall (fun d => forall d',
                           _ensure_condensed squareform d var_name = ret d' ->
                           is_condensed d' = true) l' ->
               forall cs,
               (fix each (l0 : list dsm_arg) : result (list dsm_arg) :=
                  match l0 with
                  | [] => ret []
                  | d :: l1 =>
                      c <- _ensure_condensed squareform d var_name ;;
                      cs <- each l1 ;; ret (c :: cs)
                  end) l' = ret cs ->
               forallb is_condensed cs = true).
    { induction 1 as [|d l' Hd _ IHl]; intros cs.
      - intros [= <-]. reflexivity.
      - destruct (_ensure_condensed squareform d var_name) as [e|c] eqn:Hc;
          [discriminate|].
        cbn [bind].
        match goal with
        | |- context [bind ?m _] => destruct m as [e|cs'] eqn:Hcs
        end; [discriminate|].
        cbn [bind ret]. intros [= <-]. cbn [forallb].
        rewrite (Hd c eq_refl), (IHl cs' eq_refl). reflexivity. }
    match goal with
    | |- context [bind ?m _] => destruct m as [e|cs] eqn:Hcs
    end; [discriminate|].
    cbn [bind ret]. intros [= <-]. cbn [is_condensed].
    now apply (E l IH).
Qed.

(** X11: [_ensure_condensed] is idempotent: when [squareform] returns
    vectors, what [_ensure_condensed] returns is returned unchanged by a
    second call, under any name. *)
Theorem ensure_condensed_is_idempotent
        (squareform : ndarray -> result ndarray) (dsm dsm' : dsm_arg)
        (var_name var_name' : string) :
  (forall a r, squareform a = ret r -> ndim r = 1) ->
  _ensure_condensed squareform dsm var_name = ret dsm' ->
  _ensure_condensed squareform dsm' var_name' = ret dsm'.
Proof.
  intros Hsq H.
  apply ensure_condensed_keeps_condensed.
  now apply (ensure_condensed_result_is_condensed squareform dsm var_name).
Qed.

Lemma ensure_condensed_is_idempotent_witness :
  _ensure_condensed upper_triangle
    (PyList [PyArray (take_pairs square_dsm (triu_indices_from square_dsm 1));
             PyList [PyArray (array_of [1] [3]%Z)]])
    "again"
  = ret (PyList [PyArray (take_pairs square_dsm
                                     (triu_indices_from square_dsm 1));
                 PyList [PyArray (array_of [1] [3]%Z)]]).
Proof.
  apply (ensure_condensed_is_idempotent
           upper_triangle mixed_dsms _ "model_dsm" "again").
  - intros a r [= <-]. reflexivity.
  - reflexivity.
Defined.

(* ================================================================== *)
(** * The train estimate and the leave-one-out mean, for any folds *)
(* ================================================================== *)

Lemma vadd_vsub_self (m : list Qc) (c : Qc) :
  vadd m (vdivs (vsub m m) c) = m.
Proof.
  unfold vadd, vdivs, vsub. induction m as [|x m IH]; cbn [map2 map];
    [reflexivity|].
  f_equal; [|exact IH]. unfold Qcdiv. ring.
Qed.

(** X12: for any number of folds from two on, and any test fold [k], the
    train estimate [X_mean - (X_mean - X_test) / (n_folds - 1)] of the code
    is the mean of the other folds exactly when the test fold is the mean
    of all the folds. *)
Theorem x_train_is_the_leave_one_out_mean_iff_test_fold_is_the_mean
        (X : ndarray) (n_folds : nat) (rest : list nat) (k : nat) :
  wf X -> shape X = n_folds :: rest -> 2 <= n_folds -> k < n_folds ->
  (x_train (mean_axis0 X) (item X k) n_folds = mean_axis0 (delete_axis0 X k)
   <-> item X k = mean_axis0 X).
Proof.
  intros Hwf Hs HF Hk. split.
  - now apply (x_train_is_loo_mean_only_at_the_mean X n_folds rest k).
  - intros E.
    rewrite <- (loo_mean_closed_form X n_folds rest k Hwf Hs HF Hk).
    rewrite E, x_train_of_identical.
    unfold add, divs, sub. cbn [shape buf].
    rewrite vadd_vsub_self. now destruct (mean_axis0 X).
Qed.

Lemma x_train_is_the_leave_one_out_mean_iff_test_fold_is_the_mean_witness :
  x_train (mean_axis0 three_folds) (item three_folds 1) 3
  = mean_axis0 (delete_axis0 three_folds 1)
  <-> item three_folds 1 = mean_axis0 three_folds.
Proof.
  apply (x_train_is_the_leave_one_out_mean_iff_test_fold_is_the_mean
           three_folds 3 [2; 2; 2] 1);
    [reflexivity | reflexivity | lia | lia].
Defined.

(* ================================================================== *)
(** * Neighborhoods and the radius *)
(* ================================================================== *)

(** X13: a larger spatial radius never loses a series: the neighborhood at
    a radius is contained in the neighborhood at any larger radius. *)
Theorem neighborhood_grows_with_the_radius
        (series_dist : ndarray) (r1 r2 : Qc) (j : nat) :
  (r1 <= r2)%Qc ->
  In j (neighborhood series_dist r1) -> In j (neighborhood series_dist r2).
Proof.
  intros Hr. rewrite !neighborhood_In. intros [Hj H].
  split; [exact Hj|]. now apply (Qclt_le_trans _ r1).
Qed.

Lemma neighborhood_grows_with_the_radius_witness :
  In 0 (neighborhood (item two_series_dist 0) (of_nat 2)).
Proof.
  apply (neighborhood_grows_with_the_radius
           (item two_series_dist 0) (of_nat 1) (of_nat 2) 0).
  - intros E. discriminate E.
  - apply neighborhood_In. split; [cbn; lia|]. reflexivity.
Defined.

(* ================================================================== *)
(** * The DSMs handed back are new arrays *)
(* ================================================================== *)

Lemma allocates_new (a : ndarray) : allocates_its_result (Store.new a).
Proof. intros h. cbn. rewrite length_app. cbn [length]. lia. Qed.

Lemma allocates_raise (e : exception) :
  allocates_its_result (Store.lift (raise e)).
Proof. intros h. cbn. lia. Qed.

Lemma allocates_bind {A} (m : Store.M A) (f : A -> Store.M Store.ref) :
  Store.keeps 0 m (fun _ => True) ->
  (forall a, allocates_its_result (f a)) ->
  allocates_its_result (Store.bind m f).
Proof.
  intros [Hm _] Hf h. unfold Store.bind.
  destruct (Hm h (Nat.le_0_l _)) as [Hl _].
  destruct (m h) as [[e|a] h1]; cbn [snd] in Hl; [exact Hl|].
  specialize (Hf a h1). destruct (f a h1) as [[e|out] h2]; lia.
Qed.

Section New_arrays.

Variable metric_fn :
  string -> kwargs -> ndarray -> option (list Qc -> list Qc -> Qc).

Lemma allocates_compute_dsm_cv folds metric kw :
  allocates_its_result (Store.compute_dsm_cv metric_fn folds metric kw).
Proof.
  unfold Store.compute_dsm_cv.
  apply allocates_bind; [apply keeps_get|intros f].
  apply allocates_bind; [apply keeps_lift|intros s0].
  apply allocates_bind; [apply keeps_lift|intros s1].
  apply allocates_bind; [apply keeps_np_reshape|intros X].
  apply allocates_bind; [apply keeps_get|intros x].
  destruct (shape x) as [|n_folds [|n_items [|n_features [|? ?]]]];
    try apply allocates_raise.
  destruct (_ && _); [apply allocates_raise|].
  apply allocates_bind;
    [eapply keeps_weaken; [apply keeps_new|trivial]|intros dsm].
  apply allocates_bind; [keeps_seq; now apply keeps_ret|intros X_mean].
  apply allocates_bind;
    [apply keeps_for_each; intros t; apply keeps_cv_round; lia|intros _].
  apply allocates_bind; [apply keeps_get|intros total].
  apply allocates_new.
Qed.






Variable create_folds :
  ndarray -> option ndarray -> Z -> option Z -> result ndarray.
Variable shares : bool.


End New_arrays.

(** X14: the DSM that [compute_dsm_cv] returns is an array made during the
    call, whatever the options: it is none of the arrays that were alive
    when the call was made, so writing to it changes no array of the
    caller.  ([compute_dsm] hands back what [pdist] returns, which is the
    caller's own buffer when the options hold [out=].) *)
Theorem the_returned_dsm_is_a_new_array
        (metric_fn :
           string -> kwargs -> ndarray -> option (list Qc -> list Qc -> Qc))
        (h : Store.heap) (folds : Store.ref) (metric : string)
        (kw : kwargs) :
  match Store.compute_dsm_cv metric_fn folds metric kw h with
  | (inr out, h') => length h <= Store.base out < length h'
  | (inl _, h') => length h <= length h'
  end.
Proof. apply (allocates_compute_dsm_cv metric_fn folds metric kw h). Qed.



(* ================================================================== *)
(** * [dsm_spattemp]: how it ends *)
(* ================================================================== *)

(** X16: [dsm_spattemp] never ends quietly with nothing: a run yields one
    DSM and stops, or yields none and ends in an exception (with no patch
    at all, the [RuntimeError] of a [StopIteration] raised inside a
    generator); and when [Parallel] returns a list, every run, on every
    input, ends in an exception before anything is yielded. *)
Theorem dsm_spattemp_yields_once_or_raises
        (metric_fn :
           string -> kwargs -> ndarray -> option (list Qc -> list Qc -> Qc))
        (create_folds :
           ndarray -> option ndarray -> Z -> option Z -> result ndarray)
        data dist spatial_radius temporal_radius dist_metric dist_params
        y n_folds n_jobs :
  (forall kind,
      let t := dsm_spattemp metric_fn create_folds kind data dist
                            spatial_radius temporal_radius dist_metric
                            dist_params y n_folds n_jobs in
      (exists dsm, t = mk_trace [dsm] StopIteration)
      \/ (exists e, t = mk_trace [] (Raised e)))
  /\ (exists e,
         dsm_spattemp metric_fn create_folds AsList data dist
                      spatial_radius temporal_radius dist_metric
                      dist_params y n_folds n_jobs
         = mk_trace [] (Raised e)).
Proof.
  split.
  - intros kind t. subst t. unfold dsm_spattemp, yield_after.
    match goal with
    | |- context [match ?s with inl _ => _ | inr _ => _ end] => destruct s
    end; eauto.
  - unfold dsm_spattemp, yield_after.
    destruct (shape data) as [|? [|n_series [|n_samples [|? ?]]]];
      try (cbn [bind raise ret]; eauto; fail).
    cbn [bind ret].
    destruct (create_folds data y n_folds (Some n_jobs)) as [e|folds];
      [cbn [bind raise ret]; eauto|].
    cbn [bind raise ret].
    destruct (len folds) as [e|k]; [cbn [bind raise ret]; eauto|].
    cbn [bind raise ret].
    match goal with
    | |- context [Parallel ?ts] => destruct (Parallel ts) as [e|results]
    end; cbn [bind raise ret next_of_parallel]; eauto.
Qed.

(* ================================================================== *)
(** * [compute_dsm_cv]: the order of the folds *)
(* ================================================================== *)

Lemma fold_left_permutation {A B} (f : A -> B -> A) :
  (forall a x y, f (f a x) y = f (f a y) x) ->
  forall l l', Permutation l l' ->
               forall a, fold_left f l a = fold_left f l' a.
Proof.
  intros Hf. induction 1 as [|x l l' _ IH|x y l|l l' l'' _ IH1 _ IH2];
    intros a; cbn [fold_left].
  - reflexivity.
  - apply IH.
  - now rewrite Hf.
  - now rewrite IH1.
Qed.

Lemma vadd_swap a x y : vadd (vadd a x) y = vadd (vadd a y) x.
Proof. now rewrite !vadd_assoc, (vadd_comm x y). Qed.

Lemma add_swap a x y : add (add a x) y = add (add a y) x.
Proof. unfold add. cbn [shape buf]. now rewrite vadd_swap. Qed.

Lemma vsum_permutation l l' : Permutation l l' -> vsum l = vsum l'.
Proof.
  induction 1 as [|x l l' H _|x y l|l l' l'' _ IH1 _ IH2]; cbn [vsum].
  - reflexivity.
  - now apply fold_left_permutation; [apply vadd_swap|].
  - cbn [fold_left]. now rewrite vadd_comm.
  - now rewrite IH1.
Qed.

(** The items of the reshaped fold tensor are the items of the tensor,
    reshaped. *)
Lemma items_reshaped (folds : ndarray) n_folds n_items rest :
  shape folds = n_folds :: n_items :: rest ->
  items (mk_ndarray [n_folds; n_items; prod rest] (buf folds))
  = map (fun a => mk_ndarray [n_items; prod rest] (buf a)) (items folds).
Proof.
  intros Hs. unfold items, item. cbn [shape buf hd tl]. rewrite Hs.
  cbn [hd tl]. rewrite map_map. apply map_ext. intros t.
  cbn [buf]. do 2 f_equal.
  change (prod [n_items; prod rest]) with (n_items * (prod rest * 1)).
  change (prod (n_items :: rest)) with (n_items * prod rest). lia.
Qed.

Section Fold_order.

Variable metric_fn :
  string -> kwargs -> ndarray -> option (list Qc -> list Qc -> Qc).

(** A round adds one term to the accumulator, and the term depends on the
    test fold, not on its position. *)
Lemma cv_step_adds_a_term X X_mean n_folds metric kw acc t :
  cv_step metric_fn X X_mean n_folds metric kw acc t
  = (term <- (dist <- cdist metric_fn (x_train X_mean (item X t) n_folds)
                            (item X t) metric kw ;;
              ret (take_pairs dist (triu_indices_from dist 1))) ;;
     ret (add acc term)).
Proof. unfold cv_step. now destruct (cdist _ _ _ _ _). Qed.

Lemma fold_result_ext {A B} (f g : A -> B -> result A) l a :
  (forall a x, f a x = g a x) -> fold_result f l a = fold_result g l a.
Proof.
  intros H. revert a. induction l as [|x l IH]; intros a;
    cbn [fold_result]; [reflexivity|].
  rewrite H. destruct (g a x) as [e|a']; cbn [bind]; [reflexivity|apply IH].
Qed.

Lemma fold_result_map {A B C} (f : A -> C -> result A) (g : B -> C) l a :
  fold_result (fun acc x => f acc (g x)) l a = fold_result f (map g l) a.
Proof.
  revert a. induction l as [|x l IH]; intros a;
    cbn [fold_result map]; [reflexivity|].
  destruct (f a (g x)) as [e|a']; cbn [bind]; [reflexivity|apply IH].
Qed.

(** A loop that adds a term per element, and fails with one and the same
    exception when a term cannot be had, does not depend on the order of
    the elements. *)
Lemma fold_result_permutation {A} (T : A -> result ndarray) (E : exception) :
  (forall x e, T x = inl e -> e = E) ->
  forall l l',
    Permutation l l' ->
    forall a,
      fold_result (fun acc x => term <- T x ;; ret (add acc term)) l a
      = fold_result (fun acc x => term <- T x ;; ret (add acc term)) l' a.
Proof.
  intros HE. induction 1 as [|x l l' _ IH|x y l|l l' l'' _ IH1 _ IH2];
    intros a; cbn [fold_result].
  - reflexivity.
  - destruct (T x) as [e|t]; cbn [bind ret]; [reflexivity|apply IH].
  - destruct (T x) as [e|t] eqn:Hx, (T y) as [e'|t'] eqn:Hy;
      cbn [bind ret]; rewrite ?Hx, ?Hy; cbn [bind ret];
      try reflexivity.
    + now rewrite (HE x e Hx), (HE y e' Hy).
    + now rewrite add_swap.
  - now rewrite IH1.
Qed.

(** X17: the cross-validated DSM does not depend on the order of the
    folds: over the rationals, two fold tensors of one shape whose folds
    are the same up to their order give the same result, be it a DSM or an
    exception. *)
Theorem compute_dsm_cv_ignores_the_order_of_the_folds
        (X X' : ndarray) (n_folds n_items : nat) (rest : list nat)
        (metric : string) (kw : kwargs) :
  wf X -> wf X' ->
  shape X = n_folds :: n_items :: rest ->
  shape X' = n_folds :: n_items :: rest ->
  0 < n_folds -> 0 < n_items ->
  Permutation (items X) (items X') ->
  compute_dsm_cv metric_fn X' metric kw = compute_dsm_cv metric_fn X metric kw.
Proof.
  intros Hwf Hwf' Hs Hs' HF HI HP.
  unfold compute_dsm_cv, shape_at. rewrite Hs, Hs'.
  cbn [nth_error bind ret].
  rewrite (reshape_folds X Hwf Hs HF HI), (reshape_folds X' Hwf' Hs' HF HI).
  cbn [bind ret shape].
  destruct (_ && _); [reflexivity|].
  set (Xr := mk_ndarray [n_folds; n_items; prod rest] (buf X)).
  set (Xr' := mk_ndarray [n_folds; n_items; prod rest] (buf X')).
  assert (HPr : Permutation (items Xr) (items Xr')).
  { subst Xr Xr'.
    rewrite (items_reshaped X n_folds n_items rest Hs),
            (items_reshaped X' n_folds n_items rest Hs').
    now apply Permutation_map. }
  assert (HM : mean_axis0 Xr' = mean_axis0 Xr).
  { unfold mean_axis0. f_equal. f_equal.
    apply vsum_permutation, Permutation_map. now symmetry. }
  rewrite HM.
  set (M := mean_axis0 Xr).
  set (T := fun it =>
              dist <- cdist metric_fn (x_train M it n_folds) it metric kw ;;
              ret (take_pairs dist (triu_indices_from dist 1))).
  assert (Hloop : forall Z z,
             fold_result (cv_step metric_fn Z M n_folds metric kw)
                         (seq 0 n_folds) z
             = fold_result (fun acc it => term <- T it ;; ret (add acc term))
                           (map (item Z) (seq 0 n_folds)) z).
  { intros Z z. rewrite <- fold_result_map. apply fold_result_ext.
    intros a t. apply cv_step_adds_a_term. }
  rewrite !Hloop.
  change (map (item Xr') (seq 0 n_folds)) with (items Xr').
  change (map (item Xr) (seq 0 n_folds)) with (items Xr).
  rewrite (fold_result_permutation
             T (ValueError "Unknown Distance Metric")) with (l' := items Xr);
    [reflexivity | | now symmetry].
  intros it e. unfold T.
  destruct (cdist_cases metric_fn (x_train M it n_folds) it metric kw)
    as [[dist ->] | ->]; cbn [bind ret raise]; [discriminate|].
  now intros [= <-].
Qed.

End Fold_order.

Lemma three_folds_reordered_items :
  items three_folds_reordered
  = [item three_folds 1; item three_folds 0; item three_folds 2].
Proof.
  change (items three_folds_reordered)
    with [item three_folds_reordered 0; item three_folds_reordered 1;
          item three_folds_reordered 2].
  assert (E0 : item three_folds_reordered 0 = item three_folds 1)
    by (apply nd_eqb_eq; vm_compute; reflexivity).
  assert (E1 : item three_folds_reordered 1 = item three_folds 0)
    by (apply nd_eqb_eq; vm_compute; reflexivity).
  assert (E2 : item three_folds_reordered 2 = item three_folds 2)
    by (apply nd_eqb_eq; vm_compute; reflexivity).
  now rewrite E0, E1, E2.
Qed.

Lemma compute_dsm_cv_ignores_the_order_of_the_folds_witness :
  compute_dsm_cv sqeuclidean_only three_folds_reordered "sqeuclidean" []
  = compute_dsm_cv sqeuclidean_only three_folds "sqeuclidean" [].
Proof.
  apply (compute_dsm_cv_ignores_the_order_of_the_folds
           sqeuclidean_only three_folds three_folds_reordered 3 2 [2; 2]
           "sqeuclidean" []);
    [reflexivity | reflexivity | reflexivity | reflexivity | lia | lia |].
  rewrite three_folds_reordered_items. apply perm_swap.
Defined.

(* ================================================================== *)
(** * [dsm_spattemp]: the patches it cuts *)
(* ================================================================== *)

(** X18: on a fold tensor of folds x items x series x ... x samples and a
    square matrix of distances, [dsm_spattemp] cuts one patch per pair of
    a series and a center, series by series, and none of the cuts fails:
    the patch at position [s * len(centers) + i] is the window of the
    [i]-th center restricted to the neighborhood of the series [s], a
    well-formed array of
    folds x items x neighbors of [s] x ... x [2 * temporal_radius]. *)
Theorem spatiotemporal_patches_are_cut_for_every_series_and_center
        (folds dist : ndarray) (n_folds n_items n_series n_samples : nat)
        (mid : list nat) (spatial_radius : Qc) (temporal_radius : Z) :
  wf folds ->
  shape folds = n_folds :: n_items :: n_series :: mid ++ [n_samples] ->
  wf dist -> shape dist = [n_series; n_series] ->
  (0 <= temporal_radius)%Z ->
  let centers :=
    _get_time_patch_centers (Z.of_nat n_samples) temporal_radius in
  let patches :=
    patch_iterator folds dist spatial_radius temporal_radius n_series
                   centers in
  length patches = n_series * length centers
  /\ forall s i,
       s < n_series -> i < length centers ->
       exists windowed patch,
         slice_last folds (nth i centers 0%Z - temporal_radius)
                          (nth i centers 0%Z + temporal_radius)
         = ret windowed /\
         take_axis2 windowed (neighborhood (item dist s) spatial_radius)
         = ret patch /\
         nth (s * length centers + i) patches
             (raise (IndexError "list index out of range"))
         = ret patch /\
         shape patch
         = n_folds :: n_items
           :: length (neighborhood (item dist s) spatial_radius)
           :: mid ++ [2 * Z.to_nat temporal_radius] /\
         wf patch.
Proof.
  intros Hwf Hs Hwfd Hsd Hr centers patches. subst patches.
  split; [apply patch_iterator_length|].
  intros s i Hlt Hi.
  set (c := nth i centers 0%Z).
  assert (Hc : In c centers) by now apply nth_In.
  unfold centers, _get_time_patch_centers in Hc. apply range_In in Hc.
  destruct (slice_last_wf folds (n_folds :: n_items :: n_series :: mid)
                          n_samples (c - temporal_radius)
                          (c + temporal_radius) Hwf Hs)
    as (windowed & Hwin & Hsw & Hwfw).
  rewrite !slice_bound_inside in Hsw by lia.
  replace (Z.to_nat (c + temporal_radius) - Z.to_nat (c - temporal_radius))
    with (2 * Z.to_nat temporal_radius) in Hsw by lia.
  destruct (take_axis2_blocks
              windowed n_folds n_items n_series
              (mid ++ [2 * Z.to_nat temporal_radius])
              (neighborhood (item dist s) spatial_radius) Hwfw Hsw
              (neighborhood_in_range dist n_series n_series s
                                     spatial_radius Hwfd Hsd Hlt))
    as (patch & Hpatch & Hsp & Hwfp & _).
  exists windowed, patch.
  split; [exact Hwin|]. split; [exact Hpatch|].
  split; [|split; assumption].
  set (f := fun (series : nat) (sample : Z) =>
              row <- getitem dist series ;;
              if ndim folds <? 4
              then raise (IndexError "too many indices for array")
              else
                windowed <- slice_last folds (sample - temporal_radius)
                                             (sample + temporal_radius) ;;
                take_axis2 windowed (neighborhood row spatial_radius)).
  change (patch_iterator folds dist spatial_radius temporal_radius
                         n_series centers)
    with (flat_map (fun u => map (f u) centers) (seq 0 n_series)).
  rewrite (nth_grid f (seq 0 n_series) centers s i 0 0%Z)
    by (rewrite ?length_seq; assumption).
  rewrite seq_nth by assumption. cbn [Nat.add]. fold c. unfold f.
  unfold getitem. rewrite Hsd. cbn [bind ret].
  replace (s <? n_series) with true by (symmetry; now apply Nat.ltb_lt).
  cbn [bind ret].
  replace (ndim folds <? 4) with false.
  2:{ symmetry. apply Nat.ltb_ge. unfold ndim. rewrite Hs.
      cbn [length]. rewrite length_app. cbn [length]. lia. }
  rewrite Hwin. cbn [bind ret]. exact Hpatch.
Qed.

Lemma spatiotemporal_patches_are_cut_for_every_series_and_center_witness :
  let centers := _get_time_patch_centers (Z.of_nat 3) 1 in
  let folds := mk_ndarray [1; 2; 2; 3] (buf two_series_data) in
  let patches := patch_iterator folds two_series_dist (of_nat 2) 1%Z 2
                                centers in
  length patches = 2 * length centers
  /\ forall s i,
       s < 2 -> i < length centers ->
       exists windowed patch,
         slice_last folds (nth i centers 0%Z - 1) (nth i centers 0%Z + 1)
         = ret windowed /\
         take_axis2 windowed (neighborhood (item two_series_dist s)
                                           (of_nat 2))
         = ret patch /\
         nth (s * length centers + i) patches
             (raise (IndexError "list index out of range"))
         = ret patch /\
         shape patch
         = 1 :: 2
           :: length (neighborhood (item two_series_dist s) (of_nat 2))
           :: [] ++ [2 * Z.to_nat 1] /\
         wf patch.
Proof.
  apply (spatiotemporal_patches_are_cut_for_every_series_and_center
           (mk_ndarray [1; 2; 2; 3] (buf two_series_data)) two_series_dist
           1 2 2 3 [] (of_nat 2) 1%Z);
    [reflexivity | reflexivity | reflexivity | reflexivity | lia].
Defined.
